(** * Operator collections of qiskit_dynamics.models.operator_collections

    A shallow embedding of the dense, sparse and Lindblad operator
    collections, of the numpy and scipy operations they call, and the
    properties of their generator and right-hand-side evaluation.

    Floating-point numbers are taken with exact arithmetic: every finite
    float is a rational number, so a complex entry is a pair of rationals
    (in canonical form, [Qc]) and the numpy operations are the exact ones. *)

From Stdlib Require Import QArith Qcanon Qcabs ZArith Lia Ring.
From stdpp Require Import base numbers list strings gmap.

Set Default Proof Using "Type".
Local Open Scope Qc_scope.

(** ** Complex scalars *)

Record C : Type := mkC { re : Qc; im : Qc }.

Definition C0 : C := mkC 0 0.
Definition C1 : C := mkC 1 0.
Definition Cadd (a b : C) : C := mkC (re a + re b) (im a + im b).
Definition Copp (a : C) : C := mkC (- re a) (- im a).
Definition Csub (a b : C) : C := Cadd a (Copp b).
Definition Cmul (a b : C) : C :=
  mkC (re a * re b - im a * im b) (re a * im b + im a * re b).
Definition Cconj (a : C) : C := mkC (re a) (- im a).
Definition Creal (q : Qc) : C := mkC q 0.

(** The rational [n/d] as a real scalar. *)
Definition Cq (n : Z) (d : positive) : C := Creal (Q2Qc (n # d)).
Definition Cz (n : Z) : C := Cq n 1.

(** The Python literals [-1j] and [(-1 / 2)]. *)
Definition minus_1j : C := mkC 0 (-(1)).
Definition minus_half : C := mkC (Q2Qc (-1 # 2)) 0.

Global Instance C_eq_dec : EqDecision C.
Proof. solve_decision. Defined.

(** ** numpy.round: round half to even at [decimals] places, real and
    imaginary part separately.

    numpy computes [rint(x·10^decimals) / 10^decimals]; with the exact
    arithmetic of this development the product and the quotient carry no
    error of their own, so [round_real] is the exact decimal rounding. What
    is proved below of the collections holds whatever the rounding function
    returns; no property of the rounded values themselves is drawn from it
    beyond evaluating it in examples. *)

Definition rint (q : Qc) : Z :=
  let n := Qnum (this q) in
  let d := Zpos (Qden (this q)) in
  let f := (n / d)%Z in
  let r := (n - f * d)%Z in
  match (2 * r ?= d)%Z with
  | Lt => f
  | Gt => (f + 1)%Z
  | Eq => if Z.even f then f else (f + 1)%Z
  end.

Definition pow10 (k : Z) : Qc := Q2Qc (inject_Z (10 ^ k)).

Definition round_real (decimals : Z) (q : Qc) : Qc :=
  if (0 <=? decimals)%Z
  then Q2Qc (inject_Z (rint (q * pow10 decimals))) / pow10 decimals
  else Q2Qc (inject_Z (rint (q / pow10 (- decimals)))) * pow10 (- decimals).

Definition round_C (decimals : Z) (c : C) : C :=
  mkC (round_real decimals (re c)) (round_real decimals (im c)).

(** An integer is kept as it is at [decimals ≥ 0] and rounded to a multiple
    of [10^(-decimals)] otherwise. *)
Definition round_int (decimals : Z) (n : Z) : Z :=
  if (0 <=? decimals)%Z then n
  else (rint (Q2Qc (inject_Z n) / pow10 (- decimals)) * 10 ^ (- decimals))%Z.

Local Close Scope Qc_scope.

(** ** Vectors and row-major blocks *)

Definition vzero (n : nat) : list C := replicate n C0.
Definition vadd : list C → list C → list C := zip_with Cadd.
Definition vscale (c : C) : list C → list C := map (Cmul c).

(** [lincomb n cs vs] is the sum of the [cs_j · vs_j], vectors of length [n]. *)
Definition lincomb (n : nat) (cs : list C) (vs : list (list C)) : list C :=
  foldr (λ p acc, vadd (vscale p.1 p.2) acc) (vzero n) (zip cs vs).

Definition size (s : list nat) : nat := foldr Nat.mul 1 s.

(** [chunks sz cnt l]: the first [cnt] consecutive blocks of [sz] elements. *)
Fixpoint chunks {A} (sz cnt : nat) (l : list A) : list (list A) :=
  match cnt with
  | O => []
  | S c => take sz l :: chunks sz c (drop sz l)
  end.

(** Product of an [M×K] by a [K×N] row-major block: row [i] of the result
    is the combination of the rows of the second with the coefficients of
    row [i] of the first. *)
Definition mm (M K N : nat) (da db : list C) : list C :=
  concat (map (λ r, lincomb N r (chunks N K db)) (chunks K M da)).

(** ** numpy arrays: a shape and the entries in row-major order *)

Record ndarray : Type := mk_nd { shape : list nat; data : list C }.

Definition ndim (a : ndarray) : nat := length (shape a).
Definition wf (a : ndarray) : Prop := length (data a) = size (shape a).

(** ** Python exceptions *)

Inductive exn : Type :=
| ValueError | TypeError | NameError | AttributeError | IndexError
| NotImplementedError.

Inductive result (A : Type) : Type :=
| Ok (a : A)
| Raise (e : exn).
Arguments Ok {A} a.
Arguments Raise {A} e.

Global Instance result_ret : MRet result := λ A a, Ok a.
Global Instance result_bind : MBind result := λ A B f m,
  match m with Ok a => f a | Raise e => Raise e end.
Global Instance result_fmap : FMap result := λ A B f m,
  match m with Ok a => Ok (f a) | Raise e => Raise e end.

(** ** Shapes and broadcasting *)

Definition last_axis (s : list nat) : option (list nat * nat) :=
  match reverse s with
  | k :: r => Some (reverse r, k)
  | [] => None
  end.

Definition last_two (s : list nat) : option (list nat * nat * nat) :=
  match reverse s with
  | c :: r :: b => Some (reverse b, r, c)
  | _ => None
  end.

Definition last_three (s : list nat) : option (list nat * nat * nat * nat) :=
  match reverse s with
  | c :: r :: m :: b => Some (reverse b, m, r, c)
  | _ => None
  end.

Definition pad_shape (n : nat) (s : list nat) : list nat :=
  replicate (n - length s) 1 ++ s.

Definition broadcast_dim (x y : nat) : option nat :=
  if decide (x = y) then Some x
  else if decide (x = 1) then Some y
  else if decide (y = 1) then Some x
  else None.

Fixpoint broadcast_dims (sa sb : list nat) : option (list nat) :=
  match sa, sb with
  | [], [] => Some []
  | x :: sa', y :: sb' =>
      match broadcast_dim x y, broadcast_dims sa' sb' with
      | Some d, Some r => Some (d :: r)
      | _, _ => None
      end
  | _, _ => None
  end.

Definition broadcast_shapes (sa sb : list nat) : option (list nat) :=
  let n := length sa `max` length sb in
  broadcast_dims (pad_shape n sa) (pad_shape n sb).

(** [expand e s t d]: the entries of an array of shape [s] (of blocks of [e]
    entries) repeated along its axes of length 1 up to shape [t]. *)
Fixpoint expand (e : nat) (s t : list nat) (d : list C) : list C :=
  match s, t with
  | x :: s', y :: t' =>
      if decide (x = y)
      then concat (map (expand e s' t') (chunks (size s' * e) x d))
      else concat (replicate y (expand e s' t' d))
  | _, _ => d
  end.

Definition np_broadcast_to (a : ndarray) (t : list nat) : result ndarray :=
  if decide (length (shape a) ≤ length t) then
    let s := pad_shape (length t) (shape a) in
    if decide (broadcast_dims s t = Some t)
    then Ok (mk_nd t (expand 1 s t (data a)))
    else Raise ValueError
  else Raise ValueError.

(** Element-wise binary operation with broadcasting. *)
Definition np_binop (f : C → C → C) (a b : ndarray) : result ndarray :=
  let n := length (shape a) `max` length (shape b) in
  match broadcast_shapes (shape a) (shape b) with
  | Some t =>
      Ok (mk_nd t (zip_with f (expand 1 (pad_shape n (shape a)) t (data a))
                              (expand 1 (pad_shape n (shape b)) t (data b))))
  | None => Raise ValueError
  end.

Definition np_add : ndarray → ndarray → result ndarray := np_binop Cadd.
Definition np_subtract : ndarray → ndarray → result ndarray := np_binop Csub.

Definition np_scale (c : C) (a : ndarray) : ndarray :=
  mk_nd (shape a) (vscale c (data a)).
Definition np_negative (a : ndarray) : ndarray :=
  mk_nd (shape a) (map Copp (data a)).
Definition np_conjugate (a : ndarray) : ndarray :=
  mk_nd (shape a) (map Cconj (data a)).
Definition np_round (a : ndarray) (decimals : Z) : ndarray :=
  mk_nd (shape a) (map (round_C decimals) (data a)).

(** ** Contractions *)

(** [np.tensordot(a, b, axes=1)]: the last axis of [a] against the first
    axis of [b]. *)
Definition np_tensordot (a b : ndarray) : result ndarray :=
  match last_axis (shape a), shape b with
  | Some (ra, k), k' :: rb =>
      if decide (k = k')
      then Ok (mk_nd (ra ++ rb) (mm (size ra) k (size rb) (data a) (data b)))
      else Raise ValueError
  | _, _ => Raise IndexError
  end.

(** The entries of an array of shape [pre ++ [m; e...]] with the axis of
    length [m] moved to the front: [m] rows of [size pre * e] entries. *)
Definition axis_to_front (pre m e : nat) (d : list C) : list (list C) :=
  let blocks := map (chunks e m) (chunks (m * e) pre d) in
  map (λ j, concat (map (λ bu, nth j bu []) blocks)) (seq 0 m).

(** [np.tensordot(a, b, axes=(-1, -3))]: the last axis of [a] against the
    third-from-last axis of [b]. *)
Definition np_tensordot_m1_m3 (a b : ndarray) : result ndarray :=
  match last_axis (shape a), last_three (shape b) with
  | Some (ra, k), Some (pre, m, r, c) =>
      if decide (k = m)
      then Ok (mk_nd (ra ++ pre ++ [r; c])
                 (concat (map (λ row, lincomb (size pre * (r * c)) row
                                        (axis_to_front (size pre) m (r * c) (data b)))
                              (chunks k (size ra) (data a)))))
      else Raise ValueError
  | _, _ => Raise IndexError
  end.

(** [np.matmul]: matrices in the last two axes, the leading axes broadcast;
    a 1-D operand is a row (on the left) or a column (on the right). *)
Definition np_matmul (a b : ndarray) : result ndarray :=
  match shape a, shape b with
  | [], _ | _, [] => Raise ValueError
  | sa, sb =>
      let sa' := match sa with [k] => [1; k] | _ => sa end in
      let sb' := match sb with [k] => [k; 1] | _ => sb end in
      match last_two sa', last_two sb' with
      | Some (ba, n, p), Some (bb, p', q) =>
          if decide (p = p') then
            match broadcast_shapes ba bb with
            | Some bt =>
                let l := length ba `max` length bb in
                let da := chunks (n * p) (size bt)
                            (expand (n * p) (pad_shape l ba) bt (data a)) in
                let db := chunks (p * q) (size bt)
                            (expand (p * q) (pad_shape l bb) bt (data b)) in
                let core := match sa with [_] => [] | _ => [n] end ++
                            match sb with [_] => [] | _ => [q] end in
                Ok (mk_nd (bt ++ core) (concat (zip_with (mm n p q) da db)))
            | None => Raise ValueError
            end
          else Raise ValueError
      | _, _ => Raise ValueError
      end
  end.

(** [np.dot]: a scalar operand multiplies; otherwise the last axis of [a]
    against the second-to-last axis of [b] (its only axis when [b] is 1-D). *)
Definition np_dot (a b : ndarray) : result ndarray :=
  match shape a, shape b with
  | [], _ => Ok (mk_nd (shape b) (vscale (nth 0 (data a) C0) (data b)))
  | _, [] => Ok (mk_nd (shape a) (map (λ x, Cmul x (nth 0 (data b) C0)) (data a)))
  | sa, sb =>
      let sb' := match sb with [k] => [k; 1] | _ => sb end in
      match last_axis sa, last_two sb' with
      | Some (ra, k), Some (bb, k', q) =>
          if decide (k = k') then
            let mats := chunks (k * q) (size bb) (data b) in
            Ok (mk_nd (ra ++ bb ++ match sb with [_] => [] | _ => [q] end)
                  (concat (map (λ row, concat (map (λ m, lincomb q row (chunks q k m)) mats))
                               (chunks k (size ra) (data a)))))
          else Raise ValueError
      | _, _ => Raise ValueError
      end
  end.

(** [np.transpose(a, [0, 2, 1])] *)
Definition transpose_rows (r c : nat) (d : list C) : list C :=
  concat (map (λ j, map (λ row, nth j row C0) (chunks c r d)) (seq 0 c)).

Definition np_transpose_021 (a : ndarray) : result ndarray :=
  match shape a with
  | [m; r; c] =>
      Ok (mk_nd [m; c; r] (concat (map (transpose_rows r c) (chunks (r * c) m (data a)))))
  | _ => Raise ValueError
  end.

(** [a.transpose([1, 0, 2, 3])] *)
Definition np_transpose_1023 (a : ndarray) : result ndarray :=
  match shape a with
  | [u; v; r; c] =>
      Ok (mk_nd [v; u; r; c] (concat (axis_to_front u v (r * c) (data a))))
  | _ => Raise ValueError
  end.

(** ** Python values

    [PyCsr] is a [scipy.sparse.csr_matrix], given by its shape and entries;
    [PyObjArr] is a numpy array of [dtype="O"], whose items are Python
    objects; [PyGlobal] is a module-level function or class. *)

#[warnings="-register-all"] Inductive pyval : Type :=
| PyNone
| PyInt (n : Z)
| PyNum (c : C)
| PyArr (a : ndarray)
| PyCsr (m : ndarray)
| PyObjArr (shp : list nat) (items : list pyval)
| PyList (l : list pyval)
| PyTuple (l : list pyval)
| PyGlobal (name : string).

Definition is_none (v : pyval) : bool :=
  match v with PyNone => true | _ => false end.

(** [v.shape] *)
Definition py_shape (v : pyval) : result (list nat) :=
  match v with
  | PyArr a => Ok (shape a)
  | PyCsr m => Ok (shape m)
  | PyObjArr shp _ => Ok shp
  | _ => Raise AttributeError
  end.

(** [t[i]] on a shape tuple, for [i] counted from the front (or, when
    negative, from the back). *)
Definition tuple_index (t : list nat) (i : Z) : result nat :=
  let j := if (i <? 0)%Z then (Z.of_nat (length t) + i)%Z else i in
  if (j <? 0)%Z then Raise IndexError
  else match t !! Z.to_nat j with
       | Some d => Ok d
       | None => Raise IndexError
       end.

(** [v[i]] for a non-negative integer [i]. *)
Definition py_getitem (v : pyval) (i : nat) : result pyval :=
  match v with
  | PyArr a =>
      match shape a with
      | [] => Raise IndexError
      | k :: s =>
          if decide (i < k)
          then Ok (PyArr (mk_nd s (nth i (chunks (size s) k (data a)) [])))
          else Raise IndexError
      end
  | PyObjArr shp items =>
      match shp with
      | [] => Raise IndexError
      | [k] => match items !! i with Some x => Ok x | None => Raise IndexError end
      | k :: s =>
          if decide (i < k)
          then Ok (PyObjArr s (nth i (chunks (size s) k items) []))
          else Raise IndexError
      end
  | PyList l | PyTuple l =>
      match l !! i with Some x => Ok x | None => Raise IndexError end
  | _ => Raise TypeError
  end.

(** [csr_matrix(v)]: a sparse matrix from a dense array of at most two
    dimensions, from a scalar (a matrix of one entry) or from a sparse
    matrix; [None] is refused with [ValueError]. As for [np.round] below,
    a list is not converted into an array first. *)
Definition csr_matrix (v : pyval) : result pyval :=
  match v with
  | PyCsr m => Ok (PyCsr m)
  | PyArr a =>
      match shape a with
      | [] => Ok (PyCsr (mk_nd [1; 1] (data a)))
      | [n] => Ok (PyCsr (mk_nd [1; n] (data a)))
      | [_; _] => Ok (PyCsr a)
      | _ => Raise TypeError
      end
  | PyNum c => Ok (PyCsr (mk_nd [1; 1] [c]))
  | PyInt n => Ok (PyCsr (mk_nd [1; 1] [Cz n]))
  | PyNone => Raise ValueError
  | _ => Raise TypeError
  end.

(** [np.round(v, decimals)] on an array, a sparse matrix or a number;
    [None] has no [round] and no arithmetic. The conversion numpy makes of a
    list into an array is not modelled: the collections below are built from
    arrays and numbers, and a list is refused here. *)
Definition py_round (v : pyval) (decimals : Z) : result pyval :=
  match v with
  | PyArr a => Ok (PyArr (np_round a decimals))
  | PyCsr m => Ok (PyCsr (np_round m decimals))
  | PyNum c => Ok (PyNum (round_C decimals c))
  | PyInt n => Ok (PyInt (round_int decimals n))
  | _ => Raise TypeError
  end.

(** A sparse matrix times a dense vector or matrix. *)
Definition csr_dot (m y : ndarray) : result ndarray :=
  match shape y with
  | [_] | [_; _] => np_matmul m y
  | _ => Raise ValueError
  end.

Definition csr_add (m1 m2 : ndarray) : result ndarray :=
  if decide (shape m1 = shape m2)
  then Ok (mk_nd (shape m1) (vadd (data m1) (data m2)))
  else Raise ValueError.

(** The Python operators [+], [-], [*] and unary [-] on the operands that
    occur in the collections: scalars, dense arrays and sparse matrices
    (for which [*] is the matrix product). [None] supports none of them;
    operands of other kinds are rejected alike.

    An array of objects of no dimension is not the object it holds: added
    to a sparse matrix it is left to the matrix, which takes it for a scalar
    and compares it with zero. When its item is a sparse matrix of more than
    one entry that comparison has no truth value and raises [ValueError];
    when its item is a sparse matrix of one entry, the sum is a copy of the
    other matrix if that entry is zero and is refused with
    [NotImplementedError] if it is not. *)
Definition py_add (u v : pyval) : result pyval :=
  match u, v with
  | PyNum a, PyNum b => Ok (PyNum (Cadd a b))
  | PyNum a, PyArr b => PyArr <$> np_add (mk_nd [] [a]) b
  | PyArr a, PyNum b => PyArr <$> np_add a (mk_nd [] [b])
  | PyArr a, PyArr b => PyArr <$> np_add a b
  | PyCsr a, PyCsr b => PyCsr <$> csr_add a b
  | PyObjArr [] [PyCsr t], PyCsr m | PyCsr m, PyObjArr [] [PyCsr t] =>
      match shape t with
      | [1; 1] => if decide (data t = [C0]) then Ok (PyCsr m)
                  else Raise NotImplementedError
      | _ => Raise ValueError
      end
  | _, _ => Raise TypeError
  end.

Definition py_sub (u v : pyval) : result pyval :=
  match u, v with
  | PyNum a, PyNum b => Ok (PyNum (Csub a b))
  | PyNum a, PyArr b => PyArr <$> np_subtract (mk_nd [] [a]) b
  | PyArr a, PyNum b => PyArr <$> np_subtract a (mk_nd [] [b])
  | PyArr a, PyArr b => PyArr <$> np_subtract a b
  | _, _ => Raise TypeError
  end.

Definition py_mul (u v : pyval) : result pyval :=
  match u, v with
  | PyNum a, PyNum b => Ok (PyNum (Cmul a b))
  | PyNum a, PyArr b => Ok (PyArr (np_scale a b))
  | PyArr a, PyNum b => Ok (PyArr (np_scale b a))
  | PyArr a, PyArr b => PyArr <$> np_binop Cmul a b
  | PyNum a, PyCsr b => Ok (PyCsr (np_scale a b))
  | PyCsr a, PyNum b => Ok (PyCsr (np_scale b a))
  | PyCsr a, PyArr b => PyArr <$> csr_dot a b
  | PyCsr a, PyCsr b =>
      match shape a, shape b with
      | [_; p], [p'; _] => if decide (p = p') then PyCsr <$> np_matmul a b else Raise ValueError
      | _, _ => Raise ValueError
      end
  | _, _ => Raise TypeError
  end.

Definition py_neg (v : pyval) : result pyval :=
  match v with
  | PyNum a => Ok (PyNum (Copp a))
  | PyArr a => Ok (PyArr (np_negative a))
  | PyCsr a => Ok (PyCsr (np_negative a))
  | _ => Raise TypeError
  end.

(** The contraction of coefficients with the items of an object array: the
    products are formed with [*] and added, left to right, with [+]; with no
    item there is nothing to add and the slot keeps no object. *)
Definition obj_dot (cs : list C) (items : list pyval) : result pyval :=
  match zip cs items with
  | [] => Ok PyNone
  | (c, x) :: rest =>
      t ← py_mul (PyNum c) x;
      foldl (λ acc p, a ← acc; t ← py_mul (PyNum p.1) p.2; py_add a t) (Ok t) rest
  end.

Fixpoint mapM {A B} (f : A → result B) (l : list A) : result (list B) :=
  match l with
  | [] => Ok []
  | x :: l' => y ← f x; ys ← mapM f l'; Ok (y :: ys)
  end.

(** [np.tensordot(a, b, axes=1)] on dense arrays, and on a dense array of
    coefficients against a 1-D object array. *)
Definition py_tensordot (a b : pyval) : result pyval :=
  match a, b with
  | PyArr a, PyArr b => PyArr <$> np_tensordot a b
  | PyArr a, PyObjArr [k'] items =>
      match last_axis (shape a) with
      | Some (ra, k) =>
          if decide (k = k')
          then PyObjArr ra <$> mapM (λ row, obj_dot row items) (chunks k (size ra) (data a))
          else Raise ValueError
      | None => Raise IndexError
      end
  | _, _ => Raise TypeError
  end.

(** [np.tensordot(a, b, axes=(-1, -3))] *)
Definition py_tensordot_m1_m3 (a b : pyval) : result pyval :=
  match a, b with
  | PyArr a, PyArr b => PyArr <$> np_tensordot_m1_m3 a b
  | _, _ => Raise TypeError
  end.

(** [np.dot(a, b)], with the same two cases. *)
Definition py_dot (a b : pyval) : result pyval :=
  match a, b with
  | PyArr a, PyArr b => PyArr <$> np_dot a b
  | PyArr a, PyObjArr [k'] items =>
      match shape a with
      | [k] => if decide (k = k') then obj_dot (data a) items else Raise ValueError
      | _ => Raise ValueError
      end
  | _, _ => Raise TypeError
  end.

(** [g.dot(y)], a method of dense arrays and of sparse matrices. *)
Definition py_method_dot (g y : pyval) : result pyval :=
  match g, y with
  | PyArr a, PyArr b => PyArr <$> np_dot a b
  | PyCsr m, PyArr b => PyArr <$> csr_dot m b
  | PyNone, _ => Raise AttributeError
  | _, _ => Raise TypeError
  end.

Definition py_matmul (a b : pyval) : result pyval :=
  match a, b with
  | PyArr a, PyArr b => PyArr <$> np_matmul a b
  | _, _ => Raise TypeError
  end.

Definition py_conjugate (a : pyval) : result pyval :=
  match a with
  | PyArr a => Ok (PyArr (np_conjugate a))
  | PyCsr m => Ok (PyCsr (np_conjugate m))
  | PyNum c => Ok (PyNum (Cconj c))
  | _ => Raise TypeError
  end.

Definition py_transpose_021 (a : pyval) : result pyval :=
  match a with
  | PyArr a => PyArr <$> np_transpose_021 a
  | _ => Raise ValueError
  end.

(** [v.reshape(1, n)] *)
Definition py_reshape_1 (v : pyval) (n : nat) : result pyval :=
  match v with
  | PyArr a =>
      if decide (length (data a) = n)
      then Ok (PyArr (mk_nd [1; n] (data a)))
      else Raise ValueError
  | _ => Raise AttributeError
  end.

(** An object array times an object array, item by item, an array of one
    item being repeated. *)
Definition objarr_mul (u v : pyval) : result pyval :=
  match u, v with
  | PyObjArr [k] xs, PyObjArr [k'] ys =>
      if decide (k = k') then
        PyObjArr [k] <$> mapM (λ p, py_mul p.1 p.2) (zip xs ys)
      else if decide (k' = 1) then
        PyObjArr [k] <$> mapM (λ x, py_mul x (nth 0 ys PyNone)) xs
      else if decide (k = 1) then
        PyObjArr [k'] <$> mapM (λ y, py_mul (nth 0 xs PyNone) y) ys
      else Raise ValueError
  | _, _ => Raise TypeError
  end.

(** [m.transpose()] of a sparse matrix. *)
Definition py_csr_transpose (v : pyval) : result pyval :=
  match v with
  | PyCsr m =>
      match shape m with
      | [r; c] => Ok (PyCsr (mk_nd [c; r] (transpose_rows r c (data m))))
      | _ => Raise ValueError
      end
  | _ => Raise AttributeError
  end.

(** [np.broadcast_to(y, (1, y.shape[0], y.shape[1], y.shape[2])).transpose([1, 0, 2, 3])] *)
Definition py_batch_axis (y : pyval) : result pyval :=
  match y with
  | PyArr a =>
      s0 ← tuple_index (shape a) 0;
      s1 ← tuple_index (shape a) 1;
      s2 ← tuple_index (shape a) 2;
      b ← np_broadcast_to a [1; s0; s1; s2];
      PyArr <$> np_transpose_1023 b
  | _ => Raise TypeError
  end.

(** [np.any(v != 0)]; a value that is not a number or an array differs
    from [0]. *)
Definition py_any_nonzero (v : pyval) : bool :=
  match v with
  | PyArr a => existsb (λ x, negb (bool_decide (x = C0))) (data a)
  | PyNum c => negb (bool_decide (c = C0))
  | PyInt n => negb (n =? 0)%Z
  | _ => true
  end.

(** [np.append(a, b, axis=0)] and [np.append(a, b, axis=-1)]: the arrays
    are joined along the axis and must agree on the others. *)
Definition np_append_0 (a b : ndarray) : result ndarray :=
  match shape a, shape b with
  | ka :: sa, kb :: sb =>
      if decide (sa = sb) then Ok (mk_nd (ka + kb :: sa) (data a ++ data b))
      else Raise ValueError
  | _, _ => Raise ValueError
  end.

Definition np_append_last (a b : ndarray) : result ndarray :=
  match last_axis (shape a), last_axis (shape b) with
  | Some (ra, ka), Some (rb, kb) =>
      if decide (ra = rb)
      then Ok (mk_nd (ra ++ [ka + kb])
                 (concat (zip_with app (chunks ka (size ra) (data a))
                                       (chunks kb (size rb) (data b)))))
      else Raise ValueError
  | _, _ => Raise ValueError
  end.

Definition py_append_0 (a b : pyval) : result pyval :=
  match a, b with
  | PyArr a, PyArr b => PyArr <$> np_append_0 a b
  | _, _ => Raise ValueError
  end.

Definition py_append_last (a b : pyval) : result pyval :=
  match a, b with
  | PyArr a, PyArr b => PyArr <$> np_append_last a b
  | _, _ => Raise ValueError
  end.

(** ** Instances and classes

    An instance is its class and its attribute dictionary. Reading an
    attribute that was never assigned raises [AttributeError]. *)

Inductive class : Type :=
| DenseOperatorCollection
| SparseOperatorCollection
| DenseLindbladCollection
| DenseVectorizedLindbladCollection
| SparseLindbladCollection.

Record instance : Type := mk_instance { cls : class; attrs : gmap string pyval }.

Definition new (c : class) : instance := mk_instance c ∅.

Definition getattr (self : instance) (name : string) : result pyval :=
  match attrs self !! name with
  | Some v => Ok v
  | None => Raise AttributeError
  end.

Definition setattr (self : instance) (name : string) (v : pyval) : instance :=
  mk_instance (cls self) (<[name := v]> (attrs self)).

(** Modelled from the spec: [qiskit_dynamics.type_utils.to_array] is not
    among the sources; it hands back its argument as an array, and an array
    is left as it is. *)
Definition to_array (v : pyval) : result pyval := Ok v.

Module BaseOperatorCollection.

(** The [drift] setter. *)
Definition set_drift (self : instance) (new_drift : pyval) : result instance :=
  Ok (setattr self "_drift" new_drift).

Definition drift (self : instance) : result pyval := getattr self "_drift".

End BaseOperatorCollection.

Module DenseOperatorCollection.

Definition num_operators (self : instance) : result pyval :=
  ops ← getattr self "_operators";
  s ← py_shape ops;
  k ← tuple_index s 0;
  Ok (PyInt (Z.of_nat k)).

Definition evaluate_generator (self : instance) (signal_values : pyval) : result pyval :=
  d ← getattr self "_drift";
  ops ← getattr self "_operators";
  if is_none d then py_tensordot signal_values ops
  else t ← py_tensordot signal_values ops; py_add t d.

Definition __init__ (self : instance) (operators drift : pyval) : result instance :=
  ops ← to_array operators;
  BaseOperatorCollection.set_drift (setattr self "_operators" ops) drift.

End DenseOperatorCollection.

Module SparseOperatorCollection.

Definition num_operators (self : instance) : result pyval :=
  ops ← getattr self "_operators";
  s ← py_shape ops;
  k ← tuple_index s 0;
  Ok (PyInt (Z.of_nat k)).

(** The overriding [drift] setter. *)
Definition set_drift (self : instance) (new_drift : pyval) : result instance :=
  match new_drift with
  | PyCsr _ => Ok (setattr self "_drift" new_drift)
  | _ => d ← csr_matrix new_drift; Ok (setattr self "_drift" d)
  end.

Definition __init__ (self : instance) (operators drift : pyval) (decimals : Z)
  : result instance :=
  d ← py_round drift decimals;
  self ← set_drift self d;
  s ← py_shape operators;
  k ← tuple_index s 0;
  items ← mapM (λ i, x ← py_getitem operators i;
                     r ← py_round x decimals;
                     csr_matrix r) (seq 0 k);
  Ok (setattr self "_operators" (PyObjArr [k] items)).

Definition evaluate_generator (self : instance) (signal_values : pyval) : result pyval :=
  s ← py_shape signal_values;
  n ← tuple_index s (-1);
  signal_values ← py_reshape_1 signal_values n;
  d ← getattr self "_drift";
  ops ← getattr self "_operators";
  if is_none d then
    t ← py_tensordot signal_values ops; py_getitem t 0
  else
    t ← py_tensordot signal_values ops; g ← py_getitem t 0; py_add g d.

Definition evaluate_rhs (self : instance) (signal_values y : pyval) : result pyval :=
  s ← py_shape y;
  if decide (length s = 2) then
    ops ← getattr self "_operators";
    t ← py_tensordot signal_values ops;
    d ← BaseOperatorCollection.drift self;
    gen ← py_add t d;
    py_method_dot gen y
  else if decide (length s = 1) then
    let tmparr := PyObjArr [1] [y] in
    ops ← getattr self "_operators";
    prods ← objarr_mul ops tmparr;
    t ← py_dot signal_values prods;
    d ← BaseOperatorCollection.drift self;
    dy ← py_method_dot d y;
    py_add t dy
  else Ok PyNone.

End SparseOperatorCollection.

Module DenseLindbladCollection.

Definition num_operators (self : instance) : result pyval :=
  h ← getattr self "_hamiltonian_operators";
  sh ← py_shape h;
  k ← tuple_index sh (-3);
  l ← getattr self "_dissipator_operators";
  sl ← py_shape l;
  m ← tuple_index sl (-3);
  Ok (PyTuple [PyInt (Z.of_nat k); PyInt (Z.of_nat m)]).

Definition __init__ (self : instance)
    (hamiltonian_operators drift dissipator_operators : pyval) : result instance :=
  let self := setattr self "_hamiltonian_operators" hamiltonian_operators in
  let self := setattr self "_dissipator_operators" dissipator_operators in
  self ← (if negb (is_none dissipator_operators) then
            t ← py_transpose_021 dissipator_operators;
            c ← py_conjugate t;
            let self := setattr self "_dissipator_operators_conj" c in
            lc ← getattr self "_dissipator_operators_conj";
            l ← getattr self "_dissipator_operators";
            p ← py_matmul lc l;
            Ok (setattr self "_dissipator_products" p)
          else Ok self);
  BaseOperatorCollection.set_drift self drift.

Definition evaluate_generator (self : instance) (signal_values : pyval) : result pyval :=
  Raise ValueError.

Definition evaluate_hamiltonian (self : instance) (signal_values : pyval) : result pyval :=
  h ← getattr self "_hamiltonian_operators";
  t ← py_tensordot signal_values h;
  d ← BaseOperatorCollection.drift self;
  py_add t d.

(** [self.evaluate_hamiltonian] below is this class's: the subclass that
    overrides it overrides [evaluate_rhs] as well. *)
Definition evaluate_rhs (self : instance) (signal_values y : pyval) : result pyval :=
  s0 ← py_getitem signal_values 0;
  h ← evaluate_hamiltonian self s0;
  hamiltonian_matrix ← py_mul (PyNum minus_1j) h;
  l ← getattr self "_dissipator_operators";
  if negb (is_none l) then
    s1 ← py_getitem signal_values 1;
    p ← getattr self "_dissipator_products";
    t ← py_tensordot s1 p;
    dissipators_matrix ← py_mul (PyNum minus_half) t;
    a ← py_add hamiltonian_matrix dissipators_matrix;
    left_mult_contribution ← py_matmul a y;
    nh ← py_neg hamiltonian_matrix;
    b ← py_add nh dissipators_matrix;
    right_mult_contribution ← py_matmul y b;
    sy ← py_shape y;
    y ← (if decide (length sy = 3) then py_batch_axis y else Ok y);
    s1 ← py_getitem signal_values 1;
    l ← getattr self "_dissipator_operators";
    lc ← getattr self "_dissipator_operators_conj";
    ylc ← py_matmul y lc;
    lylc ← py_matmul l ylc;
    both_mult_contribution ← py_tensordot_m1_m3 s1 lylc;
    lr ← py_add left_mult_contribution right_mult_contribution;
    py_add lr both_mult_contribution
  else
    hy ← py_dot hamiltonian_matrix y;
    yh ← py_dot y hamiltonian_matrix;
    py_sub hy yh.

End DenseLindbladCollection.

Module DenseVectorizedLindbladCollection.

(** The names bound at module level: the imports, the classes and the
    two packing functions. *)
Definition module_globals : list string :=
  ["ABC"; "abstractmethod"; "Union"; "List"; "Optional"; "deepcopy"; "np";
   "csr_matrix"; "Array"; "to_array"; "vec_commutator"; "vec_dissipator";
   "BaseOperatorCollection"; "DenseOperatorCollection";
   "SparseOperatorCollection"; "DenseLindbladCollection";
   "DenseVectorizedLindbladCollection"; "SparseLindbladCollection";
   "package_density_matrices"; "unpackage_density_matrices"].

(** A name is looked up among the local variables, then at module level;
    a name bound in neither raises [NameError]. *)
Definition lookup_name (locals : gmap string pyval) (x : string) : result pyval :=
  match locals !! x with
  | Some v => Ok v
  | None => if bool_decide (x ∈ module_globals) then Ok (PyGlobal x) else Raise NameError
  end.

(** [vec_commutator] and [vec_dissipator] come from
    [qiskit_dynamics.type_utils], which is not among the sources: they are
    parameters of the constructor. *)
Definition __init__ (vec_commutator vec_dissipator : pyval → result pyval)
    (self : instance) (hamiltonian_operators drift dissipator_operators : pyval)
  : result instance :=
  let locals : gmap string pyval :=
    {[ "hamiltonian_operators" := hamiltonian_operators;
       "drift" := drift;
       "dissipator_operators" := dissipator_operators ]} in
  h ← to_array hamiltonian_operators;
  vc ← vec_commutator h;
  vec_ham_ops ← py_mul (PyNum minus_1j) vc;
  let locals := <["vec_ham_ops" := vec_ham_ops]> locals in
  let locals := <["total_ops" := PyNone]> locals in
  locals ← (if negb (is_none dissipator_operators) then
              l ← to_array dissipator_operators;
              vec_diss_ops ← vec_dissipator l;
              let locals := <["vec_diss_ops" := vec_diss_ops]> locals in
              total_ops ← py_append_0 vec_ham_ops vec_diss_ops;
              Ok (<["total_ops" := total_ops]> locals)
            else Ok (<["total_ops" := vec_ham_ops]> locals));
  total_ops ← lookup_name locals "total_ops";
  vec_drift ← lookup_name locals "vec_drift";
  DenseOperatorCollection.__init__ self total_ops vec_drift.

(** The signal values handed on to the dense collection. *)
Definition combined_signal (signal_values : pyval) : result pyval :=
  match signal_values with
  | PyList _ =>
      s1 ← py_getitem signal_values 1;
      if py_any_nonzero s1 then
        s0 ← py_getitem signal_values 0;
        s1 ← py_getitem signal_values 1;
        py_append_last s0 s1
      else py_getitem signal_values 0
  | _ => Ok signal_values
  end.

Definition evaluate_generator (self : instance) (signal_values : pyval) : result pyval :=
  signal_values ← combined_signal signal_values;
  DenseOperatorCollection.evaluate_generator self signal_values.

End DenseVectorizedLindbladCollection.

Module SparseLindbladCollection.

Definition __init__ (self : instance)
    (hamiltonian_operators drift dissipator_operators : pyval) (decimals : Z)
  : result instance :=
  s ← py_shape hamiltonian_operators;
  k ← tuple_index s 0;
  hs ← mapM (λ i, x ← py_getitem hamiltonian_operators i;
                  r ← py_round x decimals;
                  csr_matrix r) (seq 0 k);
  let self := setattr self "_hamiltonian_operators" (PyObjArr [k] hs) in
  d ← py_round drift decimals;
  d ← csr_matrix d;
  self ← BaseOperatorCollection.set_drift self d;
  if negb (is_none dissipator_operators) then
    s ← py_shape dissipator_operators;
    m ← tuple_index s 0;
    ls ← mapM (λ i, x ← py_getitem dissipator_operators i;
                    r ← py_round x decimals;
                    csr_matrix r) (seq 0 m);
    lcs ← mapM (λ l, c ← py_conjugate l; py_csr_transpose c) ls;
    let self := setattr self "_dissipator_operators" (PyObjArr [m] ls) in
    let self := setattr self "_dissipator_operators_conj" (PyObjArr [m] lcs) in
    lc ← getattr self "_dissipator_operators_conj";
    l ← getattr self "_dissipator_operators";
    p ← objarr_mul lc l;
    Ok (setattr self "_dissipator_products" p)
  else Ok self.

End SparseLindbladCollection.

(** ** Method resolution

    [DenseVectorizedLindbladCollection] derives from
    [DenseOperatorCollection] and [SparseLindbladCollection] from
    [DenseLindbladCollection]; a method a class does not define is the one
    of its base. *)

Definition num_operators (self : instance) : result pyval :=
  match cls self with
  | DenseOperatorCollection | DenseVectorizedLindbladCollection =>
      DenseOperatorCollection.num_operators self
  | SparseOperatorCollection => SparseOperatorCollection.num_operators self
  | DenseLindbladCollection | SparseLindbladCollection =>
      DenseLindbladCollection.num_operators self
  end.

Definition evaluate_generator (self : instance) (signal_values : pyval) : result pyval :=
  match cls self with
  | DenseOperatorCollection => DenseOperatorCollection.evaluate_generator self signal_values
  | SparseOperatorCollection => SparseOperatorCollection.evaluate_generator self signal_values
  | DenseVectorizedLindbladCollection =>
      DenseVectorizedLindbladCollection.evaluate_generator self signal_values
  | DenseLindbladCollection | SparseLindbladCollection =>
      DenseLindbladCollection.evaluate_generator self signal_values
  end.

(** [DenseOperatorCollection.evaluate_rhs]: [self.evaluate_generator] is
    the method of the instance's own class. *)
Definition DenseOperatorCollection_evaluate_rhs
    (self : instance) (signal_values y : pyval) : result pyval :=
  g ← evaluate_generator self signal_values;
  py_dot g y.

Definition DenseVectorizedLindbladCollection_evaluate_rhs
    (self : instance) (signal_values y : pyval) : result pyval :=
  signal_values ← DenseVectorizedLindbladCollection.combined_signal signal_values;
  DenseOperatorCollection_evaluate_rhs self signal_values y.

Section Dispatch.

(** [SparseLindbladCollection.evaluate_rhs] is left to a parameter: none of
    the properties below runs it. *)
Variable SparseLindbladCollection_evaluate_rhs :
  instance → pyval → pyval → result pyval.

Definition evaluate_rhs (self : instance) (signal_values y : pyval) : result pyval :=
  match cls self with
  | DenseOperatorCollection => DenseOperatorCollection_evaluate_rhs self signal_values y
  | SparseOperatorCollection => SparseOperatorCollection.evaluate_rhs self signal_values y
  | DenseLindbladCollection => DenseLindbladCollection.evaluate_rhs self signal_values y
  | DenseVectorizedLindbladCollection =>
      DenseVectorizedLindbladCollection_evaluate_rhs self signal_values y
  | SparseLindbladCollection => SparseLindbladCollection_evaluate_rhs self signal_values y
  end.

(** [BaseOperatorCollection.__call__], with [y] defaulting to [None]. *)
Definition __call__ (self : instance) (signal_values y : pyval) : result pyval :=
  if is_none y then evaluate_generator self signal_values
  else evaluate_rhs self signal_values y.

End Dispatch.

(** ** numpy.vectorize with a signature

    [np.vectorize(f, signature="(in_core)->(out_core)")] for one argument
    and one result: [f] is called on each block of the core dimensions, in
    order, and the results are collected along the loop dimensions. The
    output array is created from the first result, so there must be one. *)

Fixpoint update_dim_sizes (names : list string) (dims : list nat)
    (sizes : gmap string nat) : option (gmap string nat) :=
  match names, dims with
  | [], [] => Some sizes
  | x :: names', d :: dims' =>
      match sizes !! x with
      | Some d' => if decide (d = d') then update_dim_sizes names' dims' sizes else None
      | None => update_dim_sizes names' dims' (<[x := d]> sizes)
      end
  | _, _ => None
  end.

Definition split_core (nc : nat) (s : list nat) : option (list nat * list nat) :=
  if decide (nc ≤ length s)
  then Some (take (length s - nc) s, drop (length s - nc) s)
  else None.

(** The blocks of shape [core] of an array, along its loop dimensions. *)
Definition core_blocks (loop core : list nat) (arg : pyval) : list pyval :=
  match arg with
  | PyArr a => map (λ d, PyArr (mk_nd core d)) (chunks (size core) (size loop) (data a))
  | PyObjArr _ items => map (PyObjArr core) (chunks (size core) (size loop) items)
  | _ => []
  end.

(** A result seen as an array: its shape and its entries, numbers or objects. *)
Definition result_entries (r : pyval) : list nat * (list C + list pyval) :=
  match r with
  | PyArr x => (shape x, inl (data x))
  | PyNum c => ([], inl [c])
  | PyObjArr shp items => (shp, inr items)
  | _ => ([], inr [r])
  end.

(** The entries of a later result, which must fit the slot of the output. *)
Definition numeric_entries (core : list nat) (r : pyval) : result (list C) :=
  match result_entries r with
  | (s, inl d) => if decide (s = core) then Ok d else Raise ValueError
  | _ => Raise ValueError
  end.

Definition object_entries (core : list nat) (r : pyval) : result (list pyval) :=
  match result_entries r with
  | (s, inr d) => if decide (s = core) then Ok d else Raise ValueError
  | _ => Raise ValueError
  end.

Definition np_vectorize (in_core out_core : list string)
    (f : pyval → result pyval) (arg : pyval) : result pyval :=
  match arg with
  | PyArr _ | PyObjArr _ _ =>
      s ← py_shape arg;
      match split_core (length in_core) s with
      | None => Raise ValueError
      | Some (loop, core) =>
          match update_dim_sizes in_core core ∅ with
          | None => Raise ValueError
          | Some sizes =>
              match core_blocks loop core arg with
              | [] => Raise ValueError
              | b0 :: blocks =>
                  r0 ← f b0;
                  let '(s0, e0) := result_entries r0 in
                  match update_dim_sizes out_core s0 sizes with
                  | None => Raise ValueError
                  | Some _ =>
                      match e0 with
                      | inl d0 =>
                          ds ← mapM (λ b, r ← f b; numeric_entries s0 r) blocks;
                          Ok (PyArr (mk_nd (loop ++ s0) (concat (d0 :: ds))))
                      | inr i0 =>
                          ds ← mapM (λ b, r ← f b; object_entries s0 r) blocks;
                          Ok (PyObjArr (loop ++ s0) (concat (i0 :: ds)))
                      end
                  end
              end
          end
      end
  | _ => Raise ValueError
  end.

(** The function [package_density_matrices] as first defined, on one
    matrix, and its vectorized redefinition with signature [(n,n)->(1)]. *)
Definition package_density_matrices_def (y : pyval) : result pyval :=
  let obj_arr := [PyNone] in
  Ok (PyObjArr [1] (<[0 := y]> obj_arr)).

Definition package_density_matrices : pyval → result pyval :=
  np_vectorize ["n"; "n"] ["1"] package_density_matrices_def.

(** [unpackage_density_matrices], likewise, with signature [(1)->(n,n)]. *)
Definition unpackage_density_matrices_def (y : pyval) : result pyval :=
  py_getitem y 0.

Definition unpackage_density_matrices : pyval → result pyval :=
  np_vectorize ["1"] ["n"; "n"] unpackage_density_matrices_def.

(** ** Arrays of objects in the sparse Lindblad collection *)

(** [expand] for the items of an array of objects. *)
Fixpoint expand_items (e : nat) (s t : list nat) (d : list pyval) : list pyval :=
  match s, t with
  | x :: s', y :: t' =>
      if decide (x = y)
      then concat (map (expand_items e s' t') (chunks (size s' * e) x d))
      else concat (replicate y (expand_items e s' t' d))
  | _, _ => d
  end.

(** [a * b] for numbers [a] (an array or a scalar) and an array of objects
    [b]: item by item, with broadcasting. *)
Definition np_multiply_obj (a b : pyval) : result pyval :=
  match (match a with
         | PyArr x => Some x
         | PyNum c => Some (mk_nd [] [c])
         | _ => None
         end), b with
  | Some x, PyObjArr sb items =>
      match broadcast_shapes (shape x) sb with
      | Some t =>
          let n := length (shape x) `max` length sb in
          PyObjArr t <$>
            mapM (λ p, py_mul (PyNum p.1) p.2)
                 (zip (expand 1 (pad_shape n (shape x)) t (data x))
                      (expand_items 1 (pad_shape n sb) t items))
      | None => Raise ValueError
      end
  | _, _ => Raise TypeError
  end.

(** The sum of objects with [+], left to right; the sum of no object is the
    integer [0]. *)
Definition obj_sum (items : list pyval) : result pyval :=
  match items with
  | [] => Ok (PyInt 0)
  | x :: rest => foldl (λ acc y, a ← acc; py_add a y) (Ok x) rest
  end.

(** [np.sum(v, axis=-1)] for an array of objects. *)
Definition np_sum_last (v : pyval) : result pyval :=
  match v with
  | PyObjArr shp items =>
      match last_axis shp with
      | Some ([], k) => obj_sum items
      | Some (ra, k) => PyObjArr ra <$> mapM obj_sum (chunks k (size ra) items)
      | None => Raise ValueError
      end
  | _ => Raise TypeError
  end.

(** [0 + d]: numbers, arrays and sparse matrices are unchanged, item by item
    in an array of objects. *)
Fixpoint zero_plus (d : pyval) : result pyval :=
  match d with
  | PyInt _ | PyNum _ | PyArr _ | PyCsr _ => Ok d
  | PyObjArr shp items =>
      PyObjArr shp <$>
        (fix go (l : list pyval) : result (list pyval) :=
           match l with
           | [] => Ok []
           | x :: l' => y ← zero_plus x; ys ← go l'; Ok (y :: ys)
           end) items
  | _ => Raise TypeError
  end.

(** [t + d] for the result [t] of a sum. *)
Definition py_add_sum (t d : pyval) : result pyval :=
  match t with
  | PyInt 0 => zero_plus d
  | _ => py_add t d
  end.

(** [SparseLindbladCollection.evaluate_hamiltonian] *)
Definition SparseLindbladCollection_evaluate_hamiltonian
    (self : instance) (signal_values : pyval) : result pyval :=
  h ← getattr self "_hamiltonian_operators";
  p ← np_multiply_obj signal_values h;
  t ← np_sum_last p;
  d ← BaseOperatorCollection.drift self;
  py_add_sum t d.

Section EvaluateRhs.

(** Of [SparseLindbladCollection.evaluate_rhs], the statements up to the
    test of [self._dissipator_operators] are embedded. What follows the
    reading of that attribute (the two branches and the unpacking) is a
    parameter, given the instance, the signal values, the Hamiltonian term,
    the packed state and the attribute read. *)
Variable contributions : instance → pyval → pyval → pyval → pyval → result pyval.

Definition SparseLindbladCollection_evaluate_rhs
    (self : instance) (signal_values y : pyval) : result pyval :=
  s0 ← py_getitem signal_values 0;
  h ← SparseLindbladCollection_evaluate_hamiltonian self s0;
  hamiltonian_matrix ← py_mul (PyNum minus_1j) h;
  y ← package_density_matrices y;
  l ← getattr self "_dissipator_operators";
  contributions self signal_values hamiltonian_matrix y l.

End EvaluateRhs.

(** ** Matrices entry by entry

    The mathematical objects the collections are compared with: a matrix is
    the list of its rows, and sums, products and adjoints are given by their
    entries. *)

Definition matrix : Type := list (list C).

Definition is_matrix (r c : nat) (A : matrix) : Prop :=
  length A = r ∧ Forall (λ row, length row = c) A.

Definition entry (A : matrix) (i j : nat) : C := nth j (nth i A []) C0.

Definition mk_matrix (r c : nat) (f : nat → nat → C) : matrix :=
  map (λ i, map (f i) (seq 0 c)) (seq 0 r).

(** [csum n f] is the sum of [f 0], ..., [f (n-1)]. *)
Definition csum (n : nat) (f : nat → C) : C := foldr Cadd C0 (map f (seq 0 n)).

Definition Mzero (r c : nat) : matrix := mk_matrix r c (λ _ _, C0).
Definition Madd (r c : nat) (A B : matrix) : matrix :=
  mk_matrix r c (λ i j, Cadd (entry A i j) (entry B i j)).
Definition Msub (r c : nat) (A B : matrix) : matrix :=
  mk_matrix r c (λ i j, Csub (entry A i j) (entry B i j)).
Definition Mscale (r c : nat) (x : C) (A : matrix) : matrix :=
  mk_matrix r c (λ i j, Cmul x (entry A i j)).
Definition Mmul (r k c : nat) (A B : matrix) : matrix :=
  mk_matrix r c (λ i j, csum k (λ l, Cmul (entry A i l) (entry B l j))).
Definition Madjoint (n : nat) (A : matrix) : matrix :=
  mk_matrix n n (λ i j, Cconj (entry A j i)).
Definition Mround (r c : nat) (decimals : Z) (A : matrix) : matrix :=
  mk_matrix r c (λ i j, round_C decimals (entry A i j)).

(** The sum of the [s_j · G_j]. *)
Definition weighted_sum (r c : nat) (s : list C) (Gs : list matrix) : matrix :=
  foldr (λ p acc, Madd r c (Mscale r c p.1 p.2) acc) (Mzero r c) (zip s Gs).

(** [G(s) = Σ_j s_j·G_j + G_d] *)
Definition generator (n : nat) (s : list C) (Gs : list matrix) (Gd : matrix) : matrix :=
  Madd n n (weighted_sum n n s Gs) Gd.

(** A matrix applied to a vector. *)
Definition Mvec (r k : nat) (A : matrix) (v : list C) : list C :=
  map (λ i, csum k (λ l, Cmul (entry A i l) (nth l v C0))) (seq 0 r).

Definition commutator (n : nat) (A B : matrix) : matrix :=
  Msub n n (Mmul n n n A B) (Mmul n n n B A).
Definition anticommutator (n : nat) (A B : matrix) : matrix :=
  Madd n n (Mmul n n n A B) (Mmul n n n B A).

(** [L ρ L† − ½ {L†L, ρ}] *)
Definition dissipator (n : nat) (L rho : matrix) : matrix :=
  let Ld := Madjoint n L in
  Msub n n (Mmul n n n (Mmul n n n L rho) Ld)
           (Mscale n n (Cq 1 2) (anticommutator n (Mmul n n n Ld L) rho)).

(** [−i[H,ρ] + Σ_j γ_j (L_j ρ L_j† − ½ {L_j†L_j, ρ})] *)
Definition lindblad_rhs (n : nat) (H : matrix) (gamma : list C) (Ls : list matrix)
    (rho : matrix) : matrix :=
  Madd n n (Mscale n n minus_1j (commutator n H rho))
           (weighted_sum n n gamma (map (λ L, dissipator n L rho) Ls)).

(** [−i[H,ρ]] *)
Definition unitary_rhs (n : nat) (H rho : matrix) : matrix :=
  Mscale n n minus_1j (commutator n H rho).

(** Arrays from vectors, matrices and lists of matrices. *)
Definition array1 (v : list C) : ndarray := mk_nd [length v] v.
Definition array2 (r c : nat) (A : matrix) : ndarray := mk_nd [r; c] (concat A).
Definition array3 (k r c : nat) (As : list matrix) : ndarray :=
  mk_nd [k; r; c] (concat (map (@concat C) As)).

(** Two scalars within [10^(-decimals)] of each other, part by part. *)
Definition tolerance (decimals : Z) : Qc :=
  if (0 <=? decimals)%Z then (/ pow10 decimals)%Qc else pow10 (- decimals).

Definition Cclose (decimals : Z) (a b : C) : Prop :=
  (Qcabs (re a - re b) <= tolerance decimals)%Qc ∧
  (Qcabs (im a - im b) <= tolerance decimals)%Qc.

(** An optional drift as a constructor argument, and the generator it gives. *)
Definition drift_arg (n : nat) (od : option matrix) : pyval :=
  match od with
  | Some Gd => PyArr (array2 n n Gd)
  | None => PyNone
  end.

Definition generator_opt (n : nat) (s : list C) (Gs : list matrix) (od : option matrix)
  : matrix :=
  match od with
  | Some Gd => generator n s Gs Gd
  | None => weighted_sum n n s Gs
  end.

Definition drift_ok (n : nat) (od : option matrix) : Prop :=
  match od with
  | Some Gd => is_matrix n n Gd
  | None => True
  end.

(** A vector as a matrix of one column. *)
Definition col (v : list C) : matrix := map (λ x, [x]) v.

(** The Python operator [g @ y] for a dense or sparse [g] and a dense [y]. *)
Definition py_at (g y : pyval) : result pyval :=
  match g, y with
  | PyArr a, PyArr b => PyArr <$> np_matmul a b
  | PyCsr m, PyArr b => PyArr <$> csr_dot m b
  | _, _ => Raise TypeError
  end.

Definition is_ok {A} (r : result A) : bool :=
  match r with Ok _ => true | Raise _ => false end.

Definition Mopp (r c : nat) (A : matrix) : matrix :=
  mk_matrix r c (λ i j, Copp (entry A i j)).

(** The sum of the [s_j · x_j] for scalars. *)
Definition wsumC (s xs : list C) : C := foldr Cadd C0 (zip_with Cmul s xs).

(** An array of shape [(b, m, r, c)] from [b] lists of [m] matrices. *)
Definition array4 (b m r c : nat) (Xss : list (list matrix)) : ndarray :=
  mk_nd [b; m; r; c] (concat (concat (map (map (@concat C)) Xss))).

(** The packing of a batch is well formed: [b] lists of [m] square matrices. *)
Definition stack_ok (m n : nat) (Xss : list (list matrix)) : Prop :=
  Forall (λ Xs, length Xs = m ∧ Forall (is_matrix n n) Xs) Xss.

(** Matrices of a two-level system, used in the examples. *)
Definition sigma_x : matrix := [[Cz 0; Cz 1]; [Cz 1; Cz 0]].
Definition sigma_z : matrix := [[Cz 1; Cz 0]; [Cz 0; Cz (-1)]].
Definition lowering : matrix := [[Cz 0; Cz 1]; [Cz 0; Cz 0]].
Definition zero2 : matrix := [[Cz 0; Cz 0]; [Cz 0; Cz 0]].
Definition ground : matrix := [[Cz 1; Cz 0]; [Cz 0; Cz 0]].
Definition tiny : matrix := [[Cq 4 100000000000]].

(** The trace, real scalars and Hermitian matrices. *)
Definition trace (n : nat) (A : matrix) : C := csum n (λ i, entry A i i).
Definition is_real (c : C) : Prop := Cconj c = c.
Definition is_hermitian (n : nat) (A : matrix) : Prop := Madjoint n A = A.

(** * Properties *)

Lemma Cring : ring_theory C0 C1 Cadd Cmul Csub Copp eq.
Proof.
  constructor; intros; repeat match goal with x : C |- _ => destruct x end;
    unfold Cadd, Cmul, Csub, Copp, C0, C1; simpl; f_equal; ring.
Qed.
Add Ring C_ring : Cring.

(** *** Blocks *)

Lemma chunks_length {A} sz cnt (l : list A) : length (chunks sz cnt l) = cnt.
Proof. revert l; induction cnt; intros; simpl; auto. Qed.

Lemma chunks_concat_app {A} sz (ls : list (list A)) rest :
  Forall (λ r, length r = sz) ls →
  chunks sz (length ls) (concat ls ++ rest) = ls.
Proof.
  induction 1 as [|r ls Hr _ IH]; simpl; [done|].
  rewrite <- app_assoc.
  rewrite take_app_length' by done. rewrite drop_app_length' by done.
  by rewrite IH.
Qed.

Lemma chunks_concat {A} sz (ls : list (list A)) :
  Forall (λ r, length r = sz) ls → chunks sz (length ls) (concat ls) = ls.
Proof. intros. rewrite <- (app_nil_r (concat ls)). by apply chunks_concat_app. Qed.

Lemma chunks_Forall {A} sz cnt (l : list A) :
  length l = cnt * sz → Forall (λ r, length r = sz) (chunks sz cnt l).
Proof.
  revert l; induction cnt; intros l Hl; simpl; constructor.
  - rewrite length_take. simpl in Hl. lia.
  - apply IHcnt. rewrite length_drop. simpl in Hl. lia.
Qed.

Lemma concat_chunks {A} sz cnt (l : list A) :
  length l = cnt * sz → concat (chunks sz cnt l) = l.
Proof.
  revert l; induction cnt; intros l Hl; simpl.
  - simpl in Hl. by destruct l.
  - rewrite IHcnt; [apply take_drop|]. rewrite length_drop. simpl in Hl. lia.
Qed.

Lemma length_concat_const {A} sz (ls : list (list A)) :
  Forall (λ r, length r = sz) ls → length (concat ls) = length ls * sz.
Proof. induction 1; simpl; [done|]. rewrite length_app. lia. Qed.

Lemma chunks_one {A} sz (l : list A) : length l = sz → chunks sz 1 l = [l].
Proof. intros. simpl. rewrite take_ge by lia. done. Qed.

(** *** Entries *)

Lemma map_seq_nth {A} (l : list A) d : map (λ i, nth i l d) (seq 0 (length l)) = l.
Proof.
  induction l as [|x l IH]; simpl; [done|].
  f_equal. rewrite <- seq_shift, map_map. simpl. done.
Qed.

Lemma map_seq_ext {A} (f g : nat → A) a n :
  (∀ i, a ≤ i < a + n → f i = g i) → map f (seq a n) = map g (seq a n).
Proof.
  revert a; induction n; intros a H; simpl; [done|].
  f_equal; [apply H; lia|]. apply IHn. intros; apply H; lia.
Qed.

Lemma mk_matrix_ext r c f g :
  (∀ i j, i < r → j < c → f i j = g i j) → mk_matrix r c f = mk_matrix r c g.
Proof.
  intros H. unfold mk_matrix. apply map_seq_ext. intros i Hi.
  apply map_seq_ext. intros j Hj. apply H; lia.
Qed.

Lemma nth_map_seq {A} (f : nat → A) n i d : i < n → nth i (map f (seq 0 n)) d = f i.
Proof.
  intros. rewrite (nth_indep _ d (f 0)) by (rewrite length_map, length_seq; lia).
  rewrite (map_nth f (seq 0 n) 0 i). by rewrite seq_nth.
Qed.

Lemma entry_mk_matrix r c f i j : i < r → j < c → entry (mk_matrix r c f) i j = f i j.
Proof.
  intros. unfold entry, mk_matrix.
  rewrite (nth_map_seq (λ i, map (f i) (seq 0 c))) by done.
  by rewrite nth_map_seq.
Qed.

Lemma is_matrix_mk r c f : is_matrix r c (mk_matrix r c f).
Proof.
  split; unfold mk_matrix.
  - by rewrite length_map, length_seq.
  - apply Forall_map, Forall_forall. intros. simpl. by rewrite length_map, length_seq.
Qed.

Lemma mk_matrix_entry r c A : is_matrix r c A → mk_matrix r c (entry A) = A.
Proof.
  intros [Hr Hc]. unfold mk_matrix, entry. subst r.
  rewrite <- (map_seq_nth A []) at 2.
  apply map_seq_ext. intros i Hi. simpl.
  assert (length (nth i A []) = c) as <-.
  { rewrite Forall_forall in Hc. apply Hc. apply list_elem_of_In, nth_In. lia. }
  apply map_seq_nth.
Qed.

Lemma csum_ext n f g : (∀ i, i < n → f i = g i) → csum n f = csum n g.
Proof. intros H. unfold csum. f_equal. apply map_seq_ext. intros; apply H; lia. Qed.

Lemma csum_S n f : csum (S n) f = Cadd (f 0) (csum n (λ i, f (S i))).
Proof. unfold csum. simpl. by rewrite <- seq_shift, map_map. Qed.

Lemma csum_0 f : csum 0 f = C0.
Proof. done. Qed.

Lemma csum_zero n : csum n (λ _, C0) = C0.
Proof. induction n; [done|]. rewrite csum_S, IHn. ring. Qed.

Lemma csum_add n f g : csum n (λ i, Cadd (f i) (g i)) = Cadd (csum n f) (csum n g).
Proof.
  revert f g; induction n; intros; [rewrite !csum_0; ring|].
  rewrite !csum_S, IHn. ring.
Qed.

Lemma csum_scale n x f : csum n (λ i, Cmul x (f i)) = Cmul x (csum n f).
Proof.
  revert f; induction n; intros; [rewrite !csum_0; ring|].
  rewrite !csum_S, IHn. ring.
Qed.

Lemma csum_swap n m (f : nat → nat → C) :
  csum n (λ i, csum m (λ j, f i j)) = csum m (λ j, csum n (λ i, f i j)).
Proof.
  revert f; induction n; intros.
  - rewrite csum_0. symmetry. rewrite (csum_ext _ _ (λ _, C0)); [apply csum_zero|done].
  - rewrite csum_S, IHn.
    rewrite (csum_ext m (λ j, csum (S n) _) (λ j, Cadd (f 0 j) (csum n (λ i, f (S i) j)))).
    + by rewrite csum_add.
    + intros. by rewrite csum_S.
Qed.

(** *** Vectors *)

Lemma replicate_map_seq {A} (x : A) n : replicate n x = map (λ _, x) (seq 0 n).
Proof.
  induction n; simpl; [done|]. f_equal. by rewrite <- seq_shift, map_map.
Qed.

Lemma zip_with_map_same {A B D E} (f : B → D → E) (a : A → B) (b : A → D) l :
  zip_with f (map a l) (map b l) = map (λ i, f (a i) (b i)) l.
Proof. induction l; simpl; [done|]. by f_equal. Qed.

Lemma zip_with_concat_map {A} (f : C → C → C) (F G : A → list C) l :
  (∀ i, length (F i) = length (G i)) →
  zip_with f (concat (map F l)) (concat (map G l)) = concat (map (λ i, zip_with f (F i) (G i)) l).
Proof.
  intros H. induction l as [|x l IH]; simpl; [done|].
  rewrite zip_with_app by apply H. by rewrite IH.
Qed.

Lemma zip_with_concat_mk (f : C → C → C) r c a b :
  zip_with f (concat (mk_matrix r c a)) (concat (mk_matrix r c b)) =
  concat (mk_matrix r c (λ i j, f (a i j) (b i j))).
Proof.
  unfold mk_matrix. rewrite zip_with_concat_map.
  - f_equal. apply map_ext. intros i. apply zip_with_map_same.
  - intros. by rewrite !length_map.
Qed.

Lemma map_concat_mk (g : C → C) r c a :
  map g (concat (mk_matrix r c a)) = concat (mk_matrix r c (λ i j, g (a i j))).
Proof.
  unfold mk_matrix. rewrite concat_map, map_map. f_equal.
  apply map_ext. intros. by rewrite map_map.
Qed.

Lemma concat_Madd r c A B :
  is_matrix r c A → is_matrix r c B →
  concat (Madd r c A B) = vadd (concat A) (concat B).
Proof.
  intros HA HB. unfold vadd.
  rewrite <- (mk_matrix_entry r c A HA) at 2. rewrite <- (mk_matrix_entry r c B HB) at 2.
  by rewrite zip_with_concat_mk.
Qed.

Lemma concat_Msub r c A B :
  is_matrix r c A → is_matrix r c B →
  concat (Msub r c A B) = zip_with Csub (concat A) (concat B).
Proof.
  intros HA HB.
  rewrite <- (mk_matrix_entry r c A HA) at 2. rewrite <- (mk_matrix_entry r c B HB) at 2.
  by rewrite zip_with_concat_mk.
Qed.

Lemma concat_Mscale r c x A :
  is_matrix r c A → concat (Mscale r c x A) = vscale x (concat A).
Proof.
  intros HA. unfold vscale.
  rewrite <- (mk_matrix_entry r c A HA) at 2. by rewrite map_concat_mk.
Qed.

Lemma concat_Mzero r c : concat (Mzero r c) = vzero (r * c).
Proof.
  unfold Mzero, mk_matrix, vzero.
  induction r; simpl; [done|].
  rewrite <- seq_shift, map_map. simpl in *. rewrite IHr.
  rewrite <- replicate_map_seq. by rewrite replicate_add.
Qed.

Lemma length_concat_matrix r c A : is_matrix r c A → length (concat A) = r * c.
Proof. intros [<- H]. by apply length_concat_const. Qed.

Lemma is_matrix_weighted_sum r c s Gs : is_matrix r c (weighted_sum r c s Gs).
Proof.
  unfold weighted_sum. destruct (zip s Gs); simpl; apply is_matrix_mk.
Qed.

Lemma lincomb_cons n x cs v vs :
  lincomb n (x :: cs) (v :: vs) = vadd (vscale x v) (lincomb n cs vs).
Proof. done. Qed.

Lemma weighted_sum_cons r c x s G Gs :
  weighted_sum r c (x :: s) (G :: Gs) = Madd r c (Mscale r c x G) (weighted_sum r c s Gs).
Proof. done. Qed.

Lemma lincomb_nil_l n vs : lincomb n [] vs = vzero n.
Proof. done. Qed.
Lemma lincomb_nil_r n cs : lincomb n cs [] = vzero n.
Proof. by destruct cs. Qed.
Lemma weighted_sum_nil_l r c Gs : weighted_sum r c [] Gs = Mzero r c.
Proof. done. Qed.
Lemma weighted_sum_nil_r r c s : weighted_sum r c s [] = Mzero r c.
Proof. by destruct s. Qed.

Lemma lincomb_weighted_sum r c s Gs :
  Forall (is_matrix r c) Gs →
  lincomb (r * c) s (map (@concat C) Gs) = concat (weighted_sum r c s Gs).
Proof.
  intros H. revert s. induction H as [|G Gs HG _ IH]; intros s.
  - change (map _ []) with (@nil (list C)).
    by rewrite lincomb_nil_r, weighted_sum_nil_r, concat_Mzero.
  - destruct s as [|x s]; [by rewrite lincomb_nil_l, weighted_sum_nil_l, concat_Mzero|].
    simpl map. rewrite lincomb_cons, weighted_sum_cons, IH.
    rewrite concat_Madd; [|apply is_matrix_mk|apply is_matrix_weighted_sum].
    by rewrite concat_Mscale.
Qed.

Lemma lincomb_entries c k cs vs :
  length cs = k → length vs = k → Forall (λ v, length v = c) vs →
  lincomb c cs vs =
  map (λ j, csum k (λ l, Cmul (nth l cs C0) (nth j (nth l vs []) C0))) (seq 0 c).
Proof.
  revert cs vs. induction k; intros cs vs Hc Hv Hall.
  - destruct cs, vs; try done. unfold lincomb. simpl. apply replicate_map_seq.
  - destruct cs as [|x cs], vs as [|v vs]; try done.
    inversion Hall; subst. rewrite lincomb_cons.
    rewrite (IHk cs vs) by (simpl in *; auto; lia).
    unfold vadd, vscale.
    rewrite <- (map_seq_nth v C0) at 1. rewrite map_map.
    rewrite zip_with_map_same. apply map_ext. intros j.
    by rewrite csum_S.
Qed.

Lemma mm_spec r k c A B :
  is_matrix r k A → is_matrix k c B →
  mm r k c (concat A) (concat B) = concat (Mmul r k c A B).
Proof.
  intros [HrA HcA] [HrB HcB]. subst r k. unfold mm.
  rewrite !chunks_concat by done.
  f_equal. unfold Mmul, mk_matrix.
  rewrite <- (map_seq_nth A []) at 1. rewrite map_map.
  apply map_seq_ext. intros i Hi. simpl.
  apply lincomb_entries; [|done|done].
  rewrite Forall_forall in HcA. apply HcA, list_elem_of_In, nth_In. lia.
Qed.

(** *** Broadcasting *)

Lemma broadcast_dim_same x : broadcast_dim x x = Some x.
Proof. unfold broadcast_dim. by rewrite decide_True. Qed.

Lemma broadcast_dim_1_l x : broadcast_dim 1 x = Some x.
Proof. unfold broadcast_dim. destruct (decide (1 = x)); [by subst|]. by rewrite decide_True. Qed.

Lemma broadcast_dim_1_r x : broadcast_dim x 1 = Some x.
Proof.
  unfold broadcast_dim. destruct (decide (x = 1)); [done|]. by rewrite decide_True.
Qed.

Lemma broadcast_dims_same s : broadcast_dims s s = Some s.
Proof. induction s; simpl; [done|]. by rewrite broadcast_dim_same, IHs. Qed.

Lemma pad_shape_same s : pad_shape (length s `max` length s) s = s.
Proof. unfold pad_shape. rewrite Nat.max_id, Nat.sub_diag. done. Qed.

Lemma broadcast_shapes_same s : broadcast_shapes s s = Some s.
Proof. unfold broadcast_shapes. rewrite pad_shape_same. apply broadcast_dims_same. Qed.

Lemma map_id_Forall {A} (P : A → Prop) (f : A → A) l :
  (∀ x, P x → f x = x) → Forall P l → map f l = l.
Proof. intros Hf. induction 1; simpl; [done|]. by rewrite Hf, IHForall. Qed.

Lemma expand_same e s d : length d = size s * e → expand e s s d = d.
Proof.
  revert d. induction s as [|x s IH]; intros d Hd; simpl; [done|].
  rewrite decide_True by done.
  simpl in Hd.
  rewrite (map_id_Forall (λ r, length r = size s * e)); [| |apply chunks_Forall; lia].
  - apply concat_chunks. lia.
  - intros r Hr. by apply IH.
Qed.

Lemma expand_lead_1 e b s d :
  length d = size s * e → expand e (1 :: s) (b :: s) d = concat (replicate b d).
Proof.
  intros Hd. cbn [expand]. destruct (decide (1 = b)) as [<-|_].
  - rewrite chunks_one by done. cbn [map replicate]. by rewrite expand_same.
  - by rewrite expand_same.
Qed.

Lemma expand_cons_same e x s t d :
  expand e (x :: s) (x :: t) d = concat (map (expand e s t) (chunks (size s * e) x d)).
Proof. simpl. by rewrite decide_True. Qed.

Lemma expand_inner_1 e b m d :
  length d = b * e →
  expand e [b; 1] [b; m] d = concat (map (λ y, concat (replicate m y)) (chunks e b d)).
Proof.
  intros Hd. rewrite expand_cons_same.
  replace (size [1] * e) with e by (simpl; lia).
  f_equal. apply Forall_fmap_ext_1.
  eapply Forall_impl; [apply chunks_Forall; lia|].
  intros y Hy. cbn beta in *. apply (expand_lead_1 e m []). simpl. lia.
Qed.

(** *** Element-wise operations on arrays of one shape *)

Lemma np_binop_same f s da db :
  length da = size s → length db = size s →
  np_binop f (mk_nd s da) (mk_nd s db) = Ok (mk_nd s (zip_with f da db)).
Proof.
  intros Ha Hb. unfold np_binop. cbn [shape data].
  rewrite broadcast_shapes_same, pad_shape_same.
  rewrite !expand_same by lia. done.
Qed.

Lemma size_2 r c : size [r; c] = r * c.
Proof. simpl. lia. Qed.
Lemma size_3 k r c : size [k; r; c] = k * (r * c).
Proof. simpl. lia. Qed.

Lemma np_add_array2 r c A B :
  is_matrix r c A → is_matrix r c B →
  np_add (array2 r c A) (array2 r c B) = Ok (array2 r c (Madd r c A B)).
Proof.
  intros HA HB. unfold np_add, array2.
  rewrite np_binop_same by (rewrite size_2; by apply length_concat_matrix).
  by rewrite concat_Madd.
Qed.

Lemma np_subtract_array2 r c A B :
  is_matrix r c A → is_matrix r c B →
  np_subtract (array2 r c A) (array2 r c B) = Ok (array2 r c (Msub r c A B)).
Proof.
  intros HA HB. unfold np_subtract, array2.
  rewrite np_binop_same by (rewrite size_2; by apply length_concat_matrix).
  by rewrite concat_Msub.
Qed.

Lemma np_scale_array2 r c x A :
  is_matrix r c A → np_scale x (array2 r c A) = array2 r c (Mscale r c x A).
Proof. intros. unfold np_scale, array2. cbn [shape data]. by rewrite concat_Mscale. Qed.

(** *** Contraction with a vector of coefficients *)

Lemma Forall_is_matrix_length r c (Gs : list matrix) :
  Forall (is_matrix r c) Gs → Forall (λ v, length v = r * c) (map (@concat C) Gs).
Proof.
  intros H. apply Forall_map. eapply Forall_impl; [exact H|].
  intros G HG. by apply length_concat_matrix.
Qed.

Lemma chunks_stack r c (Gs : list matrix) k :
  length Gs = k → Forall (is_matrix r c) Gs →
  chunks (r * c) k (concat (map (@concat C) Gs)) = map (@concat C) Gs.
Proof.
  intros <- H. rewrite <- (length_map (@concat C)).
  apply chunks_concat. by apply Forall_is_matrix_length.
Qed.

Lemma np_tensordot_array3 k r c s Gs :
  length s = k → length Gs = k → Forall (is_matrix r c) Gs →
  np_tensordot (array1 s) (array3 k r c Gs) = Ok (array2 r c (weighted_sum r c s Gs)).
Proof.
  intros Hs HG Hall. unfold np_tensordot, array1, array3, array2. cbn [shape data].
  unfold last_axis. cbn [reverse rev_append].
  rewrite decide_True by done. cbn [app].
  f_equal. f_equal. unfold mm.
  rewrite size_2. change (size []) with 1.
  rewrite chunks_one by done. cbn [map concat]. rewrite app_nil_r.
  rewrite chunks_stack by (done || congruence).
  by apply lincomb_weighted_sum.
Qed.

Lemma np_tensordot_mismatch k r c s Gs :
  length s ≠ k →
  np_tensordot (array1 s) (array3 k r c Gs) = Raise ValueError.
Proof.
  intros Hs. unfold np_tensordot, array1, array3. cbn [shape data].
  unfold last_axis. cbn [reverse rev_append].
  by rewrite decide_False.
Qed.


(** *** Attributes and the monad *)

Lemma bind_Ok {A B} (a : A) (f : A → result B) : (Ok a ≫= f) = f a.
Proof. done. Qed.
Lemma bind_Raise {A B} e (f : A → result B) : (Raise e ≫= f) = Raise e.
Proof. done. Qed.
Lemma fmap_Ok {A B} (a : A) (f : A → B) : f <$> Ok a = Ok (f a).
Proof. done. Qed.
Lemma fmap_Raise {A B} e (f : A → B) : f <$> (Raise e : result A) = Raise e.
Proof. done. Qed.

Lemma getattr_setattr_eq self name v : getattr (setattr self name v) name = Ok v.
Proof. unfold getattr, setattr. simpl. by rewrite lookup_insert_eq. Qed.

Lemma getattr_setattr_ne self name name' v :
  name ≠ name' → getattr (setattr self name v) name' = getattr self name'.
Proof. intros. unfold getattr, setattr. simpl. by rewrite lookup_insert_ne. Qed.

Lemma cls_setattr self name v : cls (setattr self name v) = cls self.
Proof. done. Qed.

Ltac py_step :=
  first [ rewrite bind_Ok | rewrite bind_Raise | rewrite fmap_Ok | rewrite fmap_Raise
        | rewrite getattr_setattr_eq
        | rewrite getattr_setattr_ne by done ].
Ltac py_steps := repeat py_step.

Lemma dense_generator n k s Gs Gd :
  length s = k → length Gs = k → Forall (is_matrix n n) Gs → is_matrix n n Gd →
  (self ← DenseOperatorCollection.__init__ (new DenseOperatorCollection)
            (PyArr (array3 k n n Gs)) (PyArr (array2 n n Gd));
   evaluate_generator self (PyArr (array1 s)))
  = Ok (PyArr (array2 n n (generator n s Gs Gd))).
Proof.
  intros Hs HG Hall Hd.
  unfold DenseOperatorCollection.__init__, to_array, BaseOperatorCollection.set_drift.
  py_steps. unfold evaluate_generator. rewrite !cls_setattr. cbn [cls new].
  unfold DenseOperatorCollection.evaluate_generator. py_steps.
  cbn [is_none]. unfold py_tensordot.
  rewrite np_tensordot_array3 by done. py_steps.
  unfold py_add.
  rewrite np_add_array2 by (done || apply is_matrix_weighted_sum).
  done.
Qed.

Lemma dense_generator_no_drift n k s Gs :
  length s = k → length Gs = k → Forall (is_matrix n n) Gs →
  (self ← DenseOperatorCollection.__init__ (new DenseOperatorCollection)
            (PyArr (array3 k n n Gs)) PyNone;
   evaluate_generator self (PyArr (array1 s)))
  = Ok (PyArr (array2 n n (weighted_sum n n s Gs))).
Proof.
  intros Hs HG Hall.
  unfold DenseOperatorCollection.__init__, to_array, BaseOperatorCollection.set_drift.
  py_steps. unfold evaluate_generator. rewrite !cls_setattr. cbn [cls new].
  unfold DenseOperatorCollection.evaluate_generator. py_steps.
  cbn [is_none]. unfold py_tensordot.
  rewrite np_tensordot_array3 by done. done.
Qed.

(** *** Matrix algebra, entry by entry *)

Ltac mat_ext :=
  unfold generator, commutator, anticommutator, Madd, Msub, Mscale, Mzero, Mmul, Madjoint, Mround, Mopp;
  apply mk_matrix_ext; intros ?i ?j ?Hi ?Hj;
  repeat (rewrite entry_mk_matrix by done).

Lemma Madd_assoc r c A B D :
  Madd r c (Madd r c A B) D = Madd r c A (Madd r c B D).
Proof. mat_ext. ring. Qed.

(** *** Sparse collections *)

Lemma np_round_array2 r c d A :
  is_matrix r c A → np_round (array2 r c A) d = array2 r c (Mround r c d A).
Proof.
  intros HA. unfold np_round, array2. cbn [shape data]. f_equal.
  rewrite <- (mk_matrix_entry r c A HA) at 1. by rewrite map_concat_mk.
Qed.

Lemma csr_add_array2 r c A B :
  is_matrix r c A → is_matrix r c B →
  csr_add (array2 r c A) (array2 r c B) = Ok (array2 r c (Madd r c A B)).
Proof.
  intros HA HB. unfold csr_add, array2. cbn [shape data].
  rewrite decide_True by done. by rewrite concat_Madd.
Qed.

Lemma py_mul_num_csr x m : py_mul (PyNum x) (PyCsr m) = Ok (PyCsr (np_scale x m)).
Proof. done. Qed.
Lemma py_mul_num_arr x a : py_mul (PyNum x) (PyArr a) = Ok (PyArr (np_scale x a)).
Proof. done. Qed.
Lemma py_add_csr a b : py_add (PyCsr a) (PyCsr b) = PyCsr <$> csr_add a b.
Proof. done. Qed.
Lemma py_add_arr a b : py_add (PyArr a) (PyArr b) = PyArr <$> np_add a b.
Proof. done. Qed.
Lemma py_sub_arr a b : py_sub (PyArr a) (PyArr b) = PyArr <$> np_subtract a b.
Proof. done. Qed.

Lemma obj_dot_fold r c s Gs Acc :
  is_matrix r c Acc → Forall (is_matrix r c) Gs →
  foldl (λ acc p, a ← acc; t ← py_mul (PyNum p.1) p.2; py_add a t)
        (Ok (PyCsr (array2 r c Acc)))
        (zip s (map (λ G, PyCsr (array2 r c G)) Gs))
  = Ok (PyCsr (array2 r c (Madd r c Acc (weighted_sum r c s Gs)))).
Proof.
  intros HA Hall. revert s Acc HA.
  induction Hall as [|G Gs HG _ IH]; intros s Acc HA.
  - rewrite weighted_sum_nil_r. destruct s; simpl.
    + do 3 f_equal. rewrite <- (mk_matrix_entry r c Acc HA) at 1.
      mat_ext. ring.
    + do 3 f_equal. rewrite <- (mk_matrix_entry r c Acc HA) at 1.
      mat_ext. ring.
  - destruct s as [|x s].
    + simpl. do 3 f_equal. rewrite <- (mk_matrix_entry r c Acc HA) at 1.
      rewrite weighted_sum_nil_l. mat_ext. ring.
    + cbn [map zip zip_with foldl fst snd]. py_steps.
      rewrite py_mul_num_csr. py_steps. rewrite py_add_csr.
      rewrite np_scale_array2 by done.
      rewrite csr_add_array2 by (done || apply is_matrix_mk). py_steps.
      rewrite IH by apply is_matrix_mk.
      rewrite weighted_sum_cons. by rewrite Madd_assoc.
Qed.

Lemma obj_dot_csr r c s Gs :
  0 < length s → 0 < length Gs → Forall (is_matrix r c) Gs →
  obj_dot s (map (λ G, PyCsr (array2 r c G)) Gs)
  = Ok (PyCsr (array2 r c (weighted_sum r c s Gs))).
Proof.
  intros Hs HGs Hall.
  destruct s as [|x s]; [simpl in Hs; lia|].
  destruct Gs as [|G Gs]; [simpl in HGs; lia|].
  inversion Hall as [|? ? HG Hall']; subst.
  unfold obj_dot. cbn [map zip zip_with].
  rewrite py_mul_num_csr. py_steps.
  rewrite np_scale_array2 by done.
  rewrite obj_dot_fold by (done || apply is_matrix_mk).
  by rewrite weighted_sum_cons.
Qed.

Lemma mapM_seq_Ok {B} (f : nat → result B) (g : nat → B) a n :
  (∀ i, a ≤ i < a + n → f i = Ok (g i)) → mapM f (seq a n) = Ok (map g (seq a n)).
Proof.
  revert a. induction n; intros a H; simpl; [done|].
  rewrite H by lia. py_steps. rewrite IHn by (intros; apply H; lia). done.
Qed.

Lemma mapM_map_Ok {A B} (f : A → result B) (g : A → B) l :
  (∀ x, x ∈ l → f x = Ok (g x)) → mapM f l = Ok (map g l).
Proof.
  induction l as [|x l IH]; intros H; simpl; [done|].
  rewrite H by (left). py_steps. rewrite IH by (intros; apply H; by right). done.
Qed.

Lemma py_getitem_array3 k r c Gs i :
  length Gs = k → Forall (is_matrix r c) Gs → i < k →
  py_getitem (PyArr (array3 k r c Gs)) i = Ok (PyArr (array2 r c (nth i Gs []))).
Proof.
  intros HG Hall Hi. unfold py_getitem, array3, array2. cbn [shape data].
  rewrite decide_True by done. rewrite size_2, chunks_stack by done.
  do 3 f_equal. change [] with (@concat C []) at 1. apply map_nth.
Qed.

Lemma is_matrix_nth r c (Gs : list matrix) i :
  Forall (is_matrix r c) Gs → i < length Gs → is_matrix r c (nth i Gs []).
Proof.
  intros Hall Hi. rewrite Forall_forall in Hall. apply Hall, list_elem_of_In, nth_In. done.
Qed.

Lemma py_round_arr a d : py_round (PyArr a) d = Ok (PyArr (np_round a d)).
Proof. done. Qed.
Lemma csr_matrix_array2 r c A : csr_matrix (PyArr (array2 r c A)) = Ok (PyCsr (array2 r c A)).
Proof. done. Qed.

Lemma sparse_items k r c d Gs :
  length Gs = k → Forall (is_matrix r c) Gs →
  mapM (λ i, x ← py_getitem (PyArr (array3 k r c Gs)) i;
             y ← py_round x d;
             csr_matrix y) (seq 0 k)
  = Ok (map (λ G, PyCsr (array2 r c G)) (map (Mround r c d) Gs)).
Proof.
  intros HG Hall.
  rewrite (mapM_seq_Ok _ (λ i, PyCsr (array2 r c (Mround r c d (nth i Gs []))))).
  - f_equal. rewrite map_map.
    transitivity (map (λ G, PyCsr (array2 r c (Mround r c d G)))
                      (map (λ i, nth i Gs []) (seq 0 (length Gs)))).
    + by rewrite map_map, HG.
    + by rewrite map_seq_nth.
  - intros i Hi. rewrite py_getitem_array3 by (done || lia). py_steps.
    rewrite py_round_arr. py_steps.
    rewrite np_round_array2 by (apply is_matrix_nth; [done|lia]).
    done.
Qed.

Lemma Forall_is_matrix_Mround r c d (Gs : list matrix) :
  Forall (is_matrix r c) (map (Mround r c d) Gs).
Proof. apply Forall_map, Forall_forall. intros. apply is_matrix_mk. Qed.

Lemma sparse_init n k d Gs Gd :
  length Gs = k → Forall (is_matrix n n) Gs → is_matrix n n Gd →
  SparseOperatorCollection.__init__ (new SparseOperatorCollection)
    (PyArr (array3 k n n Gs)) (PyArr (array2 n n Gd)) d
  = Ok (setattr (setattr (new SparseOperatorCollection) "_drift"
                   (PyCsr (array2 n n (Mround n n d Gd))))
          "_operators" (PyObjArr [k] (map (λ G, PyCsr (array2 n n G)) (map (Mround n n d) Gs)))).
Proof.
  intros HG Hall Hd. unfold SparseOperatorCollection.__init__.
  rewrite py_round_arr. py_steps. rewrite np_round_array2 by done.
  unfold SparseOperatorCollection.set_drift. rewrite csr_matrix_array2. py_steps.
  cbn [py_shape array3 shape]. py_steps.
  change (tuple_index [k; n; n] 0) with (Ok (A:=nat) k). py_steps.
  change (mk_nd [k; n; n] (concat (map (@concat C) Gs))) with (array3 k n n Gs).
  rewrite sparse_items by done. py_steps. done.
Qed.

Lemma sparse_generator n k d s Gs Gd :
  0 < k → length s = k → length Gs = k →
  Forall (is_matrix n n) Gs → is_matrix n n Gd →
  (self ← SparseOperatorCollection.__init__ (new SparseOperatorCollection)
            (PyArr (array3 k n n Gs)) (PyArr (array2 n n Gd)) d;
   evaluate_generator self (PyArr (array1 s)))
  = Ok (PyCsr (array2 n n
         (generator n s (map (Mround n n d) Gs) (Mround n n d Gd)))).
Proof.
  intros Hk Hs HG Hall Hd. rewrite sparse_init by done. py_steps.
  unfold evaluate_generator. rewrite !cls_setattr. cbn [cls new].
  unfold SparseOperatorCollection.evaluate_generator.
  cbn [py_shape array1 shape]. py_steps.
  change (tuple_index [length s] (-1)) with (Ok (A:=nat) (length s)). py_steps.
  unfold py_reshape_1. cbn [data]. rewrite decide_True by done. py_steps.
  cbn [is_none].
  unfold py_tensordot. cbn [shape]. unfold last_axis. cbn [reverse rev_append].
  rewrite decide_True by done.
  change (size [1]) with 1. rewrite chunks_one by done.
  cbn [mapM]. rewrite obj_dot_csr.
  - py_steps. cbn [py_getitem lookup list_lookup]. py_steps.
    rewrite py_add_csr, csr_add_array2 by (apply is_matrix_mk || apply is_matrix_weighted_sum).
    done.
  - simpl. lia.
  - rewrite !length_map. lia.
  - apply Forall_is_matrix_Mround.
Qed.

(** *** Products of two-dimensional arrays *)

Lemma pad_shape_nil : pad_shape 0 [] = [].
Proof. done. Qed.

Lemma np_matmul_flat_2d r k c a b :
  length a = r * k → length b = k * c →
  np_matmul (mk_nd [r; k] a) (mk_nd [k; c] b) = Ok (mk_nd [r; c] (mm r k c a b)).
Proof.
  intros Ha Hb. unfold np_matmul. cbn [shape data].
  unfold last_two. cbn [reverse rev_append]. rewrite decide_True by done.
  change (broadcast_shapes [] []) with (Some (@nil nat)). cbv iota beta.
  change (length [] `max` length []) with 0. rewrite pad_shape_nil.
  cbn [expand]. change (size []) with 1.
  rewrite !chunks_one by done. cbn [zip_with concat app]. by rewrite app_nil_r.
Qed.

Lemma np_matmul_flat_2d_1d r k a v :
  length a = r * k → length v = k →
  np_matmul (mk_nd [r; k] a) (mk_nd [k] v) = Ok (mk_nd [r] (mm r k 1 a v)).
Proof.
  intros Ha Hb. unfold np_matmul. cbn [shape data].
  unfold last_two. cbn [reverse rev_append]. rewrite decide_True by done.
  change (broadcast_shapes [] []) with (Some (@nil nat)). cbv iota beta.
  change (length [] `max` length []) with 0. rewrite pad_shape_nil.
  cbn [expand]. change (size []) with 1.
  rewrite !chunks_one by (done || lia). cbn [zip_with concat app]. by rewrite app_nil_r.
Qed.

Lemma app_nil_r_map {A B} (f : A → list B) l : map (λ x, f x ++ []) l = map f l.
Proof. apply map_ext. intros. apply app_nil_r. Qed.

Lemma np_dot_flat_2d r k c a b :
  length a = r * k → length b = k * c →
  np_dot (mk_nd [r; k] a) (mk_nd [k; c] b) = Ok (mk_nd [r; c] (mm r k c a b)).
Proof.
  intros Ha Hb. unfold np_dot. cbn [shape data].
  unfold last_axis, last_two. cbn [reverse rev_append]. rewrite decide_True by done.
  change (size []) with 1. change (size [r]) with (r * 1). rewrite Nat.mul_1_r.
  rewrite chunks_one by done. cbn [map concat app].
  rewrite app_nil_r_map. done.
Qed.

Lemma np_dot_flat_2d_1d r k a v :
  length a = r * k → length v = k →
  np_dot (mk_nd [r; k] a) (mk_nd [k] v) = Ok (mk_nd [r] (mm r k 1 a v)).
Proof.
  intros Ha Hb. unfold np_dot. cbn [shape data].
  unfold last_axis, last_two. cbn [reverse rev_append]. rewrite decide_True by done.
  change (size []) with 1. change (size [r]) with (r * 1). rewrite !Nat.mul_1_r.
  rewrite chunks_one by lia. cbn [map concat app].
  rewrite app_nil_r_map. done.
Qed.


Lemma concat_col v : concat (col v) = v.
Proof. induction v; simpl; [done|]. by f_equal. Qed.

Lemma is_matrix_col v : is_matrix (length v) 1 (col v).
Proof.
  split; unfold col; [by rewrite length_map|].
  apply Forall_map, Forall_forall. done.
Qed.

Lemma entry_col v l : entry (col v) l 0 = nth l v C0.
Proof.
  unfold entry, col. revert l. induction v; intros [|l]; simpl; auto.
Qed.

Lemma concat_mk_matrix_1 r f : concat (mk_matrix r 1 f) = map (λ i, f i 0) (seq 0 r).
Proof.
  unfold mk_matrix. simpl. induction (seq 0 r); simpl; [done|]. by f_equal.
Qed.

Lemma Mvec_col r k A v :
  Mvec r k A v = concat (Mmul r k 1 A (col v)).
Proof.
  unfold Mvec, Mmul. rewrite concat_mk_matrix_1.
  apply map_ext. intros i. apply csum_ext. intros l _. by rewrite entry_col.
Qed.

Lemma length_Mvec r k A v : length (Mvec r k A v) = r.
Proof. unfold Mvec. by rewrite length_map, length_seq. Qed.

Lemma mm_Mvec r k A v :
  is_matrix r k A → length v = k → mm r k 1 (concat A) v = Mvec r k A v.
Proof.
  intros HA Hv. rewrite Mvec_col. rewrite <- (concat_col v) at 1.
  apply mm_spec; [done|]. subst k. apply is_matrix_col.
Qed.

Lemma array1_Mvec r k A v : mk_nd [r] (Mvec r k A v) = array1 (Mvec r k A v).
Proof. unfold array1. by rewrite length_Mvec. Qed.

Lemma np_matmul_array2 r k c A B :
  is_matrix r k A → is_matrix k c B →
  np_matmul (array2 r k A) (array2 k c B) = Ok (array2 r c (Mmul r k c A B)).
Proof.
  intros HA HB. unfold array2.
  rewrite np_matmul_flat_2d by (by apply length_concat_matrix).
  by rewrite mm_spec.
Qed.

Lemma np_dot_array2 r k c A B :
  is_matrix r k A → is_matrix k c B →
  np_dot (array2 r k A) (array2 k c B) = Ok (array2 r c (Mmul r k c A B)).
Proof.
  intros HA HB. unfold array2.
  rewrite np_dot_flat_2d by (by apply length_concat_matrix).
  by rewrite mm_spec.
Qed.

Lemma np_matmul_array2_1 r k A v :
  is_matrix r k A → length v = k →
  np_matmul (array2 r k A) (array1 v) = Ok (array1 (Mvec r k A v)).
Proof.
  intros HA Hv. unfold array2. unfold array1 at 1. rewrite Hv.
  rewrite np_matmul_flat_2d_1d by (done || by apply length_concat_matrix).
  by rewrite mm_Mvec, array1_Mvec.
Qed.

Lemma np_dot_array2_1 r k A v :
  is_matrix r k A → length v = k →
  np_dot (array2 r k A) (array1 v) = Ok (array1 (Mvec r k A v)).
Proof.
  intros HA Hv. unfold array2. unfold array1 at 1. rewrite Hv.
  rewrite np_dot_flat_2d_1d by (done || by apply length_concat_matrix).
  by rewrite mm_Mvec, array1_Mvec.
Qed.

(** *** Linearity of the matrix product *)

Ltac csum_pointwise :=
  apply csum_ext; intros ?l ?Hl; repeat (rewrite entry_mk_matrix by done); try ring.

Lemma Mmul_add_l r k c A B X :
  Mmul r k c (Madd r k A B) X = Madd r c (Mmul r k c A X) (Mmul r k c B X).
Proof. mat_ext. rewrite <- csum_add. csum_pointwise. Qed.

Lemma Mmul_add_r r k c X A B :
  Mmul r k c X (Madd k c A B) = Madd r c (Mmul r k c X A) (Mmul r k c X B).
Proof. mat_ext. rewrite <- csum_add. csum_pointwise. Qed.

Lemma Mmul_scale_l r k c x A X :
  Mmul r k c (Mscale r k x A) X = Mscale r c x (Mmul r k c A X).
Proof. mat_ext. rewrite <- csum_scale. csum_pointwise. Qed.

Lemma Mmul_scale_r r k c x X A :
  Mmul r k c X (Mscale k c x A) = Mscale r c x (Mmul r k c X A).
Proof. mat_ext. rewrite <- csum_scale. csum_pointwise. Qed.

Lemma Mmul_zero_l r k c X : Mmul r k c (Mzero r k) X = Mzero r c.
Proof.
  mat_ext. transitivity (csum k (λ _, C0)); [csum_pointwise|apply csum_zero].
Qed.

Lemma Mmul_zero_r r k c X : Mmul r k c X (Mzero k c) = Mzero r c.
Proof.
  mat_ext. transitivity (csum k (λ _, C0)); [csum_pointwise|apply csum_zero].
Qed.

Lemma Mmul_wsum_l r k c s Gs X :
  Mmul r k c (weighted_sum r k s Gs) X =
  weighted_sum r c s (map (λ G, Mmul r k c G X) Gs).
Proof.
  revert s. induction Gs as [|G Gs IH]; intros s.
  - cbn [map]. rewrite !weighted_sum_nil_r. apply Mmul_zero_l.
  - destruct s as [|x s].
    + rewrite !weighted_sum_nil_l. apply Mmul_zero_l.
    + cbn [map]. rewrite !weighted_sum_cons.
      by rewrite Mmul_add_l, Mmul_scale_l, IH.
Qed.

Lemma Mmul_wsum_r r k c s Gs X :
  Mmul r k c X (weighted_sum k c s Gs) =
  weighted_sum r c s (map (λ G, Mmul r k c X G) Gs).
Proof.
  revert s. induction Gs as [|G Gs IH]; intros s.
  - cbn [map]. rewrite !weighted_sum_nil_r. apply Mmul_zero_r.
  - destruct s as [|x s].
    + rewrite !weighted_sum_nil_l. apply Mmul_zero_r.
    + cbn [map]. rewrite !weighted_sum_cons.
      by rewrite Mmul_add_r, Mmul_scale_r, IH.
Qed.

Lemma Mmul_assoc r k l c A B D :
  Mmul r l c (Mmul r k l A B) D = Mmul r k c A (Mmul k l c B D).
Proof.
  mat_ext.
  transitivity (csum l (λ b, csum k (λ a,
                  Cmul (Cmul (entry A i a) (entry B a b)) (entry D b j)))).
  { apply csum_ext; intros b Hb. rewrite entry_mk_matrix by done.
    transitivity (Cmul (entry D b j) (csum k (λ a, Cmul (entry A i a) (entry B a b))));
      [ring|].
    rewrite <- csum_scale. apply csum_ext; intros a Ha. ring. }
  rewrite csum_swap. apply csum_ext; intros a Ha. rewrite entry_mk_matrix by done.
  rewrite <- csum_scale. apply csum_ext; intros b Hb. ring.
Qed.

(** *** The dense collection *)

Lemma dense_init ops d :
  DenseOperatorCollection.__init__ (new DenseOperatorCollection) ops d
  = Ok (setattr (setattr (new DenseOperatorCollection) "_operators" ops) "_drift" d).
Proof. done. Qed.

Lemma dense_rhs_vector sparse_rhs n k s Gs Gd v :
  length s = k → length Gs = k → Forall (is_matrix n n) Gs → is_matrix n n Gd →
  length v = n →
  let init := DenseOperatorCollection.__init__ (new DenseOperatorCollection)
                (PyArr (array3 k n n Gs)) (PyArr (array2 n n Gd)) in
  let expected := PyArr (array1 (Mvec n n (generator n s Gs Gd) v)) in
  (self ← init; evaluate_rhs sparse_rhs self (PyArr (array1 s)) (PyArr (array1 v)))
    = Ok expected ∧
  (self ← init; g ← evaluate_generator self (PyArr (array1 s)); py_at g (PyArr (array1 v)))
    = Ok expected.
Proof.
  intros Hs HG Hall Hd Hv init expected.
  pose proof (dense_generator n k s Gs Gd Hs HG Hall Hd) as Hgen.
  fold init in Hgen. subst init. rewrite dense_init in *. rewrite bind_Ok in *.
  split.
  - unfold evaluate_rhs. rewrite !cls_setattr. cbn [cls new].
    unfold DenseOperatorCollection_evaluate_rhs.
    rewrite Hgen. py_steps. unfold py_dot.
    by rewrite np_dot_array2_1 by (done || apply is_matrix_mk).
  - py_steps. rewrite Hgen. py_steps. unfold py_at.
    by rewrite np_matmul_array2_1 by (done || apply is_matrix_mk).
Qed.

Lemma dense_rhs_matrix sparse_rhs n p k s Gs Gd Y :
  length s = k → length Gs = k → Forall (is_matrix n n) Gs → is_matrix n n Gd →
  is_matrix n p Y →
  let init := DenseOperatorCollection.__init__ (new DenseOperatorCollection)
                (PyArr (array3 k n n Gs)) (PyArr (array2 n n Gd)) in
  let expected := PyArr (array2 n p (Mmul n n p (generator n s Gs Gd) Y)) in
  (self ← init; evaluate_rhs sparse_rhs self (PyArr (array1 s)) (PyArr (array2 n p Y)))
    = Ok expected ∧
  (self ← init; g ← evaluate_generator self (PyArr (array1 s)); py_at g (PyArr (array2 n p Y)))
    = Ok expected.
Proof.
  intros Hs HG Hall Hd Hv init expected.
  pose proof (dense_generator n k s Gs Gd Hs HG Hall Hd) as Hgen.
  fold init in Hgen. subst init. rewrite dense_init in *. rewrite bind_Ok in *.
  split.
  - unfold evaluate_rhs. rewrite !cls_setattr. cbn [cls new].
    unfold DenseOperatorCollection_evaluate_rhs.
    rewrite Hgen. py_steps. unfold py_dot.
    by rewrite np_dot_array2 by (done || apply is_matrix_mk).
  - py_steps. rewrite Hgen. py_steps. unfold py_at.
    by rewrite np_matmul_array2 by (done || apply is_matrix_mk).
Qed.

(** *** The sparse collection: right-hand side *)

Lemma np_add_col n A B :
  is_matrix n 1 A → is_matrix n 1 B →
  np_add (mk_nd [n] (concat A)) (mk_nd [n] (concat B)) = Ok (mk_nd [n] (concat (Madd n 1 A B))).
Proof.
  intros HA HB. unfold np_add.
  rewrite np_binop_same by (change (size [n]) with (n * 1); by apply length_concat_matrix).
  by rewrite concat_Madd.
Qed.

Lemma np_scale_col n x A :
  is_matrix n 1 A → np_scale x (mk_nd [n] (concat A)) = mk_nd [n] (concat (Mscale n 1 x A)).
Proof. intros. unfold np_scale. cbn [shape data]. by rewrite concat_Mscale. Qed.

Lemma obj_dot_fold_col n s Ws Acc :
  is_matrix n 1 Acc → Forall (is_matrix n 1) Ws →
  foldl (λ acc p, a ← acc; t ← py_mul (PyNum p.1) p.2; py_add a t)
        (Ok (PyArr (mk_nd [n] (concat Acc))))
        (zip s (map (λ W, PyArr (mk_nd [n] (concat W))) Ws))
  = Ok (PyArr (mk_nd [n] (concat (Madd n 1 Acc (weighted_sum n 1 s Ws))))).
Proof.
  intros HA Hall. revert s Acc HA.
  induction Hall as [|W Ws HW _ IH]; intros s Acc HA.
  - rewrite weighted_sum_nil_r. destruct s; simpl.
    + do 4 f_equal. rewrite <- (mk_matrix_entry n 1 Acc HA) at 1. mat_ext. ring.
    + do 4 f_equal. rewrite <- (mk_matrix_entry n 1 Acc HA) at 1. mat_ext. ring.
  - destruct s as [|x s].
    + simpl. do 4 f_equal. rewrite <- (mk_matrix_entry n 1 Acc HA) at 1.
      rewrite weighted_sum_nil_l. mat_ext. ring.
    + cbn [map zip zip_with foldl fst snd]. py_steps.
      rewrite py_mul_num_arr. py_steps. rewrite py_add_arr.
      rewrite np_scale_col by done.
      rewrite np_add_col by (done || apply is_matrix_mk). py_steps.
      rewrite IH by apply is_matrix_mk.
      rewrite weighted_sum_cons. by rewrite Madd_assoc.
Qed.

Lemma obj_dot_col n s Ws :
  0 < length s → 0 < length Ws → Forall (is_matrix n 1) Ws →
  obj_dot s (map (λ W, PyArr (mk_nd [n] (concat W))) Ws)
  = Ok (PyArr (mk_nd [n] (concat (weighted_sum n 1 s Ws)))).
Proof.
  intros Hs HWs Hall.
  destruct s as [|x s]; [simpl in Hs; lia|].
  destruct Ws as [|W Ws]; [simpl in HWs; lia|].
  inversion Hall as [|? ? HW Hall']; subst.
  unfold obj_dot. cbn [map zip zip_with].
  rewrite py_mul_num_arr. py_steps.
  rewrite np_scale_col by done.
  rewrite obj_dot_fold_col by (done || apply is_matrix_mk).
  by rewrite weighted_sum_cons.
Qed.

Lemma csr_dot_vector n G v :
  is_matrix n n G → length v = n →
  csr_dot (array2 n n G) (array1 v) = Ok (mk_nd [n] (concat (Mmul n n 1 G (col v)))).
Proof.
  intros HG Hv. unfold csr_dot. cbn [array1 shape].
  change (mk_nd [length v] v) with (array1 v).
  rewrite np_matmul_array2_1 by done.
  unfold array1. by rewrite length_Mvec, Mvec_col.
Qed.

Lemma csr_dot_matrix n p G Y :
  is_matrix n n G → is_matrix n p Y →
  csr_dot (array2 n n G) (array2 n p Y) = Ok (array2 n p (Mmul n n p G Y)).
Proof.
  intros HG HY. unfold csr_dot. cbn [array2 shape].
  change (mk_nd [n; p] (concat Y)) with (array2 n p Y).
  change (mk_nd [n; n] (concat G)) with (array2 n n G).
  by rewrite np_matmul_array2.
Qed.

Lemma csr_times_vector n G v :
  is_matrix n n G → length v = n →
  py_mul (PyCsr (array2 n n G)) (PyArr (array1 v))
  = Ok (PyArr (mk_nd [n] (concat (Mmul n n 1 G (col v))))).
Proof.
  intros HG Hv. unfold py_mul. by rewrite csr_dot_vector.
Qed.

Lemma mapM_fmap_Ok {A B D} (h : A → B) (f : B → result D) (g : A → D) l :
  Forall (λ a, f (h a) = Ok (g a)) l → mapM f (map h l) = Ok (map g l).
Proof.
  induction 1 as [|a l Ha _ IH]; simpl; [done|].
  rewrite Ha. py_steps. by rewrite IH.
Qed.

Lemma objarr_mul_vector n k Gs v :
  length Gs = k → Forall (is_matrix n n) Gs → length v = n →
  objarr_mul (PyObjArr [k] (map (λ G, PyCsr (array2 n n G)) Gs))
             (PyObjArr [1] [PyArr (array1 v)])
  = Ok (PyObjArr [k] (map (λ W, PyArr (mk_nd [n] (concat W)))
                          (map (λ G, Mmul n n 1 G (col v)) Gs))).
Proof.
  intros HG Hall Hv. unfold objarr_mul.
  destruct (decide (k = 1)) as [->|Hk].
  - destruct Gs as [|G [|? ?]]; try done.
    inversion Hall; subst. cbn [map zip zip_with mapM fst snd].
    rewrite csr_times_vector by done. done.
  - rewrite decide_True by done. cbn [nth].
    rewrite (mapM_fmap_Ok _ _ (λ G, PyArr (mk_nd [n] (concat (Mmul n n 1 G (col v)))))).
    + by rewrite map_map.
    + eapply Forall_impl; [exact Hall|]. intros G HGm. cbn beta.
      by rewrite csr_times_vector.
Qed.

Lemma tuple_index_last1 k : tuple_index [k] (-1) = Ok k.
Proof. done. Qed.

Lemma sparse_rhs_vector sparse_rhs n k d s Gs Gd v :
  0 < k → length s = k → length Gs = k →
  Forall (is_matrix n n) Gs → is_matrix n n Gd → length v = n →
  let init := SparseOperatorCollection.__init__ (new SparseOperatorCollection)
                (PyArr (array3 k n n Gs)) (PyArr (array2 n n Gd)) d in
  let G := generator n s (map (Mround n n d) Gs) (Mround n n d Gd) in
  let expected := PyArr (array1 (Mvec n n G v)) in
  (self ← init; evaluate_rhs sparse_rhs self (PyArr (array1 s)) (PyArr (array1 v)))
    = Ok expected ∧
  (self ← init; g ← evaluate_generator self (PyArr (array1 s)); py_at g (PyArr (array1 v)))
    = Ok expected.
Proof.
  intros Hk Hs HG Hall Hd Hv init G expected.
  pose proof (sparse_generator n k d s Gs Gd Hk Hs HG Hall Hd) as Hgen.
  fold init in Hgen. fold G in Hgen. subst init.
  rewrite sparse_init in * by done. rewrite bind_Ok in Hgen.
  split.
  - py_steps. unfold evaluate_rhs. rewrite !cls_setattr. cbn [cls new].
    unfold SparseOperatorCollection.evaluate_rhs.
    cbn [py_shape array1 shape]. py_steps.
    rewrite decide_False by done. rewrite decide_True by done. py_steps.
    rewrite objarr_mul_vector;
      [|by rewrite length_map|apply Forall_is_matrix_Mround|done].
    py_steps. unfold py_dot. cbn [array1 shape data]. rewrite decide_True by done.
    rewrite obj_dot_col.
    + py_steps. unfold BaseOperatorCollection.drift. py_steps.
      unfold py_method_dot.
      rewrite csr_dot_vector by (done || apply is_matrix_mk). py_steps.
      rewrite py_add_arr, np_add_col by (apply is_matrix_mk || apply is_matrix_weighted_sum).
      py_steps. subst expected. unfold array1. rewrite length_Mvec, Mvec_col.
      do 4 f_equal. subst G. unfold generator.
      by rewrite Mmul_add_l, Mmul_wsum_l.
    + lia.
    + rewrite !length_map. lia.
    + apply Forall_map, Forall_forall. intros. apply is_matrix_mk.
  - py_steps. rewrite Hgen. py_steps. unfold py_at.
    rewrite csr_dot_vector by (done || apply is_matrix_mk). py_steps.
    subst expected. unfold array1. by rewrite length_Mvec, Mvec_col.
Qed.

Lemma sparse_generator_matrix n p k d s Gs Gd Y :
  0 < k → length s = k → length Gs = k →
  Forall (is_matrix n n) Gs → is_matrix n n Gd → is_matrix n p Y →
  (self ← SparseOperatorCollection.__init__ (new SparseOperatorCollection)
            (PyArr (array3 k n n Gs)) (PyArr (array2 n n Gd)) d;
   g ← evaluate_generator self (PyArr (array1 s)); py_at g (PyArr (array2 n p Y)))
  = Ok (PyArr (array2 n p
         (Mmul n n p (generator n s (map (Mround n n d) Gs) (Mround n n d Gd)) Y))).
Proof.
  intros Hk Hs HG Hall Hd HY.
  pose proof (sparse_generator n k d s Gs Gd Hk Hs HG Hall Hd) as Hgen.
  rewrite sparse_init in * by done. rewrite bind_Ok in *.
  rewrite Hgen. py_steps. unfold py_at.
  by rewrite csr_dot_matrix by (done || apply is_matrix_mk).
Qed.

(** On a matrix of states the contraction is taken with the signal values
    as they come, one-dimensional: its result is an array of objects of no
    dimension, to which the drift cannot be added. *)
Lemma py_add_obj0_csr n X m :
  1 < n → py_add (PyObjArr [] [PyCsr (array2 n n X)]) (PyCsr m) = Raise ValueError.
Proof.
  intros Hn. unfold py_add, array2. cbn [shape].
  destruct n as [|[|n]]; [lia|lia|done].
Qed.

Lemma sparse_rhs_matrix_raises sparse_rhs n k d s Gs Gd y p q :
  1 < n → 0 < k → length s = k → length Gs = k →
  Forall (is_matrix n n) Gs → is_matrix n n Gd → shape y = [p; q] →
  (self ← SparseOperatorCollection.__init__ (new SparseOperatorCollection)
            (PyArr (array3 k n n Gs)) (PyArr (array2 n n Gd)) d;
   evaluate_rhs sparse_rhs self (PyArr (array1 s)) (PyArr y))
  = Raise ValueError.
Proof.
  intros Hn Hk Hs HG Hall Hd Hy.
  rewrite sparse_init by done. py_steps.
  unfold evaluate_rhs. rewrite !cls_setattr. cbn [cls new].
  unfold SparseOperatorCollection.evaluate_rhs.
  cbn [py_shape]. rewrite Hy. py_steps.
  rewrite decide_True by done. py_steps.
  unfold py_tensordot. cbn [array1 shape data]. unfold last_axis. cbn [reverse rev_append].
  rewrite decide_True by done.
  change (size []) with 1. rewrite chunks_one by done.
  cbn [mapM]. rewrite obj_dot_csr.
  - py_steps. unfold BaseOperatorCollection.drift. py_steps.
    by rewrite py_add_obj0_csr.
  - lia.
  - rewrite !length_map. lia.
  - apply Forall_is_matrix_Mround.
Qed.

(** *** Stacks of matrices *)

Lemma chunks_concat' {A} sz cnt (ls : list (list A)) :
  length ls = cnt → Forall (λ r, length r = sz) ls → chunks sz cnt (concat ls) = ls.
Proof. intros <-. apply chunks_concat. Qed.

Lemma zip_with_replicate_l {A B D} (f : A → B → D) x ys n :
  length ys = n → zip_with f (replicate n x) ys = map (f x) ys.
Proof. intros <-. induction ys; simpl; [done|]. by f_equal. Qed.

Lemma zip_with_replicate_r {A B D} (f : A → B → D) xs y n :
  length xs = n → zip_with f xs (replicate n y) = map (λ x, f x y) xs.
Proof. intros <-. induction xs; simpl; [done|]. by f_equal. Qed.

Lemma length_concat_replicate {A} n (l : list A) :
  length (concat (replicate n l)) = n * length l.
Proof. induction n; simpl; [done|]. rewrite length_app. lia. Qed.

Lemma Forall_replicate_len {A} (P : A → Prop) n x : P x → Forall P (replicate n x).
Proof. intros. induction n; simpl; by constructor. Qed.

Lemma np_matmul_flat_2d_3d n p q b a ys :
  length a = n * p → length ys = b → Forall (λ y, length y = p * q) ys →
  np_matmul (mk_nd [n; p] a) (mk_nd [b; p; q] (concat ys))
  = Ok (mk_nd [b; n; q] (concat (map (mm n p q a) ys))).
Proof.
  intros Ha Hb Hys. unfold np_matmul. cbn [shape data].
  unfold last_two. cbn [reverse rev_append]. rewrite decide_True by done.
  unfold broadcast_shapes. cbn [length]. change (0 `max` 1) with 1.
  change (pad_shape 1 []) with [1]. change (pad_shape 1 [b]) with [b].
  cbn [broadcast_dims]. rewrite broadcast_dim_1_l.
  rewrite (expand_lead_1 _ b []) by (simpl; lia).
  rewrite expand_same by (rewrite (length_concat_const (p * q)) by done; simpl; lia).
  replace (size [b]) with b by (simpl; lia).
  rewrite chunks_concat' by (rewrite ?length_replicate; done || by apply Forall_replicate_len).
  rewrite chunks_concat' by done.
  by rewrite zip_with_replicate_l.
Qed.

Lemma np_matmul_flat_3d_2d n p q b xs c :
  length xs = b → Forall (λ x, length x = n * p) xs → length c = p * q →
  np_matmul (mk_nd [b; n; p] (concat xs)) (mk_nd [p; q] c)
  = Ok (mk_nd [b; n; q] (concat (map (λ x, mm n p q x c) xs))).
Proof.
  intros Hb Hxs Hc. unfold np_matmul. cbn [shape data].
  unfold last_two. cbn [reverse rev_append]. rewrite decide_True by done.
  unfold broadcast_shapes. cbn [length]. change (1 `max` 0) with 1.
  change (pad_shape 1 []) with [1]. change (pad_shape 1 [b]) with [b].
  cbn [broadcast_dims]. rewrite broadcast_dim_1_r.
  rewrite (expand_lead_1 _ b []) by (simpl; lia).
  rewrite expand_same by (rewrite (length_concat_const (n * p)) by done; simpl; lia).
  replace (size [b]) with b by (simpl; lia).
  rewrite chunks_concat' by done.
  rewrite chunks_concat' by (rewrite ?length_replicate; done || by apply Forall_replicate_len).
  by rewrite zip_with_replicate_r.
Qed.

Lemma np_matmul_flat_3d_3d n p q m xs ys :
  length xs = m → Forall (λ x, length x = n * p) xs →
  length ys = m → Forall (λ y, length y = p * q) ys →
  np_matmul (mk_nd [m; n; p] (concat xs)) (mk_nd [m; p; q] (concat ys))
  = Ok (mk_nd [m; n; q] (concat (zip_with (mm n p q) xs ys))).
Proof.
  intros Hx Hxs Hy Hys. unfold np_matmul. cbn [shape data].
  unfold last_two. cbn [reverse rev_append]. rewrite decide_True by done.
  rewrite broadcast_shapes_same. rewrite pad_shape_same.
  rewrite !expand_same
    by (erewrite length_concat_const by done; simpl; lia).
  replace (size [m]) with m by (simpl; lia).
  by rewrite !chunks_concat' by done.
Qed.

Lemma zip_with_flat_map_replicate {A B D} (f : A → B → D) m xs ys :
  length ys = m →
  zip_with f (concat (map (replicate m) xs)) (concat (replicate (length xs) ys))
  = concat (map (λ x, map (f x) ys) xs).
Proof.
  intros Hy. induction xs as [|x xs IH]; simpl; [done|].
  rewrite zip_with_app by (rewrite length_replicate; done).
  rewrite IH. by rewrite zip_with_replicate_l.
Qed.

Lemma zip_with_concat_replicate {A B D} (f : A → B → D) xs (yss : list (list B)) :
  Forall (λ ys, length ys = length xs) yss →
  zip_with f (concat (replicate (length yss) xs)) (concat yss)
  = concat (map (zip_with f xs) yss).
Proof.
  induction 1 as [|ys yss Hy _ IH]; simpl; [done|].
  rewrite zip_with_app by done. by rewrite IH.
Qed.

Lemma concat_map_concat_replicate {A} m (xs : list (list A)) :
  concat (map (λ y, concat (replicate m y)) xs) = concat (concat (map (replicate m) xs)).
Proof.
  induction xs as [|x xs IH]; simpl; [done|]. by rewrite concat_app, IH.
Qed.

Lemma concat_replicate_concat {A} b (ys : list (list A)) :
  concat (replicate b (concat ys)) = concat (concat (replicate b ys)).
Proof. induction b; simpl; [done|]. by rewrite concat_app, IHb. Qed.

Lemma Forall_concat {A} (P : A → Prop) (ls : list (list A)) :
  Forall (Forall P) ls → Forall P (concat ls).
Proof. induction 1; simpl; [done|]. by apply Forall_app. Qed.

Lemma length_flat_map_replicate {A} m (xs : list A) :
  length (concat (map (replicate m) xs)) = length xs * m.
Proof.
  rewrite (length_concat_const m); [by rewrite length_map|].
  apply Forall_map, Forall_forall. intros.
  simpl. by rewrite length_replicate.
Qed.

Lemma np_matmul_flat_4d_3d n p q b m xs ys :
  length xs = b → Forall (λ x, length x = n * p) xs →
  length ys = m → Forall (λ y, length y = p * q) ys →
  np_matmul (mk_nd [b; 1; n; p] (concat xs)) (mk_nd [m; p; q] (concat ys))
  = Ok (mk_nd [b; m; n; q] (concat (concat (map (λ x, map (mm n p q x) ys) xs)))).
Proof.
  intros Hx Hxs Hy Hys. unfold np_matmul. cbn [shape data].
  unfold last_two. cbn [reverse rev_append]. rewrite decide_True by done.
  unfold broadcast_shapes. cbn [length]. change (2 `max` 1) with 2.
  change (pad_shape 2 [b; 1]) with [b; 1]. change (pad_shape 2 [m]) with [1; m].
  cbn [broadcast_dims]. rewrite broadcast_dim_1_l, broadcast_dim_1_r.
  rewrite expand_inner_1 by (rewrite (length_concat_const (n * p)) by done; lia).
  rewrite (expand_lead_1 _ b [m])
    by (rewrite (length_concat_const (p * q)) by done; simpl; lia).
  rewrite (chunks_concat' (n * p) b xs) by done.
  rewrite concat_map_concat_replicate, concat_replicate_concat.
  replace (size [b; m]) with (b * m) by (simpl; lia).
  rewrite chunks_concat'.
  2:{ rewrite length_flat_map_replicate. lia. }
  2:{ apply Forall_concat, Forall_map. eapply Forall_impl; [exact Hxs|].
      intros x Hxl. by apply Forall_replicate_len. }
  rewrite chunks_concat'.
  2:{ rewrite (length_concat_const m); [by rewrite length_replicate|].
      by apply Forall_replicate_len. }
  2:{ apply Forall_concat. by apply Forall_replicate_len. }
  rewrite <- Hx. by rewrite zip_with_flat_map_replicate.
Qed.

Lemma np_matmul_flat_3d_4d n p q b m xs (yss : list (list (list C))) :
  length xs = m → Forall (λ x, length x = n * p) xs →
  length yss = b → Forall (λ ys, length ys = m ∧ Forall (λ y, length y = p * q) ys) yss →
  np_matmul (mk_nd [m; n; p] (concat xs)) (mk_nd [b; m; p; q] (concat (concat yss)))
  = Ok (mk_nd [b; m; n; q] (concat (concat (map (zip_with (mm n p q) xs) yss)))).
Proof.
  intros Hx Hxs Hy Hys. unfold np_matmul. cbn [shape data].
  unfold last_two. cbn [reverse rev_append]. rewrite decide_True by done.
  unfold broadcast_shapes. cbn [length]. change (1 `max` 2) with 2.
  change (pad_shape 2 [b; m]) with [b; m]. change (pad_shape 2 [m]) with [1; m].
  cbn [broadcast_dims]. rewrite broadcast_dim_1_l, broadcast_dim_same.
  assert (Forall (Forall (λ y, length y = p * q)) yss) as Hys2.
  { eapply Forall_impl; [exact Hys|]. by intros ys [_ ?]. }
  assert (Forall (λ ys, length ys = m) yss) as Hys1.
  { eapply Forall_impl; [exact Hys|]. by intros ys [? _]. }
  assert (length (concat yss) = b * m) as Hlen.
  { rewrite (length_concat_const m) by done. lia. }
  rewrite (expand_lead_1 _ b [m])
    by (rewrite (length_concat_const (n * p)) by done; simpl; lia).
  rewrite expand_same.
  2:{ rewrite (length_concat_const (p * q)) by (by apply Forall_concat). simpl. lia. }
  rewrite concat_replicate_concat.
  replace (size [b; m]) with (b * m) by (simpl; lia).
  rewrite chunks_concat'.
  2:{ rewrite (length_concat_const m); [by rewrite length_replicate|].
      by apply Forall_replicate_len. }
  2:{ apply Forall_concat. by apply Forall_replicate_len. }
  rewrite chunks_concat' by (done || by apply Forall_concat).
  rewrite <- Hy. rewrite zip_with_concat_replicate; [done|].
  eapply Forall_impl; [exact Hys1|]. intros; simpl in *; congruence.
Qed.

(** *** Contraction over the third-from-last axis *)

Lemma concat_concat_map {A} (lss : list (list (list A))) :
  concat (concat lss) = concat (map (@concat A) lss).
Proof. induction lss as [|l lss IH]; simpl; [done|]. by rewrite concat_app, IH. Qed.

Lemma lincomb_length n cs vs :
  Forall (λ v, length v = n) vs → length (lincomb n cs vs) = n.
Proof.
  intros H. revert cs. induction H as [|v vs Hv _ IH]; intros cs.
  - rewrite lincomb_nil_r. apply length_replicate.
  - destruct cs as [|x cs]; [rewrite lincomb_nil_l; apply length_replicate|].
    rewrite lincomb_cons. unfold vadd, vscale.
    rewrite length_zip_with, length_map, IH. lia.
Qed.

Lemma vzero_app n1 n2 : vzero (n1 + n2) = vzero n1 ++ vzero n2.
Proof. apply replicate_add. Qed.

Lemma lincomb_app n1 n2 cs us ws :
  Forall2 (λ u w, length u = n1 ∧ length w = n2) us ws →
  lincomb (n1 + n2) cs (zip_with app us ws) = lincomb n1 cs us ++ lincomb n2 cs ws.
Proof.
  intros H. revert cs. induction H as [|u w us ws [Hu Hw] Hrest IH]; intros cs.
  - cbn [zip_with]. rewrite !lincomb_nil_r. apply vzero_app.
  - destruct cs as [|x cs]; [rewrite !lincomb_nil_l; apply vzero_app|].
    cbn [zip_with]. rewrite !lincomb_cons, IH. unfold vadd, vscale.
    rewrite map_app. rewrite zip_with_app; [done|].
    rewrite length_map, lincomb_length; [done|].
    clear -Hrest. induction Hrest as [|? ? ? ? [? ?]]; by constructor.
Qed.

Lemma lincomb_columns e cs m (xss : list (list (list C))) :
  Forall (λ xs, length xs = m ∧ Forall (λ x, length x = e) xs) xss →
  lincomb (length xss * e) cs (map (λ j, concat (map (λ xs, nth j xs []) xss)) (seq 0 m))
  = concat (map (lincomb e cs) xss).
Proof.
  induction 1 as [|xs xss [Hm He] Hrest IH]; cbn [length map concat].
  - change (0 * e) with 0. clear. generalize (seq 0 m). intros l. revert cs.
    induction l as [|j l IH]; intros cs; [by rewrite lincomb_nil_r|].
    destruct cs; [done|]. cbn [map]. rewrite lincomb_cons, IH. done.
  - replace (S (length xss) * e) with (e + length xss * e) by lia.
    rewrite <- IH.
    rewrite <- (lincomb_app e (length xss * e)).
    + f_equal.
      rewrite <- (zip_with_map_same (@app C) (λ j, nth j xs [])
                   (λ j, concat (map (λ xs0, nth j xs0 []) xss)) (seq 0 m)).
      f_equal. rewrite <- Hm. apply map_seq_nth.
    + assert (map (λ j, nth j xs []) (seq 0 m) = xs) as Hxs
        by (rewrite <- Hm; apply map_seq_nth).
      rewrite <- Hxs.
      apply Forall2_fmap, Forall_Forall2_diag, Forall_forall. intros j Hj. split.
      * apply list_elem_of_In, in_seq in Hj.
        rewrite Forall_forall in He. apply He, list_elem_of_In, nth_In. lia.
      * apply list_elem_of_In, in_seq in Hj.
        rewrite (length_concat_const e); [by rewrite length_map|].
        apply Forall_map. eapply Forall_impl; [exact Hrest|].
        intros ys [Hym Hye]. cbn beta.
        rewrite Forall_forall in Hye. apply Hye, list_elem_of_In, nth_In. lia.
Qed.

Lemma axis_to_front_stack e m b (xss : list (list (list C))) :
  length xss = b →
  Forall (λ xs, length xs = m ∧ Forall (λ x, length x = e) xs) xss →
  axis_to_front b m e (concat (concat xss))
  = map (λ j, concat (map (λ xs, nth j xs []) xss)) (seq 0 m).
Proof.
  intros Hb Hall. unfold axis_to_front. rewrite concat_concat_map.
  rewrite chunks_concat'.
  - rewrite map_map. f_equal.
    rewrite (map_id_Forall (λ xs, length xs = m ∧ Forall (λ x, length x = e) xs)); [done| |done].
    intros xs [Hm He]. by apply chunks_concat'.
  - by rewrite length_map.
  - apply Forall_map. eapply Forall_impl; [exact Hall|].
    intros xs [Hm He]. cbn beta. rewrite (length_concat_const e) by done. by rewrite Hm.
Qed.

Lemma np_tensordot_m1_m3_flat_4d g b m r c (xss : list (list (list C))) :
  length g = m → length xss = b →
  Forall (λ xs, length xs = m ∧ Forall (λ x, length x = r * c) xs) xss →
  np_tensordot_m1_m3 (array1 g) (mk_nd [b; m; r; c] (concat (concat xss)))
  = Ok (mk_nd [b; r; c] (concat (map (lincomb (r * c) g) xss))).
Proof.
  intros Hg Hb Hall. unfold np_tensordot_m1_m3. cbn [array1 shape data].
  unfold last_axis, last_three. cbn [reverse rev_append].
  rewrite decide_True by done. cbn [app].
  change (size []) with 1. rewrite chunks_one by done. cbn [map concat].
  rewrite app_nil_r.
  replace (size [b]) with b by (simpl; lia).
  rewrite (axis_to_front_stack (r * c) m b) by done.
  rewrite <- Hb. by rewrite lincomb_columns.
Qed.

Lemma np_tensordot_m1_m3_flat_3d g m r c (xs : list (list C)) :
  length g = m → length xs = m → Forall (λ x, length x = r * c) xs →
  np_tensordot_m1_m3 (array1 g) (mk_nd [m; r; c] (concat xs))
  = Ok (mk_nd [r; c] (lincomb (r * c) g xs)).
Proof.
  intros Hg Hm Hall. unfold np_tensordot_m1_m3. cbn [array1 shape data].
  unfold last_axis, last_three. cbn [reverse rev_append].
  rewrite decide_True by done. cbn [app].
  change (size []) with 1. rewrite chunks_one by done. cbn [map concat].
  rewrite app_nil_r.
  pose proof (axis_to_front_stack (r * c) m 1 [xs]) as H.
  cbn [concat] in H. rewrite !app_nil_r in H. rewrite H; [|done|by repeat constructor].
  rewrite Nat.mul_1_l.
  assert (map (λ j, concat (map (λ xs0 : list (list C), nth j xs0 []) [xs])) (seq 0 m) = xs)
    as ->; [|done].
  cbn [map concat].
  transitivity (map (λ j, nth j xs []) (seq 0 m)).
  - apply map_ext. intros. apply app_nil_r.
  - rewrite <- Hm. apply map_seq_nth.
Qed.

(** *** The dense Lindblad collection *)

Lemma transpose_rows_spec r c A :
  is_matrix r c A →
  transpose_rows r c (concat A) = concat (mk_matrix c r (λ i j, entry A j i)).
Proof.
  intros [Hr Hc]. unfold transpose_rows, mk_matrix. subst r.
  rewrite chunks_concat by done. f_equal.
  apply map_ext. intros j.
  rewrite <- (map_seq_nth A []) at 1. rewrite map_map. done.
Qed.

Lemma np_adjoint_array3 m n Ls :
  length Ls = m → Forall (is_matrix n n) Ls →
  (t ← py_transpose_021 (PyArr (array3 m n n Ls)); py_conjugate t)
  = Ok (PyArr (array3 m n n (map (Madjoint n) Ls))).
Proof.
  intros Hm Hall. unfold py_transpose_021, np_transpose_021. cbn [array3 shape data].
  py_steps. unfold py_conjugate, np_conjugate, array3. cbn [shape data].
  do 3 f_equal. rewrite chunks_stack by done.
  rewrite concat_map, !map_map. f_equal.
  apply Forall_fmap_ext_1. eapply Forall_impl; [exact Hall|].
  intros L HL. cbn beta. rewrite transpose_rows_spec by done.
  by rewrite map_concat_mk.
Qed.

Lemma Forall_is_matrix_map {A} r c (F : A → matrix) l :
  (∀ x, is_matrix r c (F x)) → Forall (is_matrix r c) (map F l).
Proof. intros H. apply Forall_map, Forall_forall. auto. Qed.

Lemma zip_with_map_map {A B D E} (f : B → D → E) (g : A → B) (h : A → D) l :
  zip_with f (map g l) (map h l) = map (λ x, f (g x) (h x)) l.
Proof. apply zip_with_map_same. Qed.

Lemma zip_with_map_same_l {A B E} (f : B → A → E) (g : A → B) l :
  zip_with f (map g l) l = map (λ x, f (g x) x) l.
Proof. induction l; simpl; [done|]. by f_equal. Qed.

Lemma zip_with_map_same_r {A D E} (f : A → D → E) (h : A → D) l :
  zip_with f l (map h l) = map (λ x, f x (h x)) l.
Proof. induction l; simpl; [done|]. by f_equal. Qed.

Lemma np_matmul_array3 m n As Bs :
  length As = m → Forall (is_matrix n n) As →
  length Bs = m → Forall (is_matrix n n) Bs →
  np_matmul (array3 m n n As) (array3 m n n Bs)
  = Ok (array3 m n n (zip_with (Mmul n n n) As Bs)).
Proof.
  intros HA HAs HB HBs. unfold array3.
  rewrite np_matmul_flat_3d_3d
    by (rewrite ?length_map; done || by apply Forall_is_matrix_length).
  do 3 f_equal. clear HA HB. revert Bs HBs.
  induction HAs as [|A As HAm _ IH]; intros Bs HBs; [done|].
  destruct HBs as [|B Bs HBm HBs]; [done|].
  cbn [map zip_with]. rewrite IH by done. by rewrite mm_spec.
Qed.

Lemma np_matmul_array2_array3 b n A Ys :
  is_matrix n n A → length Ys = b → Forall (is_matrix n n) Ys →
  np_matmul (array2 n n A) (array3 b n n Ys)
  = Ok (array3 b n n (map (Mmul n n n A) Ys)).
Proof.
  intros HA Hb HYs. unfold array2, array3.
  rewrite np_matmul_flat_2d_3d
    by (rewrite ?length_map; done || by apply length_concat_matrix
        || by apply Forall_is_matrix_length).
  do 3 f_equal. rewrite !map_map. apply Forall_fmap_ext_1.
  eapply Forall_impl; [exact HYs|]. intros Y HY. cbn beta. by rewrite mm_spec.
Qed.

Lemma np_matmul_array3_array2 b n Ys A :
  is_matrix n n A → length Ys = b → Forall (is_matrix n n) Ys →
  np_matmul (array3 b n n Ys) (array2 n n A)
  = Ok (array3 b n n (map (λ Y, Mmul n n n Y A) Ys)).
Proof.
  intros HA Hb HYs. unfold array2, array3.
  rewrite np_matmul_flat_3d_2d
    by (rewrite ?length_map; done || by apply length_concat_matrix
        || by apply Forall_is_matrix_length).
  do 3 f_equal. rewrite !map_map. apply Forall_fmap_ext_1.
  eapply Forall_impl; [exact HYs|]. intros Y HY. cbn beta. by rewrite mm_spec.
Qed.

Lemma np_tensordot_m1_m3_array3 g m n Xs :
  length g = m → length Xs = m → Forall (is_matrix n n) Xs →
  np_tensordot_m1_m3 (array1 g) (array3 m n n Xs)
  = Ok (array2 n n (weighted_sum n n g Xs)).
Proof.
  intros Hg Hm Hall. unfold array3.
  rewrite np_tensordot_m1_m3_flat_3d
    by (rewrite ?length_map; done || by apply Forall_is_matrix_length).
  by rewrite lincomb_weighted_sum.
Qed.

Lemma np_negative_array2 r c A :
  is_matrix r c A → np_negative (array2 r c A) = array2 r c (Mopp r c A).
Proof.
  intros HA. unfold np_negative, array2. cbn [shape data]. f_equal.
  rewrite <- (mk_matrix_entry r c A HA) at 1. by rewrite map_concat_mk.
Qed.

Lemma lindblad_init n k m Hs Hd Ls :
  length Ls = m → Forall (is_matrix n n) Ls →
  DenseLindbladCollection.__init__ (new DenseLindbladCollection)
    (PyArr (array3 k n n Hs)) (PyArr (array2 n n Hd)) (PyArr (array3 m n n Ls))
  = Ok (setattr (setattr (setattr (setattr (setattr (new DenseLindbladCollection)
         "_hamiltonian_operators" (PyArr (array3 k n n Hs)))
         "_dissipator_operators" (PyArr (array3 m n n Ls)))
         "_dissipator_operators_conj" (PyArr (array3 m n n (map (Madjoint n) Ls))))
         "_dissipator_products"
           (PyArr (array3 m n n (map (λ L, Mmul n n n (Madjoint n L) L) Ls))))
         "_drift" (PyArr (array2 n n Hd))).
Proof.
  intros Hm Hall. unfold DenseLindbladCollection.__init__. cbn [is_none negb].
  pose proof (np_adjoint_array3 m n Ls Hm Hall) as Hadj.
  destruct (py_transpose_021 (PyArr (array3 m n n Ls))) as [t|e]; [|done].
  rewrite bind_Ok in Hadj. py_steps. rewrite Hadj. py_steps.
  unfold py_matmul.
  rewrite np_matmul_array3
    by (rewrite ?length_map; done || (apply Forall_is_matrix_map; intros; apply is_matrix_mk)).
  py_steps. rewrite zip_with_map_same_l. done.
Qed.

(** *** The Lindblad right-hand side, entry by entry *)

Lemma entry_weighted_sum r c s Gs i j :
  i < r → j < c →
  entry (weighted_sum r c s Gs) i j = wsumC s (map (λ G, entry G i j) Gs).
Proof.
  intros Hi Hj. revert s. induction Gs as [|G Gs IH]; intros s.
  - rewrite weighted_sum_nil_r. unfold Mzero. rewrite entry_mk_matrix by done.
    by destruct s.
  - destruct s as [|x s].
    + rewrite weighted_sum_nil_l. unfold Mzero. by rewrite entry_mk_matrix.
    + rewrite weighted_sum_cons. unfold Madd, Mscale.
      rewrite !entry_mk_matrix by done. rewrite IH. done.
Qed.

Lemma wsumC_add {A} s (f g : A → C) l :
  wsumC s (map (λ x, Cadd (f x) (g x)) l) = Cadd (wsumC s (map f l)) (wsumC s (map g l)).
Proof.
  revert s. induction l as [|a l IH]; intros [|x s]; unfold wsumC in *; simpl;
    try ring. rewrite IH. ring.
Qed.

Lemma wsumC_scale {A} s y (f : A → C) l :
  wsumC s (map (λ x, Cmul y (f x)) l) = Cmul y (wsumC s (map f l)).
Proof.
  revert s. induction l as [|a l IH]; intros [|x s]; unfold wsumC in *; simpl;
    try ring. rewrite IH. ring.
Qed.

Lemma minus_half_eq : minus_half = Copp (Cq 1 2).
Proof.
  unfold minus_half, Cq, Creal, Copp. simpl. f_equal; apply Qc_is_canon; reflexivity.
Qed.

Lemma Mmul_opp_r r k c X A :
  Mmul r k c X (Mopp k c A) = Mopp r c (Mmul r k c X A).
Proof.
  mat_ext.
  transitivity (Cmul (Copp C1) (csum k (λ l, Cmul (entry X i l) (entry A l j)))); [|ring].
  rewrite <- csum_scale. csum_pointwise.
Qed.

Ltac mat_entries :=
  unfold Madd, Msub, Mscale, Mopp;
  repeat (rewrite entry_mk_matrix by done).

Lemma lindblad_algebra n H g Ls R :
  let B := Mscale n n minus_1j H in
  let A := Mscale n n minus_half
             (weighted_sum n n g (map (λ L, Mmul n n n (Madjoint n L) L) Ls)) in
  Madd n n
    (Madd n n (Mmul n n n (Madd n n B A) R) (Mmul n n n R (Madd n n (Mopp n n B) A)))
    (weighted_sum n n g (map (λ L, Mmul n n n L (Mmul n n n R (Madjoint n L))) Ls))
  = lindblad_rhs n H g Ls R.
Proof.
  intros B A. subst B A.
  rewrite Mmul_add_l, Mmul_add_r, Mmul_opp_r, !Mmul_scale_l, !Mmul_scale_r.
  rewrite Mmul_wsum_l, Mmul_wsum_r, !map_map.
  rewrite (map_ext (λ L, Mmul n n n L (Mmul n n n R (Madjoint n L)))
                   (λ L, Mmul n n n (Mmul n n n L R) (Madjoint n L)))
    by (intros; by rewrite Mmul_assoc).
  unfold lindblad_rhs, commutator.
  apply (eq_trans (eq_sym (mk_matrix_entry n n _ (is_matrix_mk n n _)))).
  symmetry.
  apply (eq_trans (eq_sym (mk_matrix_entry n n _ (is_matrix_mk n n _)))).
  symmetry. apply mk_matrix_ext. intros i j Hi Hj.
  mat_entries. rewrite !entry_weighted_sum by done. rewrite !map_map.
  rewrite (map_ext (λ L, entry (dissipator n L R) i j)
             (λ L, Cadd (entry (Mmul n n n (Mmul n n n L R) (Madjoint n L)) i j)
                     (Cmul minus_half
                        (Cadd (entry (Mmul n n n (Mmul n n n (Madjoint n L) L) R) i j)
                              (entry (Mmul n n n R (Mmul n n n (Madjoint n L) L)) i j))))).
  - rewrite wsumC_add, wsumC_scale, wsumC_add. ring.
  - intros L. unfold dissipator, anticommutator. mat_entries.
    rewrite minus_half_eq. ring.
Qed.

Lemma py_neg_arr a : py_neg (PyArr a) = Ok (PyArr (np_negative a)).
Proof. done. Qed.
Lemma py_matmul_arr a b : py_matmul (PyArr a) (PyArr b) = PyArr <$> np_matmul a b.
Proof. done. Qed.
Lemma py_tensordot_arr a b : py_tensordot (PyArr a) (PyArr b) = PyArr <$> np_tensordot a b.
Proof. done. Qed.
Lemma py_tensordot_m1_m3_arr a b :
  py_tensordot_m1_m3 (PyArr a) (PyArr b) = PyArr <$> np_tensordot_m1_m3 a b.
Proof. done. Qed.
Lemma py_dot_arr a b : py_dot (PyArr a) (PyArr b) = PyArr <$> np_dot a b.
Proof. done. Qed.
Lemma py_getitem_list l i x : l !! i = Some x → py_getitem (PyList l) i = Ok x.
Proof. intros H. unfold py_getitem. by rewrite H. Qed.

Lemma lindblad_hamiltonian self n k sH Hs Hd :
  length sH = k → length Hs = k → Forall (is_matrix n n) Hs → is_matrix n n Hd →
  getattr self "_hamiltonian_operators" = Ok (PyArr (array3 k n n Hs)) →
  getattr self "_drift" = Ok (PyArr (array2 n n Hd)) →
  DenseLindbladCollection.evaluate_hamiltonian self (PyArr (array1 sH))
  = Ok (PyArr (array2 n n (generator n sH Hs Hd))).
Proof.
  intros Hs1 Hk Hall Hd1 Hh Hdr. unfold DenseLindbladCollection.evaluate_hamiltonian.
  rewrite Hh. py_steps. rewrite py_tensordot_arr, np_tensordot_array3 by done. py_steps.
  unfold BaseOperatorCollection.drift. rewrite Hdr. py_steps.
  rewrite py_add_arr, np_add_array2 by (done || apply is_matrix_weighted_sum). done.
Qed.

Ltac is_mat :=
  first [ assumption | apply is_matrix_mk | apply is_matrix_weighted_sum
        | (apply Forall_is_matrix_map; intros;
           first [apply is_matrix_mk | apply is_matrix_weighted_sum]) ].

Lemma lindblad_rhs_single n k m sH g Hs Hd Ls R :
  length sH = k → length Hs = k → Forall (is_matrix n n) Hs → is_matrix n n Hd →
  length g = m → length Ls = m → Forall (is_matrix n n) Ls → is_matrix n n R →
  (self ← DenseLindbladCollection.__init__ (new DenseLindbladCollection)
            (PyArr (array3 k n n Hs)) (PyArr (array2 n n Hd)) (PyArr (array3 m n n Ls));
   DenseLindbladCollection.evaluate_rhs self
     (PyList [PyArr (array1 sH); PyArr (array1 g)]) (PyArr (array2 n n R)))
  = Ok (PyArr (array2 n n (lindblad_rhs n (generator n sH Hs Hd) g Ls R))).
Proof.
  intros HsH Hk HHs HHd Hg Hm HLs HR.
  rewrite lindblad_init by done. py_steps.
  unfold DenseLindbladCollection.evaluate_rhs.
  rewrite (py_getitem_list _ 0 (PyArr (array1 sH))) by done. py_steps.
  rewrite (lindblad_hamiltonian _ n k sH Hs Hd) by (done || by py_steps).
  py_steps. rewrite py_mul_num_arr. py_steps. cbn [is_none negb].
  rewrite (py_getitem_list _ 1 (PyArr (array1 g))) by done. py_steps.
  rewrite py_tensordot_arr, np_tensordot_array3
    by (rewrite ?length_map; done || is_mat).
  py_steps. rewrite py_mul_num_arr. py_steps.
  rewrite !np_scale_array2 by is_mat.
  rewrite py_add_arr, np_add_array2 by is_mat. py_steps.
  rewrite py_matmul_arr, np_matmul_array2 by is_mat. py_steps.
  rewrite py_neg_arr. py_steps. rewrite np_negative_array2 by is_mat.
  rewrite py_add_arr, np_add_array2 by is_mat. py_steps.
  rewrite py_matmul_arr, np_matmul_array2 by is_mat. py_steps.
  cbn [py_shape array2 shape]. py_steps. rewrite decide_False by done. py_steps.
  rewrite py_matmul_arr, np_matmul_array2_array3
    by (rewrite ?length_map; done || is_mat).
  py_steps.
  rewrite py_matmul_arr, np_matmul_array3
    by (rewrite ?length_map; done || is_mat).
  py_steps.
  rewrite py_tensordot_m1_m3_arr, np_tensordot_m1_m3_array3.
  2: done.
  2: by rewrite length_zip_with, !length_map, Hm, Nat.min_id.
  2: { rewrite map_map, zip_with_map_same_r. is_mat. }
  py_steps.
  rewrite py_add_arr, np_add_array2 by is_mat. py_steps.
  rewrite py_add_arr, np_add_array2 by is_mat. py_steps.
  do 3 f_equal. rewrite map_map, zip_with_map_same_r.
  apply lindblad_algebra.
Qed.

Lemma unitary_algebra n H R :
  Msub n n (Mmul n n n (Mscale n n minus_1j H) R) (Mmul n n n R (Mscale n n minus_1j H))
  = unitary_rhs n H R.
Proof.
  rewrite Mmul_scale_l, Mmul_scale_r. unfold unitary_rhs, commutator.
  unfold Msub, Mscale. apply mk_matrix_ext. intros i j Hi Hj.
  rewrite !entry_mk_matrix by done. ring.
Qed.

Lemma lindblad_rhs_no_dissipators n k sH s1 Hs Hd R :
  length sH = k → length Hs = k → Forall (is_matrix n n) Hs → is_matrix n n Hd →
  is_matrix n n R →
  (self ← DenseLindbladCollection.__init__ (new DenseLindbladCollection)
            (PyArr (array3 k n n Hs)) (PyArr (array2 n n Hd)) PyNone;
   DenseLindbladCollection.evaluate_rhs self
     (PyList [PyArr (array1 sH); s1]) (PyArr (array2 n n R)))
  = Ok (PyArr (array2 n n (unitary_rhs n (generator n sH Hs Hd) R))).
Proof.
  intros HsH Hk HHs HHd HR.
  unfold DenseLindbladCollection.__init__. cbn [is_none negb].
  unfold BaseOperatorCollection.set_drift. py_steps.
  unfold DenseLindbladCollection.evaluate_rhs.
  rewrite (py_getitem_list _ 0 (PyArr (array1 sH))) by done. py_steps.
  rewrite (lindblad_hamiltonian _ n k sH Hs Hd) by (done || by py_steps).
  py_steps. rewrite py_mul_num_arr. py_steps. cbn [is_none negb].
  rewrite !np_scale_array2 by is_mat.
  rewrite !py_dot_arr, !np_dot_array2 by is_mat. py_steps.
  rewrite py_sub_arr, np_subtract_array2 by is_mat. py_steps.
  by rewrite unitary_algebra.
Qed.

(** *** Batches of density matrices *)

Lemma stack_ok_flat m n Xss :
  stack_ok m n Xss →
  Forall (λ xs : list (list C), length xs = m ∧ Forall (λ x, length x = n * n) xs)
         (map (map (@concat C)) Xss).
Proof.
  intros H. apply Forall_map. eapply Forall_impl; [exact H|].
  intros Xs [Hm Hall]. cbn beta. split; [by rewrite length_map|].
  by apply Forall_is_matrix_length.
Qed.

Lemma np_matmul_batch_axis b m n Rs Cs :
  length Rs = b → Forall (is_matrix n n) Rs →
  length Cs = m → Forall (is_matrix n n) Cs →
  np_matmul (mk_nd [b; 1; n; n] (concat (map (@concat C) Rs))) (array3 m n n Cs)
  = Ok (array4 b m n n (map (λ R, map (Mmul n n n R) Cs) Rs)).
Proof.
  intros Hb HRs Hm HCs. unfold array3, array4.
  rewrite np_matmul_flat_4d_3d
    by (rewrite ?length_map; done || by apply Forall_is_matrix_length).
  do 4 f_equal. rewrite !map_map. apply Forall_fmap_ext_1.
  eapply Forall_impl; [exact HRs|]. intros R HR. cbn beta.
  rewrite !map_map. apply Forall_fmap_ext_1.
  eapply Forall_impl; [exact HCs|]. intros L HL. cbn beta. by rewrite mm_spec.
Qed.

Lemma zip_with_mm_spec n As Bs :
  Forall (is_matrix n n) As → Forall (is_matrix n n) Bs →
  zip_with (mm n n n) (map (@concat C) As) (map (@concat C) Bs)
  = map (@concat C) (zip_with (Mmul n n n) As Bs).
Proof.
  intros HA. revert Bs. induction HA as [|A As HAm _ IH]; intros Bs HB; [done|].
  destruct HB as [|B Bs HBm HBs]; [done|].
  cbn [map zip_with]. rewrite IH by done. by rewrite mm_spec.
Qed.

Lemma np_matmul_array3_array4 b m n Ls Xss :
  length Ls = m → Forall (is_matrix n n) Ls →
  length Xss = b → stack_ok m n Xss →
  np_matmul (array3 m n n Ls) (array4 b m n n Xss)
  = Ok (array4 b m n n (map (zip_with (Mmul n n n) Ls) Xss)).
Proof.
  intros Hm HLs Hb HX. unfold array3, array4.
  rewrite np_matmul_flat_3d_4d
    by (rewrite ?length_map; done || by apply Forall_is_matrix_length
        || by apply stack_ok_flat).
  do 4 f_equal. rewrite !map_map. apply Forall_fmap_ext_1.
  eapply Forall_impl; [exact HX|]. intros Xs [HXm HXs]. cbn beta.
  by apply zip_with_mm_spec.
Qed.

Lemma np_tensordot_m1_m3_array4 g b m n Xss :
  length g = m → length Xss = b → stack_ok m n Xss →
  np_tensordot_m1_m3 (array1 g) (array4 b m n n Xss)
  = Ok (array3 b n n (map (weighted_sum n n g) Xss)).
Proof.
  intros Hg Hb HX. unfold array4, array3.
  rewrite np_tensordot_m1_m3_flat_4d
    by (rewrite ?length_map; done || by apply stack_ok_flat).
  do 3 f_equal. rewrite !map_map. apply Forall_fmap_ext_1.
  eapply Forall_impl; [exact HX|]. intros Xs [HXm HXs]. cbn beta.
  by apply lincomb_weighted_sum.
Qed.

Lemma np_add_array3 b n As Bs :
  length As = b → Forall (is_matrix n n) As →
  length Bs = b → Forall (is_matrix n n) Bs →
  np_add (array3 b n n As) (array3 b n n Bs)
  = Ok (array3 b n n (zip_with (Madd n n) As Bs)).
Proof.
  intros HA HAs HB HBs. unfold np_add, array3.
  rewrite np_binop_same.
  2:{ rewrite size_3, (length_concat_const (n * n))
         by (by apply Forall_is_matrix_length). rewrite length_map. by f_equal. }
  2:{ rewrite size_3, (length_concat_const (n * n))
         by (by apply Forall_is_matrix_length). rewrite length_map. by f_equal. }
  do 2 f_equal. clear HA HB. revert Bs HBs.
  induction HAs as [|A As HAm HAs IH]; intros Bs HBs; [done|].
  destruct HBs as [|B Bs HBm HBs];
    [cbn [map zip_with concat]; by rewrite zip_with_nil_r|].
  cbn [map zip_with concat].
  rewrite zip_with_app by (by rewrite !(length_concat_matrix n n)).
  rewrite IH by done. by rewrite concat_Madd.
Qed.

Lemma axis_to_front_one e b (xs : list (list C)) :
  length xs = b → Forall (λ x, length x = e) xs →
  axis_to_front 1 b e (concat xs) = map (λ x, x) xs.
Proof.
  intros Hb Hall.
  pose proof (axis_to_front_stack e b 1 [xs]) as H.
  cbn [concat] in H. rewrite !app_nil_r in H. rewrite H; [|done|by repeat constructor].
  cbn [map concat]. rewrite map_id.
  transitivity (map (λ j, nth j xs []) (seq 0 b)).
  - apply map_ext. intros. apply app_nil_r.
  - rewrite <- Hb. apply map_seq_nth.
Qed.

Lemma py_batch_axis_array3 b n Rs :
  length Rs = b → Forall (is_matrix n n) Rs →
  py_batch_axis (PyArr (array3 b n n Rs))
  = Ok (PyArr (mk_nd [b; 1; n; n] (concat (map (@concat C) Rs)))).
Proof.
  intros Hb HRs. unfold py_batch_axis, array3. cbn [shape].
  change (tuple_index [b; n; n] 0) with (Ok (A:=nat) b).
  change (tuple_index [b; n; n] 1) with (Ok (A:=nat) n).
  change (tuple_index [b; n; n] 2) with (Ok (A:=nat) n). py_steps.
  unfold np_broadcast_to. cbn [shape data length].
  destruct (decide (3 ≤ 4)); [|lia].
  change (pad_shape 4 [b; n; n]) with [1; b; n; n].
  rewrite decide_True by apply broadcast_dims_same.
  rewrite expand_same.
  2:{ rewrite (length_concat_const (n * n)) by (by apply Forall_is_matrix_length).
      rewrite length_map. simpl. rewrite !Nat.mul_1_r, Nat.add_0_r. by f_equal. }
  py_steps. unfold np_transpose_1023. cbn [shape data]. py_steps.
  rewrite axis_to_front_one
    by (rewrite ?length_map; done || by apply Forall_is_matrix_length).
  by rewrite map_id.
Qed.

Lemma map_zip_with_Madd {A} n (F G : A → matrix) l :
  zip_with (Madd n n) (map F l) (map G l) = map (λ x, Madd n n (F x) (G x)) l.
Proof. apply zip_with_map_same. Qed.

Lemma py_shape_array3 b r c Xs : py_shape (PyArr (array3 b r c Xs)) = Ok [b; r; c].
Proof. done. Qed.

Lemma lindblad_rhs_batch n k m b sH g Hs Hd Ls Rs :
  length sH = k → length Hs = k → Forall (is_matrix n n) Hs → is_matrix n n Hd →
  length g = m → length Ls = m → Forall (is_matrix n n) Ls →
  length Rs = b → Forall (is_matrix n n) Rs →
  (self ← DenseLindbladCollection.__init__ (new DenseLindbladCollection)
            (PyArr (array3 k n n Hs)) (PyArr (array2 n n Hd)) (PyArr (array3 m n n Ls));
   DenseLindbladCollection.evaluate_rhs self
     (PyList [PyArr (array1 sH); PyArr (array1 g)]) (PyArr (array3 b n n Rs)))
  = Ok (PyArr (array3 b n n (map (lindblad_rhs n (generator n sH Hs Hd) g Ls) Rs))).
Proof.
  intros HsH Hk HHs HHd Hg Hm HLs Hb HRs.
  rewrite lindblad_init by done. py_steps.
  unfold DenseLindbladCollection.evaluate_rhs.
  rewrite (py_getitem_list _ 0 (PyArr (array1 sH))) by done. py_steps.
  rewrite (lindblad_hamiltonian _ n k sH Hs Hd) by (done || by py_steps).
  py_steps. rewrite py_mul_num_arr. py_steps. cbn [is_none negb].
  rewrite (py_getitem_list _ 1 (PyArr (array1 g))) by done. py_steps.
  rewrite py_tensordot_arr, np_tensordot_array3
    by (rewrite ?length_map; done || is_mat).
  py_steps. rewrite py_mul_num_arr. py_steps.
  rewrite !np_scale_array2 by is_mat.
  rewrite py_add_arr, np_add_array2 by is_mat. py_steps.
  rewrite py_matmul_arr, np_matmul_array2_array3 by (done || is_mat). py_steps.
  rewrite py_neg_arr. py_steps. rewrite np_negative_array2 by is_mat.
  rewrite py_add_arr, np_add_array2 by is_mat. py_steps.
  rewrite py_matmul_arr, np_matmul_array3_array2 by (done || is_mat). py_steps.
  rewrite py_shape_array3. py_steps.
  rewrite decide_True by done.
  rewrite py_batch_axis_array3 by done. py_steps.
  rewrite py_matmul_arr, np_matmul_batch_axis
    by (rewrite ?length_map; done || is_mat).
  py_steps.
  rewrite py_matmul_arr, np_matmul_array3_array4.
  2,3: done.
  2: by rewrite length_map.
  2:{ apply Forall_map, Forall_forall. intros R _. split; [by rewrite !length_map|is_mat]. }
  py_steps.
  rewrite py_tensordot_m1_m3_arr, np_tensordot_m1_m3_array4.
  2: done.
  2: by rewrite !length_map.
  2:{ apply Forall_map, Forall_map, Forall_forall. intros R _. cbn beta. split.
      - by rewrite length_zip_with, !length_map, Hm, Nat.min_id.
      - rewrite map_map, zip_with_map_same_r. is_mat. }
  py_steps.
  rewrite py_add_arr, np_add_array3; [|by rewrite length_map|is_mat|by rewrite length_map|is_mat].
  py_steps. rewrite map_zip_with_Madd.
  rewrite py_add_arr, np_add_array3;
    [|by rewrite length_map|is_mat|by rewrite !length_map|].
  2:{ rewrite !map_map. is_mat. }
  py_steps.
  do 3 f_equal. rewrite !map_map, map_zip_with_Madd.
  apply map_ext. intros R. rewrite map_map, zip_with_map_same_r.
  apply lindblad_algebra.
Qed.

(** *** Packing and unpacking density matrices *)

Lemma chunks_singletons {A} (l : list A) :
  chunks 1 (length l) l = map (λ x, [x]) l.
Proof. induction l as [|x l IH]; simpl; [done|]. rewrite drop_0. by f_equal. Qed.

Lemma concat_singletons {A} (l : list A) : concat (map (λ x, [x]) l) = l.
Proof. induction l; simpl; [done|]. by f_equal. Qed.

Lemma concat_map_singleton {A B} (f : A → B) l : concat (map (λ x, [f x]) l) = map f l.
Proof. induction l; simpl; [done|]. by f_equal. Qed.

Lemma package_def_eq y : package_density_matrices_def y = Ok (PyObjArr [1] [y]).
Proof. done. Qed.
Lemma unpackage_def_eq x : unpackage_density_matrices_def (PyObjArr [1] [x]) = Ok x.
Proof. done. Qed.

Lemma package_batch k n Rs :
  0 < k → length Rs = k → Forall (is_matrix n n) Rs →
  package_density_matrices (PyArr (array3 k n n Rs))
  = Ok (PyObjArr [k; 1] (map (λ R, PyArr (array2 n n R)) Rs)).
Proof.
  intros Hk Hlen Hall. unfold package_density_matrices, np_vectorize.
  rewrite py_shape_array3. py_steps.
  unfold split_core. cbn [length]. rewrite decide_True by lia.
  change (take (3 - 2) [k; n; n]) with [k]. change (drop (3 - 2) [k; n; n]) with [n; n].
  cbn [update_dim_sizes]. rewrite lookup_empty, lookup_insert_eq, decide_True by done.
  unfold core_blocks, array3. cbn [data].
  rewrite size_2. replace (size [k]) with k by (simpl; lia).
  rewrite chunks_stack by done. rewrite map_map.
  destruct Rs as [|R0 Rs]; [simpl in Hlen; lia|].
  cbn [map]. rewrite package_def_eq. py_steps.
  cbn [result_entries update_dim_sizes].
  rewrite lookup_insert_ne, lookup_empty by done.
  rewrite (mapM_fmap_Ok _ _ (λ R, [PyArr (array2 n n R)])).
  - py_steps. cbn [app concat]. do 2 f_equal.
    by rewrite concat_map_singleton.
  - apply Forall_forall. intros R _. done.
Qed.

Lemma unpackage_batch k n Rs :
  0 < k → length Rs = k → Forall (is_matrix n n) Rs →
  unpackage_density_matrices (PyObjArr [k; 1] (map (λ R, PyArr (array2 n n R)) Rs))
  = Ok (PyArr (array3 k n n Rs)).
Proof.
  intros Hk Hlen Hall. unfold unpackage_density_matrices, np_vectorize.
  cbn [py_shape]. py_steps.
  unfold split_core. cbn [length]. rewrite decide_True by lia.
  change (take (2 - 1) [k; 1]) with [k]. change (drop (2 - 1) [k; 1]) with [1].
  cbn [update_dim_sizes]. rewrite lookup_empty.
  unfold core_blocks.
  change (size [1]) with 1. replace (size [k]) with k by (simpl; lia).
  rewrite <- Hlen at 1. rewrite <- (length_map (λ R, PyArr (array2 n n R))).
  rewrite chunks_singletons, !map_map.
  destruct Rs as [|R0 Rs]; [simpl in Hlen; lia|].
  cbn [map]. rewrite unpackage_def_eq. py_steps.
  cbn [result_entries array2 shape data update_dim_sizes].
  rewrite lookup_insert_ne, lookup_empty, lookup_insert_eq, decide_True by done.
  rewrite (mapM_fmap_Ok _ _ (λ R : matrix, @concat C R)).
  - py_steps. done.
  - apply Forall_forall. intros R _. rewrite unpackage_def_eq. py_steps.
    unfold numeric_entries. cbn [result_entries array2 shape data].
    by rewrite decide_True.
Qed.

(** *** Concrete evaluation *)

Ltac qc_eq :=
  repeat first
    [ reflexivity
    | match goal with |- @eq Qc _ _ => apply Qc_is_canon; reflexivity end
    | progress f_equal ].

Ltac py_eval := vm_compute; qc_eq.


Lemma is_matrix_2 a b c d : is_matrix 2 2 [[a; b]; [c; d]].
Proof. split; [done|]. by repeat constructor. Qed.

(** C1 (as amended): for a dense collection built from the operators [Gs]
    and the drift [Gd], [evaluate_generator(s)] is exactly the matrix
    [Σ_j s_j·G_j + G_d], and exactly [Σ_j s_j·G_j] when the drift is [None];
    for a sparse collection of at least one operator it is exactly the same
    sum taken over the operators and the drift as stored, that is rounded to
    [decimals] decimal places. *)
Theorem C1_evaluate_generator n k d s Gs Gd :
  length s = k → length Gs = k → Forall (is_matrix n n) Gs → is_matrix n n Gd →
  (self ← DenseOperatorCollection.__init__ (new DenseOperatorCollection)
            (PyArr (array3 k n n Gs)) (PyArr (array2 n n Gd));
   evaluate_generator self (PyArr (array1 s)))
  = Ok (PyArr (array2 n n (generator n s Gs Gd))) ∧
  (self ← DenseOperatorCollection.__init__ (new DenseOperatorCollection)
            (PyArr (array3 k n n Gs)) PyNone;
   evaluate_generator self (PyArr (array1 s)))
  = Ok (PyArr (array2 n n (weighted_sum n n s Gs))) ∧
  (0 < k →
   (self ← SparseOperatorCollection.__init__ (new SparseOperatorCollection)
             (PyArr (array3 k n n Gs)) (PyArr (array2 n n Gd)) d;
    evaluate_generator self (PyArr (array1 s)))
   = Ok (PyCsr (array2 n n
          (generator n s (map (Mround n n d) Gs) (Mround n n d Gd))))).
Proof.
  intros Hs HG Hall Hd. split; [|split].
  - by apply dense_generator.
  - by apply dense_generator_no_drift.
  - intros Hk. by apply sparse_generator.
Qed.

Lemma C1_evaluate_generator_witness :
  (self ← DenseOperatorCollection.__init__ (new DenseOperatorCollection)
            (PyArr (array3 1 2 2 [sigma_x])) (PyArr (array2 2 2 sigma_z));
   evaluate_generator self (PyArr (array1 [Cq 1 2])))
  = Ok (PyArr (array2 2 2 (generator 2 [Cq 1 2] [sigma_x] sigma_z))).
Proof.
  apply (C1_evaluate_generator 2 1 10 [Cq 1 2] [sigma_x] sigma_z);
    [reflexivity | reflexivity | repeat constructor | repeat constructor].
Defined.


(** C1 as stated fails: three operators [[4e-11]] with unit signal values and
    the default ten decimals are all stored as zero, so the sparse generator
    is [0] while the sum is [1.2e-10], further than [1e-10] away. *)
Lemma C1_sparse_rounding_counterexample :
  (self ← SparseOperatorCollection.__init__ (new SparseOperatorCollection)
            (PyArr (array3 3 1 1 [tiny; tiny; tiny])) (PyArr (array2 1 1 [[Cz 0]])) 10;
   evaluate_generator self (PyArr (array1 [Cz 1; Cz 1; Cz 1])))
  = Ok (PyCsr (array2 1 1 [[Cz 0]])) ∧
  generator 1 [Cz 1; Cz 1; Cz 1] [tiny; tiny; tiny] [[Cz 0]] = [[Cq 12 100000000000]] ∧
  ¬ Cclose 10 (Cz 0) (Cq 12 100000000000).
Proof.
  split; [py_eval|split; [py_eval|]].
  intros [H _]. vm_compute in H. by apply H.
Qed.

Lemma dense_generator_opt n k s Gs od :
  length s = k → length Gs = k → Forall (is_matrix n n) Gs → drift_ok n od →
  (self ← DenseOperatorCollection.__init__ (new DenseOperatorCollection)
            (PyArr (array3 k n n Gs)) (drift_arg n od);
   evaluate_generator self (PyArr (array1 s)))
  = Ok (PyArr (array2 n n (generator_opt n s Gs od))).
Proof.
  intros. destruct od; [by apply dense_generator|by apply dense_generator_no_drift].
Qed.

Lemma is_matrix_generator_opt n s Gs od : is_matrix n n (generator_opt n s Gs od).
Proof. destruct od; [apply is_matrix_mk|apply is_matrix_weighted_sum]. Qed.

Lemma dense_rhs_opt sparse_rhs n k s Gs od y ry :
  length s = k → length Gs = k → Forall (is_matrix n n) Gs → drift_ok n od →
  np_dot (array2 n n (generator_opt n s Gs od)) y = Ok ry →
  np_matmul (array2 n n (generator_opt n s Gs od)) y = Ok ry →
  let init := DenseOperatorCollection.__init__ (new DenseOperatorCollection)
                (PyArr (array3 k n n Gs)) (drift_arg n od) in
  (self ← init; evaluate_rhs sparse_rhs self (PyArr (array1 s)) (PyArr y)) = Ok (PyArr ry) ∧
  (self ← init; g ← evaluate_generator self (PyArr (array1 s)); py_at g (PyArr y))
    = Ok (PyArr ry).
Proof.
  intros Hs HG Hall Hd Hdot Hmat init.
  pose proof (dense_generator_opt n k s Gs od Hs HG Hall Hd) as Hgen.
  fold init in Hgen. subst init. rewrite dense_init in *. rewrite bind_Ok in *.
  split.
  - unfold evaluate_rhs. rewrite !cls_setattr. cbn [cls new].
    unfold DenseOperatorCollection_evaluate_rhs.
    rewrite Hgen. py_steps. unfold py_dot. by rewrite Hdot.
  - py_steps. rewrite Hgen. py_steps. unfold py_at. by rewrite Hmat.
Qed.

(** C2: for a dense collection (with or without drift), a signal vector
    [s] and a state that is a vector or a matrix of stacked columns,
    [evaluate_rhs(s, y)] and [evaluate_generator(s) @ y] return the same
    value, the product of the generator matrix with the state; so they do for
    a sparse collection of at least one operator and a state vector. For a
    sparse collection and a matrix of stacked columns
    [evaluate_generator(s) @ y] is that product as well, but [evaluate_rhs]
    returns no value: it contracts the one-dimensional signal values with
    the operators without the reshaping that [evaluate_generator] does, and
    the drift cannot be added to the result (operators of dimension
    [n > 1]). *)
Theorem C2_rhs_against_generator_times_state sparse_rhs n p k d s Gs od Gd v Y :
  length s = k → length Gs = k → Forall (is_matrix n n) Gs →
  drift_ok n od → is_matrix n n Gd → length v = n → is_matrix n p Y →
  let dense := DenseOperatorCollection.__init__ (new DenseOperatorCollection)
                 (PyArr (array3 k n n Gs)) (drift_arg n od) in
  let sparse := SparseOperatorCollection.__init__ (new SparseOperatorCollection)
                  (PyArr (array3 k n n Gs)) (PyArr (array2 n n Gd)) d in
  let G := generator_opt n s Gs od in
  let G' := generator n s (map (Mround n n d) Gs) (Mround n n d Gd) in
  let sv := PyArr (array1 s) in
  ((self ← dense; evaluate_rhs sparse_rhs self sv (PyArr (array1 v)))
     = Ok (PyArr (array1 (Mvec n n G v))) ∧
   (self ← dense; g ← evaluate_generator self sv; py_at g (PyArr (array1 v)))
     = Ok (PyArr (array1 (Mvec n n G v)))) ∧
  ((self ← dense; evaluate_rhs sparse_rhs self sv (PyArr (array2 n p Y)))
     = Ok (PyArr (array2 n p (Mmul n n p G Y))) ∧
   (self ← dense; g ← evaluate_generator self sv; py_at g (PyArr (array2 n p Y)))
     = Ok (PyArr (array2 n p (Mmul n n p G Y)))) ∧
  (0 < k →
   ((self ← sparse; evaluate_rhs sparse_rhs self sv (PyArr (array1 v)))
      = Ok (PyArr (array1 (Mvec n n G' v))) ∧
    (self ← sparse; g ← evaluate_generator self sv; py_at g (PyArr (array1 v)))
      = Ok (PyArr (array1 (Mvec n n G' v)))) ∧
   ((1 < n →
     is_ok (self ← sparse; evaluate_rhs sparse_rhs self sv (PyArr (array2 n p Y)))
       = false) ∧
    (self ← sparse; g ← evaluate_generator self sv; py_at g (PyArr (array2 n p Y)))
      = Ok (PyArr (array2 n p (Mmul n n p G' Y))))).
Proof.
  intros Hs HG Hall Hod Hd Hv HY dense sparse G G' sv. split; [|split].
  - apply dense_rhs_opt; try done.
    + apply np_dot_array2_1; [apply is_matrix_generator_opt|done].
    + apply np_matmul_array2_1; [apply is_matrix_generator_opt|done].
  - apply dense_rhs_opt; try done.
    + apply np_dot_array2; [apply is_matrix_generator_opt|done].
    + apply np_matmul_array2; [apply is_matrix_generator_opt|done].
  - intros Hk. split; [by apply sparse_rhs_vector|]. split.
    + intros Hn. subst sparse sv.
      by rewrite (sparse_rhs_matrix_raises sparse_rhs n k d s Gs Gd (array2 n p Y) n p).
    + by apply sparse_generator_matrix.
Qed.

Lemma C2_rhs_against_generator_times_state_witness :
  is_ok (self ← SparseOperatorCollection.__init__ (new SparseOperatorCollection)
                  (PyArr (array3 1 2 2 [sigma_x])) (PyArr (array2 2 2 sigma_z)) 10;
         evaluate_rhs (λ _ _ _, Ok PyNone) self (PyArr (array1 [Cq 1 2]))
           (PyArr (array2 2 2 sigma_x))) = false ∧
  (self ← SparseOperatorCollection.__init__ (new SparseOperatorCollection)
            (PyArr (array3 1 2 2 [sigma_x])) (PyArr (array2 2 2 sigma_z)) 10;
   g ← evaluate_generator self (PyArr (array1 [Cq 1 2])); py_at g (PyArr (array2 2 2 sigma_x)))
  = Ok (PyArr (array2 2 2 (Mmul 2 2 2
         (generator 2 [Cq 1 2] (map (Mround 2 2 10) [sigma_x]) (Mround 2 2 10 sigma_z))
         sigma_x))).
Proof.
  refine (_ (C2_rhs_against_generator_times_state (λ _ _ _, Ok PyNone)
               2 2 1 10 [Cq 1 2] [sigma_x] (Some sigma_z) sigma_z [Cz 1; Cz 0] sigma_x
               _ _ _ _ _ _ _));
    [ intros (_ & _ & H); destruct H as (_ & Hr & Hg); [lia|];
      split; [apply Hr; lia|exact Hg]
    | reflexivity | reflexivity | repeat constructor | repeat constructor
    | repeat constructor | reflexivity | repeat constructor ].
Defined.

(** C3 (as amended): for a dense Lindblad collection with dissipators,
    [evaluate_rhs([s_H, γ], ρ)] is
    [−i[H,ρ] + Σ_j γ_j (L_j ρ L_j† − ½{L_j†L_j, ρ})] with [H = Σ_j s_H,j·H_j + H_d],
    for one matrix [ρ] and, matrix by matrix, for a batch; without
    dissipators and for one matrix it is [−i[H,ρ]]; and in the scenario
    [L = [[0,1],[0,0]]], [γ = [1]], [s_H = [0]], [ρ = [[1,0],[0,0]]] (zero
    drift) the result is the zero matrix. *)
Theorem C3_lindblad_rhs n k m b sH g s1 Hs Hd Ls R Rs :
  length sH = k → length Hs = k → Forall (is_matrix n n) Hs → is_matrix n n Hd →
  length g = m → length Ls = m → Forall (is_matrix n n) Ls →
  is_matrix n n R → length Rs = b → Forall (is_matrix n n) Rs →
  let H := generator n sH Hs Hd in
  let with_dissipators :=
    DenseLindbladCollection.__init__ (new DenseLindbladCollection)
      (PyArr (array3 k n n Hs)) (PyArr (array2 n n Hd)) (PyArr (array3 m n n Ls)) in
  let without_dissipators :=
    DenseLindbladCollection.__init__ (new DenseLindbladCollection)
      (PyArr (array3 k n n Hs)) (PyArr (array2 n n Hd)) PyNone in
  let signals := PyList [PyArr (array1 sH); PyArr (array1 g)] in
  (self ← with_dissipators;
   DenseLindbladCollection.evaluate_rhs self signals (PyArr (array2 n n R)))
  = Ok (PyArr (array2 n n (lindblad_rhs n H g Ls R))) ∧
  (self ← with_dissipators;
   DenseLindbladCollection.evaluate_rhs self signals (PyArr (array3 b n n Rs)))
  = Ok (PyArr (array3 b n n (map (lindblad_rhs n H g Ls) Rs))) ∧
  (self ← without_dissipators;
   DenseLindbladCollection.evaluate_rhs self (PyList [PyArr (array1 sH); s1])
     (PyArr (array2 n n R)))
  = Ok (PyArr (array2 n n (unitary_rhs n H R))) ∧
  (self ← DenseLindbladCollection.__init__ (new DenseLindbladCollection)
            (PyArr (array3 1 2 2 [sigma_x])) (PyArr (array2 2 2 zero2))
            (PyArr (array3 1 2 2 [lowering]));
   DenseLindbladCollection.evaluate_rhs self
     (PyList [PyArr (array1 [Cz 0]); PyArr (array1 [Cz 1])]) (PyArr (array2 2 2 ground)))
  = Ok (PyArr (array2 2 2 zero2)).
Proof.
  intros. split; [|split; [|split]].
  - by apply lindblad_rhs_single.
  - by apply lindblad_rhs_batch.
  - by apply lindblad_rhs_no_dissipators.
  - py_eval.
Qed.

Lemma C3_lindblad_rhs_witness :
  (self ← DenseLindbladCollection.__init__ (new DenseLindbladCollection)
            (PyArr (array3 1 2 2 [sigma_x])) (PyArr (array2 2 2 sigma_z))
            (PyArr (array3 1 2 2 [lowering]));
   DenseLindbladCollection.evaluate_rhs self
     (PyList [PyArr (array1 [Cq 1 2]); PyArr (array1 [Cz 1])]) (PyArr (array2 2 2 ground)))
  = Ok (PyArr (array2 2 2
         (lindblad_rhs 2 (generator 2 [Cq 1 2] [sigma_x] sigma_z) [Cz 1] [lowering] ground))).
Proof.
  apply (C3_lindblad_rhs 2 1 1 1 [Cq 1 2] [Cz 1] PyNone [sigma_x] sigma_z [lowering] ground [ground]);
    [reflexivity | reflexivity | repeat constructor | repeat constructor
    | reflexivity | reflexivity | repeat constructor | repeat constructor
    | reflexivity | repeat constructor].
Defined.

(** C3 as stated fails: in its scenario the result is not [[-1,0],[0,1]]. *)
Lemma C3_scenario_counterexample :
  (self ← DenseLindbladCollection.__init__ (new DenseLindbladCollection)
            (PyArr (array3 1 2 2 [sigma_x])) (PyArr (array2 2 2 zero2))
            (PyArr (array3 1 2 2 [lowering]));
   DenseLindbladCollection.evaluate_rhs self
     (PyList [PyArr (array1 [Cz 0]); PyArr (array1 [Cz 1])]) (PyArr (array2 2 2 ground)))
  ≠ Ok (PyArr (array2 2 2 [[Cz (-1); Cz 0]; [Cz 0; Cz 1]])).
Proof. vm_compute. intros H. discriminate H. Qed.

Lemma vectorized_init_never_ok vc vd self H d L :
  is_ok (DenseVectorizedLindbladCollection.__init__ vc vd self H d L) = false.
Proof.
  unfold DenseVectorizedLindbladCollection.__init__, to_array.
  set (times_minus_1j := py_mul (PyNum minus_1j)). simpl.
  destruct (vc H) as [v|e]; simpl; [|done].
  destruct (times_minus_1j v) as [w|e]; simpl; [|done].
  destruct (is_none L); simpl.
  - unfold DenseVectorizedLindbladCollection.lookup_name.
    rewrite lookup_insert_eq. simpl.
    rewrite !lookup_insert_ne by done. rewrite lookup_singleton_ne by done. done.
  - destruct (vd L) as [x|e]; simpl; [|done].
    destruct (py_append_0 w x) as [t|e]; simpl; [|done].
    unfold DenseVectorizedLindbladCollection.lookup_name.
    rewrite lookup_insert_eq. simpl.
    rewrite !lookup_insert_ne by done. rewrite lookup_singleton_ne by done. done.
Qed.

Lemma vectorized_init_name_error a vd self H d :
  DenseVectorizedLindbladCollection.__init__ (λ _, Ok (PyArr a)) vd self H d PyNone
  = Raise NameError.
Proof.
  unfold DenseVectorizedLindbladCollection.__init__, to_array. simpl.
  unfold DenseVectorizedLindbladCollection.lookup_name.
  rewrite lookup_insert_eq. simpl.
  rewrite !lookup_insert_ne by done. rewrite lookup_singleton_ne by done. done.
Qed.

(** C5: the constructor of the vectorized Lindblad collection never returns
    an instance, whatever its arguments and whatever [vec_commutator] and
    [vec_dissipator] compute: when the vectorized Hamiltonian terms are
    obtained, looking up the unbound name [vec_drift] raises [NameError]. *)
Theorem C5_vectorized_init_raises vc vd self H d L a :
  is_ok (DenseVectorizedLindbladCollection.__init__ vc vd self H d L) = false ∧
  DenseVectorizedLindbladCollection.__init__ (λ _, Ok (PyArr a)) vd self H d PyNone
  = Raise NameError.
Proof. split; [apply vectorized_init_never_ok|apply vectorized_init_name_error]. Qed.

(** C4: constructing a vectorized Lindblad collection and evaluating its
    right-hand side never returns a value (the constructor raises), while the
    dense Lindblad collection built from the same operators does return one;
    so the two cannot be compared. *)
Theorem C4_vectorized_rhs_unavailable vc vd H d L s y a :
  is_ok (self ← DenseVectorizedLindbladCollection.__init__ vc vd
                  (new DenseVectorizedLindbladCollection) H d L;
         DenseVectorizedLindbladCollection_evaluate_rhs self s y) = false ∧
  (self ← DenseVectorizedLindbladCollection.__init__ (λ _, Ok (PyArr a)) vd
            (new DenseVectorizedLindbladCollection)
            (PyArr (array3 1 2 2 [sigma_x])) (PyArr (array2 2 2 sigma_z)) PyNone;
   DenseVectorizedLindbladCollection_evaluate_rhs self
     (PyList [PyArr (array1 [Cq 1 2]); PyNone]) (PyArr (array1 [Cz 1; Cz 0; Cz 0; Cz 0])))
  = Raise NameError ∧
  is_ok (self ← DenseLindbladCollection.__init__ (new DenseLindbladCollection)
                  (PyArr (array3 1 2 2 [sigma_x])) (PyArr (array2 2 2 sigma_z)) PyNone;
         DenseLindbladCollection.evaluate_rhs self
           (PyList [PyArr (array1 [Cq 1 2]); PyNone]) (PyArr (array2 2 2 ground))) = true.
Proof.
  split; [|split].
  - pose proof (vectorized_init_never_ok vc vd
                  (new DenseVectorizedLindbladCollection) H d L) as Hi.
    by destruct (DenseVectorizedLindbladCollection.__init__ _ _ _ _ _ _).
  - by rewrite vectorized_init_name_error.
  - by vm_compute.
Qed.

(** C6: on a dense or sparse Lindblad collection, whatever its attributes
    and whatever the signal-value argument, [evaluate_generator] raises
    [ValueError], and so does calling the collection without a state. *)
Theorem C6_lindblad_evaluate_generator_raises
    (attrs : gmap string pyval) (signal_values : pyval)
    (sparse_rhs : instance → pyval → pyval → result pyval) :
  evaluate_generator (mk_instance DenseLindbladCollection attrs) signal_values
    = Raise ValueError ∧
  evaluate_generator (mk_instance SparseLindbladCollection attrs) signal_values
    = Raise ValueError ∧
  __call__ sparse_rhs (mk_instance DenseLindbladCollection attrs) signal_values PyNone
    = Raise ValueError ∧
  __call__ sparse_rhs (mk_instance SparseLindbladCollection attrs) signal_values PyNone
    = Raise ValueError.
Proof. by repeat split. Qed.

(** C10: for a sparse collection, whatever the instance and the signal
    values, a state whose number of dimensions is neither 1 nor 2 makes
    [evaluate_rhs] return [None]. *)
Theorem C10_sparse_evaluate_rhs_other_ndim (self : instance) (signal_values y : pyval)
    (s : list nat) :
  py_shape y = Ok s → length s ≠ 1 → length s ≠ 2 →
  SparseOperatorCollection.evaluate_rhs self signal_values y = Ok PyNone.
Proof.
  intros Hs H1 H2. unfold SparseOperatorCollection.evaluate_rhs.
  rewrite Hs. py_steps. by rewrite !decide_False.
Qed.

Lemma C10_sparse_evaluate_rhs_other_ndim_witness :
  SparseOperatorCollection.evaluate_rhs (new SparseOperatorCollection)
    (PyArr (array1 [Cq 1 2])) (PyArr (array3 1 2 2 [ground])) = Ok PyNone ∧
  SparseOperatorCollection.evaluate_rhs (new SparseOperatorCollection)
    (PyArr (array1 [Cq 1 2])) (PyArr (mk_nd [] [Cz 1])) = Ok PyNone.
Proof.
  split.
  - apply (C10_sparse_evaluate_rhs_other_ndim _ _ _ [1; 2; 2]);
      [reflexivity | simpl; lia | simpl; lia].
  - apply (C10_sparse_evaluate_rhs_other_ndim _ _ _ []);
      [reflexivity | simpl; lia | simpl; lia].
Defined.

(** C9: for a batch of [k ≥ 1] matrices of dimension [n×n],
    [package_density_matrices] returns the [(k,1)] object array of the
    matrices and [unpackage_density_matrices] of that array returns the
    batch unchanged. *)
Theorem C9_package_unpackage_roundtrip k n Rs :
  0 < k → length Rs = k → Forall (is_matrix n n) Rs →
  package_density_matrices (PyArr (array3 k n n Rs))
    = Ok (PyObjArr [k; 1] (map (λ R, PyArr (array2 n n R)) Rs)) ∧
  (p ← package_density_matrices (PyArr (array3 k n n Rs)); unpackage_density_matrices p)
    = Ok (PyArr (array3 k n n Rs)).
Proof.
  intros Hk Hlen Hall. split; [by apply package_batch|].
  rewrite package_batch by done. py_steps. by apply unpackage_batch.
Qed.

Lemma C9_package_unpackage_roundtrip_witness :
  (p ← package_density_matrices (PyArr (array3 2 2 2 [ground; sigma_x]));
   unpackage_density_matrices p)
  = Ok (PyArr (array3 2 2 2 [ground; sigma_x])).
Proof.
  apply (C9_package_unpackage_roundtrip 2 2 [ground; sigma_x]);
    [lia | reflexivity | repeat constructor].
Defined.

Lemma tuple_index_1_m3 k : tuple_index [k] (-3) = Raise IndexError.
Proof. done. Qed.

Lemma sparse_lindblad_num_operators_never_ok H d L dec :
  is_ok (self ← SparseLindbladCollection.__init__ (new SparseLindbladCollection) H d L dec;
         num_operators self) = false.
Proof.
  unfold SparseLindbladCollection.__init__.
  destruct (py_shape H) as [s|?]; [|done]. py_steps.
  destruct (tuple_index s 0) as [k|?]; [|done]. py_steps.
  destruct (mapM _ (seq 0 k)) as [hs|?]; [|done]. py_steps.
  destruct (py_round d dec) as [d1|?]; [|done]. py_steps.
  destruct (csr_matrix d1) as [d2|?]; [|done]. py_steps.
  unfold BaseOperatorCollection.set_drift. py_steps.
  destruct (negb (is_none L)).
  - destruct (py_shape L) as [sl|?]; [|done]. py_steps.
    destruct (tuple_index sl 0) as [m|?]; [|done]. py_steps.
    destruct (mapM _ (seq 0 m)) as [ls|?]; [|done]. py_steps.
    destruct (mapM _ ls) as [lcs|?]; [|done]. py_steps.
    destruct (objarr_mul _ _) as [p|?]; [|done]. py_steps.
    unfold num_operators. rewrite !cls_setattr. cbn [cls new].
    unfold DenseLindbladCollection.num_operators. py_steps.
    cbn [py_shape]. py_steps. by rewrite tuple_index_1_m3.
  - py_steps. unfold num_operators. rewrite !cls_setattr. cbn [cls new].
    unfold DenseLindbladCollection.num_operators. py_steps.
    cbn [py_shape]. py_steps. by rewrite tuple_index_1_m3.
Qed.

(** C7: [num_operators] is the number of operators for a dense collection,
    but on a dense Lindblad collection built without dissipators it raises
    [AttributeError], and on a sparse Lindblad collection it never returns
    ([IndexError] on the one-dimensional object array); with dissipators the
    dense Lindblad collection returns the pair of counts, and the sparse
    collection returns its count. *)
Theorem C7_num_operators k n m dec Gs d Hs Hd Ls :
  (self ← DenseOperatorCollection.__init__ (new DenseOperatorCollection)
            (PyArr (array3 k n n Gs)) d;
   num_operators self) = Ok (PyInt (Z.of_nat k)) ∧
  (self ← DenseLindbladCollection.__init__ (new DenseLindbladCollection)
            (PyArr (array3 k n n Hs)) (PyArr (array2 n n Hd)) PyNone;
   num_operators self) = Raise AttributeError ∧
  is_ok (self ← SparseLindbladCollection.__init__ (new SparseLindbladCollection)
                  (PyArr (array3 k n n Hs)) (PyArr (array2 n n Hd))
                  (PyArr (array3 m n n Ls)) dec;
         num_operators self) = false ∧
  (self ← SparseLindbladCollection.__init__ (new SparseLindbladCollection)
            (PyArr (array3 1 2 2 [sigma_x])) (PyArr (array2 2 2 sigma_z))
            (PyArr (array3 1 2 2 [lowering])) 10;
   num_operators self) = Raise IndexError ∧
  (self ← DenseLindbladCollection.__init__ (new DenseLindbladCollection)
            (PyArr (array3 1 2 2 [sigma_x])) (PyArr (array2 2 2 sigma_z))
            (PyArr (array3 1 2 2 [lowering]));
   num_operators self) = Ok (PyTuple [PyInt 1; PyInt 1]) ∧
  (self ← SparseOperatorCollection.__init__ (new SparseOperatorCollection)
            (PyArr (array3 1 2 2 [sigma_x])) (PyArr (array2 2 2 sigma_z)) 10;
   num_operators self) = Ok (PyInt 1).
Proof.
  split; [|split; [|split; [|split; [|split]]]].
  - done.
  - done.
  - apply sparse_lindblad_num_operators_never_ok.
  - by vm_compute.
  - by vm_compute.
  - by vm_compute.
Qed.

Lemma py_add_none_r t : py_add t PyNone = Raise TypeError.
Proof.
  unfold py_add.
  repeat match goal with
         | |- context [match ?x with _ => _ end] => destruct x
         end; done.
Qed.

Lemma dense_lindblad_no_drift_rhs_never_ok H L s y :
  is_ok (self ← DenseLindbladCollection.__init__ (new DenseLindbladCollection) H PyNone L;
         DenseLindbladCollection.evaluate_rhs self s y) = false.
Proof.
  unfold DenseLindbladCollection.__init__.
  assert (∀ self0, getattr self0 "_hamiltonian_operators" = Ok H →
            is_ok (self ← BaseOperatorCollection.set_drift self0 PyNone;
                   DenseLindbladCollection.evaluate_rhs self s y) = false) as Hkey.
  { intros self0 Hh. unfold BaseOperatorCollection.set_drift. py_steps.
    unfold DenseLindbladCollection.evaluate_rhs.
    destruct (py_getitem s 0) as [s0|?]; [|done]. py_steps.
    unfold DenseLindbladCollection.evaluate_hamiltonian. py_steps. rewrite Hh. py_steps.
    destruct (py_tensordot s0 H) as [t|?]; [|done]. py_steps.
    unfold BaseOperatorCollection.drift. py_steps. by rewrite py_add_none_r. }
  destruct (negb (is_none L)).
  - destruct (py_transpose_021 L) as [t|?]; [|done]. py_steps.
    destruct (py_conjugate t) as [c|?]; [|done]. py_steps.
    destruct (py_matmul c L) as [p|?]; [|done]. py_steps.
    apply Hkey. by py_steps.
  - py_steps. apply Hkey. by py_steps.
Qed.

Lemma sparse_lindblad_no_drift_never_ok H L dec :
  is_ok (SparseLindbladCollection.__init__ (new SparseLindbladCollection) H PyNone L dec)
  = false.
Proof.
  unfold SparseLindbladCollection.__init__.
  destruct (py_shape H) as [s|?]; [|done]. py_steps.
  destruct (tuple_index s 0) as [k|?]; [|done]. py_steps.
  destruct (mapM _ (seq 0 k)) as [hs|?]; [|done]. by py_steps.
Qed.

(** C8: with the drift omitted, the sparse collection's constructor raises
    [TypeError], the sparse Lindblad constructor never returns an instance,
    the dense Lindblad collection is constructed but its [evaluate_rhs] never
    returns a value, and the vectorized Lindblad constructor never returns an
    instance; only the dense collection is constructed and evaluated. *)
Theorem C8_drift_none ops H L dec s y vc vd :
  SparseOperatorCollection.__init__ (new SparseOperatorCollection) ops PyNone dec
    = Raise TypeError ∧
  is_ok (SparseLindbladCollection.__init__ (new SparseLindbladCollection) H PyNone L dec)
    = false ∧
  is_ok (self ← DenseLindbladCollection.__init__ (new DenseLindbladCollection) H PyNone L;
         DenseLindbladCollection.evaluate_rhs self s y) = false ∧
  is_ok (DenseVectorizedLindbladCollection.__init__ vc vd
           (new DenseVectorizedLindbladCollection) H PyNone L) = false ∧
  SparseLindbladCollection.__init__ (new SparseLindbladCollection)
    (PyArr (array3 1 2 2 [sigma_x])) PyNone PyNone 10 = Raise TypeError ∧
  (self ← DenseLindbladCollection.__init__ (new DenseLindbladCollection)
            (PyArr (array3 1 2 2 [sigma_x])) PyNone PyNone;
   DenseLindbladCollection.evaluate_rhs self
     (PyList [PyArr (array1 [Cq 1 2]); PyNone]) (PyArr (array2 2 2 ground)))
  = Raise TypeError ∧
  is_ok (self ← DenseOperatorCollection.__init__ (new DenseOperatorCollection)
                  (PyArr (array3 1 2 2 [sigma_x])) PyNone;
         evaluate_generator self (PyArr (array1 [Cq 1 2]))) = true.
Proof.
  split; [|split; [|split; [|split; [|split; [|split]]]]].
  - done.
  - apply sparse_lindblad_no_drift_never_ok.
  - apply dense_lindblad_no_drift_rhs_never_ok.
  - apply vectorized_init_never_ok.
  - by vm_compute.
  - by vm_compute.
  - by vm_compute.
Qed.

(** * Further properties of the collections *)

(** *** Calling a collection *)

(** X1: calling a dense or sparse collection without a state returns the
    generator [Σ_j s_j·G_j + G_d] (of the rounded operators and drift for the
    sparse one), and calling it with a state vector [v] returns that generator
    applied to [v]. *)
Theorem X1_call_dense_and_sparse sparse_rhs n k d s Gs Gd v :
  0 < k → length s = k → length Gs = k → Forall (is_matrix n n) Gs →
  is_matrix n n Gd → length v = n →
  let dense := DenseOperatorCollection.__init__ (new DenseOperatorCollection)
                 (PyArr (array3 k n n Gs)) (PyArr (array2 n n Gd)) in
  let sparse := SparseOperatorCollection.__init__ (new SparseOperatorCollection)
                  (PyArr (array3 k n n Gs)) (PyArr (array2 n n Gd)) d in
  let G := generator n s Gs Gd in
  let Gr := generator n s (map (Mround n n d) Gs) (Mround n n d Gd) in
  (self ← dense; __call__ sparse_rhs self (PyArr (array1 s)) PyNone)
    = Ok (PyArr (array2 n n G)) ∧
  (self ← dense; __call__ sparse_rhs self (PyArr (array1 s)) (PyArr (array1 v)))
    = Ok (PyArr (array1 (Mvec n n G v))) ∧
  (self ← sparse; __call__ sparse_rhs self (PyArr (array1 s)) PyNone)
    = Ok (PyCsr (array2 n n Gr)) ∧
  (self ← sparse; __call__ sparse_rhs self (PyArr (array1 s)) (PyArr (array1 v)))
    = Ok (PyArr (array1 (Mvec n n Gr v))).
Proof.
  intros Hk Hs HG Hall Hd Hv dense sparse G Gr. unfold __call__. cbn [is_none].
  split; [|split; [|split]].
  - by apply dense_generator.
  - by apply (dense_rhs_vector sparse_rhs n k s Gs Gd v).
  - by apply sparse_generator.
  - by apply (sparse_rhs_vector sparse_rhs n k d s Gs Gd v).
Qed.

Lemma X1_call_dense_and_sparse_witness :
  (self ← DenseOperatorCollection.__init__ (new DenseOperatorCollection)
            (PyArr (array3 1 2 2 [sigma_x])) (PyArr (array2 2 2 sigma_z));
   __call__ (λ _ _ _, Ok PyNone) self (PyArr (array1 [Cq 1 2])) PyNone)
  = Ok (PyArr (array2 2 2 (generator 2 [Cq 1 2] [sigma_x] sigma_z))).
Proof.
  apply (X1_call_dense_and_sparse (λ _ _ _, Ok PyNone) 2 1 10 [Cq 1 2] [sigma_x] sigma_z
           [Cz 1; Cz 0]);
    [lia | reflexivity | reflexivity | repeat constructor | repeat constructor | reflexivity].
Defined.

(** *** Signal values that do not match the operators *)

Lemma dense_init_opt n k Gs od :
  DenseOperatorCollection.__init__ (new DenseOperatorCollection)
    (PyArr (array3 k n n Gs)) (drift_arg n od)
  = Ok (setattr (setattr (new DenseOperatorCollection) "_operators" (PyArr (array3 k n n Gs)))
          "_drift" (drift_arg n od)).
Proof. done. Qed.

(** X2: for a dense collection of [k] operators of dimension [n], a signal
    vector whose length is not [k] makes [evaluate_generator] and
    [evaluate_rhs] raise [ValueError], with or without drift and whatever the
    state; with a matching signal vector, a state vector whose length is not
    [n] makes [evaluate_rhs] raise [ValueError]. *)
Theorem X2_dense_signal_length_mismatch sparse_rhs n k s Gs od y v :
  let init := DenseOperatorCollection.__init__ (new DenseOperatorCollection)
                (PyArr (array3 k n n Gs)) (drift_arg n od) in
  (length s ≠ k →
   (self ← init; evaluate_generator self (PyArr (array1 s))) = Raise ValueError ∧
   (self ← init; evaluate_rhs sparse_rhs self (PyArr (array1 s)) y) = Raise ValueError) ∧
  (length s = k → length Gs = k → Forall (is_matrix n n) Gs → drift_ok n od →
   length v ≠ n →
   (self ← init; evaluate_rhs sparse_rhs self (PyArr (array1 s)) (PyArr (array1 v)))
   = Raise ValueError).
Proof.
  intros init. split.
  - intros Hs. subst init. rewrite dense_init_opt. py_steps.
    assert (evaluate_generator
              (setattr (setattr (new DenseOperatorCollection) "_operators"
                 (PyArr (array3 k n n Gs))) "_drift" (drift_arg n od))
              (PyArr (array1 s)) = Raise ValueError) as Hgen.
    { unfold evaluate_generator. rewrite !cls_setattr. cbn [cls new].
      unfold DenseOperatorCollection.evaluate_generator. py_steps.
      rewrite py_tensordot_arr, np_tensordot_mismatch by done.
      by destruct od. }
    split; [done|].
    unfold evaluate_rhs. rewrite !cls_setattr. cbn [cls new].
    unfold DenseOperatorCollection_evaluate_rhs. by rewrite Hgen.
  - intros Hs HG Hall Hod Hv.
    pose proof (dense_generator_opt n k s Gs od Hs HG Hall Hod) as Hgen.
    fold init in Hgen. subst init. rewrite dense_init_opt in *. rewrite bind_Ok in *.
    unfold evaluate_rhs. rewrite !cls_setattr. cbn [cls new].
    unfold DenseOperatorCollection_evaluate_rhs. rewrite Hgen. py_steps.
    rewrite py_dot_arr. unfold np_dot, array2, array1. cbn [shape data].
    unfold last_axis, last_two. cbn [reverse rev_append].
    by rewrite decide_False.
Qed.

Lemma X2_dense_signal_length_mismatch_witness :
  (self ← DenseOperatorCollection.__init__ (new DenseOperatorCollection)
            (PyArr (array3 1 2 2 [sigma_x])) (drift_arg 2 (Some sigma_z));
   evaluate_generator self (PyArr (array1 [Cz 1; Cz 1]))) = Raise ValueError.
Proof.
  refine (proj1 (proj1 (X2_dense_signal_length_mismatch (λ _ _ _, Ok PyNone) 2 1 [Cz 1; Cz 1]
                          [sigma_x] (Some sigma_z) PyNone []) _)).
  simpl; lia.
Defined.

(** *** Evaluation from the attributes of an instance *)

Lemma dense_generator_attrs self n k s Gs od :
  length s = k → length Gs = k → Forall (is_matrix n n) Gs → drift_ok n od →
  getattr self "_operators" = Ok (PyArr (array3 k n n Gs)) →
  getattr self "_drift" = Ok (drift_arg n od) →
  DenseOperatorCollection.evaluate_generator self (PyArr (array1 s))
  = Ok (PyArr (array2 n n (generator_opt n s Gs od))).
Proof.
  intros Hs HG Hall Hd Hops Hdr. unfold DenseOperatorCollection.evaluate_generator.
  rewrite Hdr, Hops. py_steps.
  rewrite py_tensordot_arr, np_tensordot_array3 by done.
  destruct od as [Gd|]; cbn [drift_arg is_none generator_opt]; [|done].
  py_steps. rewrite py_add_arr, np_add_array2 by (done || apply is_matrix_weighted_sum).
  done.
Qed.

Lemma sparse_generator_attrs self n k s Gs Gd :
  0 < k → length s = k → length Gs = k →
  Forall (is_matrix n n) Gs → is_matrix n n Gd →
  getattr self "_operators" = Ok (PyObjArr [k] (map (λ G, PyCsr (array2 n n G)) Gs)) →
  getattr self "_drift" = Ok (PyCsr (array2 n n Gd)) →
  SparseOperatorCollection.evaluate_generator self (PyArr (array1 s))
  = Ok (PyCsr (array2 n n (generator n s Gs Gd))).
Proof.
  intros Hk Hs HG Hall Hd Hops Hdr.
  unfold SparseOperatorCollection.evaluate_generator.
  cbn [py_shape array1 shape]. py_steps.
  rewrite tuple_index_last1. py_steps.
  unfold py_reshape_1. cbn [data]. rewrite decide_True by done. py_steps.
  rewrite Hdr, Hops. py_steps. cbn [is_none].
  unfold py_tensordot. cbn [shape]. unfold last_axis. cbn [reverse rev_append].
  rewrite decide_True by done.
  change (size [1]) with 1. rewrite chunks_one by done.
  cbn [mapM]. rewrite obj_dot_csr by (done || (simpl; lia)).
  py_steps. cbn [py_getitem lookup list_lookup]. py_steps.
  rewrite py_add_csr, csr_add_array2 by (done || apply is_matrix_weighted_sum).
  done.
Qed.

(** *** Signal values that are all zero *)

Lemma weighted_sum_zero r c k Gs :
  weighted_sum r c (replicate k C0) Gs = Mzero r c.
Proof.
  revert Gs. induction k as [|k IH]; intros Gs; [apply weighted_sum_nil_l|].
  destruct Gs as [|G Gs]; [apply weighted_sum_nil_r|].
  cbn [replicate]. rewrite weighted_sum_cons, IH. mat_ext. ring.
Qed.

Lemma Madd_zero_l r c A : is_matrix r c A → Madd r c (Mzero r c) A = A.
Proof.
  intros HA. rewrite <- (mk_matrix_entry r c A HA) at 2. mat_ext. ring.
Qed.

Lemma generator_zero n k Gs Gd :
  is_matrix n n Gd → generator n (replicate k C0) Gs Gd = Gd.
Proof. intros. unfold generator. rewrite weighted_sum_zero. by apply Madd_zero_l. Qed.

(** X3: with signal values that are all zero the generator is the drift
    itself: for the dense collection, for the sparse collection (the rounded
    drift), and for the Hamiltonian of the dense Lindblad collection. *)
Theorem X3_zero_signals_give_drift n k d Gs Gd :
  length Gs = k → Forall (is_matrix n n) Gs → is_matrix n n Gd →
  (self ← DenseOperatorCollection.__init__ (new DenseOperatorCollection)
            (PyArr (array3 k n n Gs)) (PyArr (array2 n n Gd));
   evaluate_generator self (PyArr (array1 (replicate k C0))))
  = Ok (PyArr (array2 n n Gd)) ∧
  (0 < k →
   (self ← SparseOperatorCollection.__init__ (new SparseOperatorCollection)
             (PyArr (array3 k n n Gs)) (PyArr (array2 n n Gd)) d;
    evaluate_generator self (PyArr (array1 (replicate k C0))))
   = Ok (PyCsr (array2 n n (Mround n n d Gd)))) ∧
  (self ← DenseLindbladCollection.__init__ (new DenseLindbladCollection)
            (PyArr (array3 k n n Gs)) (PyArr (array2 n n Gd)) PyNone;
   DenseLindbladCollection.evaluate_hamiltonian self (PyArr (array1 (replicate k C0))))
  = Ok (PyArr (array2 n n Gd)).
Proof.
  intros HG Hall Hd. split; [|split].
  - rewrite dense_generator by (rewrite ?length_replicate; done).
    by rewrite generator_zero.
  - intros Hk. rewrite sparse_generator by (rewrite ?length_replicate; done).
    by rewrite generator_zero by apply is_matrix_mk.
  - unfold DenseLindbladCollection.__init__. cbn [is_none negb].
    unfold BaseOperatorCollection.set_drift. py_steps.
    rewrite (lindblad_hamiltonian _ n k _ Gs Gd)
      by (rewrite ?length_replicate; done || by py_steps).
    by rewrite generator_zero.
Qed.

Lemma X3_zero_signals_give_drift_witness :
  (self ← DenseOperatorCollection.__init__ (new DenseOperatorCollection)
            (PyArr (array3 2 2 2 [sigma_x; lowering])) (PyArr (array2 2 2 sigma_z));
   evaluate_generator self (PyArr (array1 (replicate 2 C0))))
  = Ok (PyArr (array2 2 2 sigma_z)).
Proof.
  apply (X3_zero_signals_give_drift 2 2 10 [sigma_x; lowering] sigma_z);
    [reflexivity | repeat constructor | repeat constructor].
Defined.

(** *** Assigning the drift *)

(** X4: assigning the drift replaces it. On a dense collection the getter
    returns the new value, [None] included, and the generator is evaluated
    with it; on a sparse collection a dense matrix assigned to the drift is
    stored as a sparse matrix without being rounded, so the generator is the
    sum over the rounded operators plus the new drift as given. *)
Theorem X4_drift_setter n k d s Gs Gd od :
  length s = k → length Gs = k → Forall (is_matrix n n) Gs → is_matrix n n Gd →
  drift_ok n od →
  (self ← DenseOperatorCollection.__init__ (new DenseOperatorCollection)
            (PyArr (array3 k n n Gs)) (PyArr (array2 n n Gd));
   self ← BaseOperatorCollection.set_drift self (drift_arg n od);
   x ← BaseOperatorCollection.drift self;
   g ← evaluate_generator self (PyArr (array1 s));
   Ok (x, g))
  = Ok (drift_arg n od, PyArr (array2 n n (generator_opt n s Gs od))) ∧
  (0 < k → ∀ D, is_matrix n n D →
   (self ← SparseOperatorCollection.__init__ (new SparseOperatorCollection)
             (PyArr (array3 k n n Gs)) (PyArr (array2 n n Gd)) d;
    self ← SparseOperatorCollection.set_drift self (PyArr (array2 n n D));
    x ← BaseOperatorCollection.drift self;
    g ← evaluate_generator self (PyArr (array1 s));
    Ok (x, g))
   = Ok (PyCsr (array2 n n D),
         PyCsr (array2 n n (generator n s (map (Mround n n d) Gs) D)))).
Proof.
  intros Hs HG Hall Hd Hod. split.
  - rewrite dense_init. py_steps. unfold BaseOperatorCollection.set_drift. py_steps.
    unfold BaseOperatorCollection.drift. py_steps.
    unfold evaluate_generator. rewrite !cls_setattr. cbn [cls new].
    rewrite (dense_generator_attrs _ n k s Gs od) by (done || by py_steps).
    done.
  - intros Hk D HD. rewrite sparse_init by done. py_steps.
    unfold SparseOperatorCollection.set_drift. rewrite csr_matrix_array2. py_steps.
    unfold BaseOperatorCollection.drift. py_steps.
    unfold evaluate_generator. rewrite !cls_setattr. cbn [cls new].
    rewrite (sparse_generator_attrs _ n k s (map (Mround n n d) Gs) D)
      by (rewrite ?length_map; done || apply Forall_is_matrix_Mround || by py_steps).
    done.
Qed.

Lemma X4_drift_setter_witness :
  (self ← DenseOperatorCollection.__init__ (new DenseOperatorCollection)
            (PyArr (array3 1 2 2 [sigma_x])) (PyArr (array2 2 2 sigma_z));
   self ← BaseOperatorCollection.set_drift self (drift_arg 2 None);
   x ← BaseOperatorCollection.drift self;
   g ← evaluate_generator self (PyArr (array1 [Cq 1 2]));
   Ok (x, g))
  = Ok (drift_arg 2 None, PyArr (array2 2 2 (generator_opt 2 [Cq 1 2] [sigma_x] None))).
Proof.
  refine (proj1 (X4_drift_setter 2 1 10 [Cq 1 2] [sigma_x] sigma_z None _ _ _ _ _));
    [reflexivity | reflexivity | repeat constructor | repeat constructor | exact I].
Defined.

(** *** What the sparse constructor stores *)

Lemma mapM_Ok_Forall2 {A B} (f : A → result B) l ys :
  mapM f l = Ok ys → Forall2 (λ x y, f x = Ok y) l ys.
Proof.
  revert ys. induction l as [|x l IH]; intros ys H; simpl in H.
  - injection H as <-. constructor.
  - destruct (f x) as [y|e] eqn:Hx; [|done]. rewrite bind_Ok in H.
    destruct (mapM f l) as [ys'|e]; [|done]. injection H as <-.
    constructor; [done|by apply IH].
Qed.

Lemma mapM_succeeds {A B} (f : A → result B) l :
  Forall (λ x, ∃ y, f x = Ok y) l → ∃ ys, mapM f l = Ok ys.
Proof.
  induction 1 as [|x l [y Hy] _ [ys Hys]]; simpl; [by eexists|].
  rewrite Hy, bind_Ok, Hys, bind_Ok. by eexists.
Qed.

Lemma csr_matrix_Ok v x : csr_matrix v = Ok x → ∃ m, x = PyCsr m.
Proof.
  destruct v as [| | |a|m| | | |]; simpl; try done;
    try (intros H; injection H as <-; eauto; fail).
  destruct (shape a) as [|? [|? [|? ?]]]; intros H; try done;
    injection H as <-; eauto.
Qed.

Lemma csr_matrix_array_succeeds a :
  length (shape a) ≤ 2 → ∃ m, csr_matrix (PyArr a) = Ok (PyCsr m).
Proof.
  simpl. destruct (shape a) as [|? [|? [|? ?]]]; simpl; intros Hs;
    try lia; by eexists.
Qed.

Lemma sparse_set_drift_Ok self d self' :
  SparseOperatorCollection.set_drift self d = Ok self' →
  ∃ m, self' = setattr self "_drift" (PyCsr m).
Proof.
  unfold SparseOperatorCollection.set_drift.
  destruct d as [| | |a|m| | | |]; cbv iota;
    try (intros H; injection H as <-; eauto; fail);
    (destruct (csr_matrix _) as [x|e] eqn:Hx; [|done]);
    apply csr_matrix_Ok in Hx as [m' ->]; rewrite bind_Ok;
    intros H; injection H as <-; eauto.
Qed.

(** What an instance holds once the sparse constructor has returned it. *)
Lemma sparse_init_Ok_stores operators drift decimals self :
  SparseOperatorCollection.__init__ (new SparseOperatorCollection) operators drift decimals
    = Ok self →
  ∃ m k items,
    BaseOperatorCollection.drift self = Ok (PyCsr m) ∧
    getattr self "_operators" = Ok (PyObjArr [k] items) ∧
    length items = k ∧
    Forall (λ x, ∃ g, x = PyCsr g) items ∧
    num_operators self = Ok (PyInt (Z.of_nat k)) ∧
    py_shape operators ≫= (λ s, tuple_index s 0) = Ok k.
Proof.
  unfold SparseOperatorCollection.__init__. intros H.
  destruct (py_round drift decimals) as [d|e]; [|done]. rewrite bind_Ok in H.
  destruct (SparseOperatorCollection.set_drift _ d) as [self1|e] eqn:Hset; [|done].
  rewrite bind_Ok in H. apply sparse_set_drift_Ok in Hset as [m ->].
  destruct (py_shape operators) as [s|e]; [|done]. rewrite bind_Ok in H.
  destruct (tuple_index s 0) as [k|e] eqn:Hk; [|done]. rewrite bind_Ok in H.
  destruct (mapM _ (seq 0 k)) as [items|e] eqn:Hitems; [|done].
  rewrite bind_Ok in H. injection H as <-.
  apply mapM_Ok_Forall2 in Hitems.
  exists m, k, items. split; [|split; [|split; [|split; [|split]]]].
  - unfold BaseOperatorCollection.drift. by py_steps.
  - by py_steps.
  - apply Forall2_length in Hitems. by rewrite length_seq in Hitems.
  - clear -Hitems. induction Hitems as [|i x l items Hx _ IH]; constructor; [|done].
    destruct (py_getitem operators i) as [y|e]; [|done]. rewrite bind_Ok in Hx.
    destruct (py_round y decimals) as [r|e]; [|done]. rewrite bind_Ok in Hx.
    by apply csr_matrix_Ok in Hx.
  - unfold num_operators. rewrite !cls_setattr. cbn [cls new].
    unfold SparseOperatorCollection.num_operators. py_steps. cbn [py_shape]. by py_steps.
  - by rewrite bind_Ok.
Qed.

(** The sparse constructor returns an instance on every array of operators
    whose entries [operators[i]] have at most two dimensions, with a drift
    that is a number or an array of at most two dimensions, at any number
    of decimals. *)
Lemma sparse_init_succeeds a k s drift decimals :
  shape a = k :: s → length s ≤ 2 →
  match drift with
  | PyNum _ | PyInt _ => True
  | PyArr b => length (shape b) ≤ 2
  | _ => False
  end →
  ∃ self,
    SparseOperatorCollection.__init__ (new SparseOperatorCollection) (PyArr a) drift decimals
      = Ok self.
Proof.
  intros Ha Hs Hd. unfold SparseOperatorCollection.__init__.
  assert (∃ self1, (d ← py_round drift decimals;
                    SparseOperatorCollection.set_drift (new SparseOperatorCollection) d)
                   = Ok self1) as [self1 H1].
  { destruct drift as [|z|c|b| | | | |]; try done; cbn [py_round]; rewrite bind_Ok;
      unfold SparseOperatorCollection.set_drift.
    - simpl. by eexists.
    - simpl. by eexists.
    - destruct (csr_matrix_array_succeeds (np_round b decimals)) as [m Hm]; [done|].
      rewrite Hm, bind_Ok. by eexists. }
  destruct (py_round drift decimals) as [d|e]; [|by rewrite bind_Raise in H1].
  rewrite bind_Ok in *. rewrite H1, bind_Ok. cbn [py_shape]. rewrite bind_Ok, Ha.
  change (tuple_index (k :: s) 0) with (Ok k). rewrite bind_Ok.
  destruct (mapM_succeeds
              (λ i, x ← py_getitem (PyArr a) i; r ← py_round x decimals; csr_matrix r)
              (seq 0 k)) as [items Hitems].
  { apply Forall_forall. intros i Hi. apply elem_of_seq in Hi.
    cbn [py_getitem]. rewrite Ha. rewrite decide_True by lia. rewrite bind_Ok.
    cbn [py_round]. rewrite bind_Ok.
    destruct (csr_matrix_array_succeeds
                (np_round (mk_nd s (nth i (chunks (size s) k (data a)) [])) decimals))
      as [m Hm]; [done|].
    by eexists. }
  rewrite Hitems, bind_Ok. by eexists.
Qed.

(** X5: on an array of [k] operators whose entries have at most two
    dimensions, with a drift that is a number or an array of at most two
    dimensions, and at any number of decimals, the sparse constructor
    returns an instance; the drift it holds is a sparse matrix (never
    [None]), its operators are a one-dimensional object array of [k] sparse
    matrices, and [num_operators] is [k]. *)
Theorem X5_sparse_init_stores_csr a k s drift decimals :
  shape a = k :: s → length s ≤ 2 →
  match drift with
  | PyNum _ | PyInt _ => True
  | PyArr b => length (shape b) ≤ 2
  | _ => False
  end →
  ∃ self m items,
    SparseOperatorCollection.__init__ (new SparseOperatorCollection) (PyArr a) drift decimals
      = Ok self ∧
    BaseOperatorCollection.drift self = Ok (PyCsr m) ∧
    getattr self "_operators" = Ok (PyObjArr [k] items) ∧
    length items = k ∧
    Forall (λ x, ∃ g, x = PyCsr g) items ∧
    num_operators self = Ok (PyInt (Z.of_nat k)).
Proof.
  intros Ha Hs Hd.
  destruct (sparse_init_succeeds a k s drift decimals Ha Hs Hd) as [self Hself].
  destruct (sparse_init_Ok_stores _ _ _ _ Hself)
    as (m & k' & items & Hdrift & Hops & Hlen & Hall & Hnum & Hk).
  cbn [py_shape] in Hk. rewrite bind_Ok, Ha in Hk.
  change (tuple_index (k :: s) 0) with (Ok k) in Hk.
  injection Hk as <-. by exists self, m, items.
Qed.

Lemma X5_sparse_init_stores_csr_witness :
  ∃ self m items,
    SparseOperatorCollection.__init__ (new SparseOperatorCollection)
      (PyArr (array3 1 2 2 [sigma_x])) (PyNum (Cq 1 2)) 10 = Ok self ∧
    BaseOperatorCollection.drift self = Ok (PyCsr m) ∧
    getattr self "_operators" = Ok (PyObjArr [1] items) ∧
    length items = 1 ∧
    Forall (λ x, ∃ g, x = PyCsr g) items ∧
    num_operators self = Ok (PyInt (Z.of_nat 1)).
Proof.
  refine (X5_sparse_init_stores_csr (array3 1 2 2 [sigma_x]) 1 [2; 2] (PyNum (Cq 1 2)) 10
            _ _ _); [reflexivity | simpl; lia | exact I].
Defined.

(** *** A batch of states without dissipators *)

Lemma np_dot_shape_2d_3d n b da db :
  ∃ d, np_dot (mk_nd [n; n] da) (mk_nd [b; n; n] db) = Ok (mk_nd [n; b; n] d).
Proof.
  unfold np_dot. cbn [shape data]. unfold last_axis, last_two.
  cbn [reverse rev_append]. rewrite decide_True by done. eauto.
Qed.

Lemma np_dot_shape_3d_2d n b da db :
  ∃ d, np_dot (mk_nd [b; n; n] da) (mk_nd [n; n] db) = Ok (mk_nd [b; n; n] d).
Proof.
  unfold np_dot. cbn [shape data]. unfold last_axis, last_two.
  cbn [reverse rev_append]. rewrite decide_True by done. eauto.
Qed.

Lemma np_subtract_shapes s t da db :
  length s = length t →
  np_subtract (mk_nd s da) (mk_nd t db)
  = match broadcast_dims s t with
    | Some u => Ok (mk_nd u (zip_with Csub (expand 1 s u da) (expand 1 t u db)))
    | None => Raise ValueError
    end.
Proof.
  intros Hl. unfold np_subtract, np_binop, broadcast_shapes, pad_shape. cbn [shape data].
  rewrite <- Hl, Nat.max_id, Nat.sub_diag. done.
Qed.

Lemma lindblad_no_dissipators_batch_result n k b sH s1 Hs Hd dy :
  length sH = k → length Hs = k → Forall (is_matrix n n) Hs → is_matrix n n Hd →
  ∃ d1 d2,
  (self ← DenseLindbladCollection.__init__ (new DenseLindbladCollection)
            (PyArr (array3 k n n Hs)) (PyArr (array2 n n Hd)) PyNone;
   DenseLindbladCollection.evaluate_rhs self
     (PyList [PyArr (array1 sH); s1]) (PyArr (mk_nd [b; n; n] dy)))
  = match broadcast_dims [n; b; n] [b; n; n] with
    | Some u => Ok (PyArr (mk_nd u (zip_with Csub (expand 1 [n; b; n] u d1)
                                                  (expand 1 [b; n; n] u d2))))
    | None => Raise ValueError
    end.
Proof.
  intros HsH Hk HHs HHd.
  unfold DenseLindbladCollection.__init__. cbn [is_none negb].
  unfold BaseOperatorCollection.set_drift. py_steps.
  unfold DenseLindbladCollection.evaluate_rhs.
  rewrite (py_getitem_list _ 0 (PyArr (array1 sH))) by done. py_steps.
  rewrite (lindblad_hamiltonian _ n k sH Hs Hd) by (done || by py_steps).
  py_steps. rewrite py_mul_num_arr. py_steps. cbn [is_none negb].
  rewrite !py_dot_arr. unfold np_scale, array2. cbn [shape data].
  destruct (np_dot_shape_2d_3d n b
              (vscale minus_1j (concat (generator n sH Hs Hd))) dy) as [d1 ->].
  destruct (np_dot_shape_3d_2d n b dy
              (vscale minus_1j (concat (generator n sH Hs Hd)))) as [d2 ->].
  exists d1, d2. py_steps. rewrite py_sub_arr, np_subtract_shapes by done.
  by destruct (broadcast_dims [n; b; n] [b; n; n]).
Qed.

(** X6: the dense Lindblad collection without dissipators does not accept a
    batch of [b] states of dimension [n] when [b ≠ n]: the two [np.dot]
    products have shapes [(n,b,n)] and [(b,n,n)], so for [b ≠ 1] and [n ≠ 1]
    the subtraction raises [ValueError], and in no case is the result an array
    of shape [(b,n,n)]. *)
Theorem X6_lindblad_no_dissipators_batch n k b sH s1 Hs Hd dy :
  length sH = k → length Hs = k → Forall (is_matrix n n) Hs → is_matrix n n Hd →
  b ≠ n →
  let run :=
    self ← DenseLindbladCollection.__init__ (new DenseLindbladCollection)
             (PyArr (array3 k n n Hs)) (PyArr (array2 n n Hd)) PyNone;
    DenseLindbladCollection.evaluate_rhs self
      (PyList [PyArr (array1 sH); s1]) (PyArr (mk_nd [b; n; n] dy)) in
  (b ≠ 1 → n ≠ 1 → run = Raise ValueError) ∧
  (∀ r, run = Ok r → py_shape r ≠ Ok [b; n; n]).
Proof.
  intros HsH Hk HHs HHd Hbn run.
  destruct (lindblad_no_dissipators_batch_result n k b sH s1 Hs Hd dy HsH Hk HHs HHd)
    as (d1 & d2 & Hrun).
  fold run in Hrun. rewrite Hrun. clear Hrun run. split.
  - intros Hb Hn. cbn [broadcast_dims]. unfold broadcast_dim at 1.
    by rewrite !decide_False.
  - intros r. cbn [broadcast_dims]. unfold broadcast_dim.
    repeat case_decide; try lia; intros Hr; try discriminate Hr;
      injection Hr as <-; cbn [py_shape shape];
      intros Hshape; injection Hshape as ?; lia.
Qed.

Lemma X6_lindblad_no_dissipators_batch_witness :
  (self ← DenseLindbladCollection.__init__ (new DenseLindbladCollection)
            (PyArr (array3 1 2 2 [sigma_x])) (PyArr (array2 2 2 sigma_z)) PyNone;
   DenseLindbladCollection.evaluate_rhs self
     (PyList [PyArr (array1 [Cq 1 2]); PyNone])
     (PyArr (mk_nd [3; 2; 2] (concat (map (@concat C) [ground; ground; ground])))))
  = Raise ValueError.
Proof.
  refine (proj1 (X6_lindblad_no_dissipators_batch 2 1 3 [Cq 1 2] PyNone [sigma_x] sigma_z
                   (concat (map (@concat C) [ground; ground; ground])) _ _ _ _ _) _ _);
    [reflexivity | reflexivity | repeat constructor | repeat constructor | lia | lia | lia].
Defined.

(** *** Dissipators with zero rates *)

Lemma Madd_zero_r r c A : is_matrix r c A → Madd r c A (Mzero r c) = A.
Proof.
  intros HA. rewrite <- (mk_matrix_entry r c A HA) at 2. mat_ext. ring.
Qed.

Lemma lindblad_rhs_zero_rates n H m Ls R :
  lindblad_rhs n H (replicate m C0) Ls R = unitary_rhs n H R.
Proof.
  unfold lindblad_rhs, unitary_rhs. rewrite weighted_sum_zero.
  apply Madd_zero_r, is_matrix_mk.
Qed.

(** X7: on one density matrix the two branches of the dense Lindblad
    [evaluate_rhs] agree: a collection with dissipators whose rates are all
    zero returns what the collection built without dissipators returns,
    [−i[H,ρ]]. On a batch of [b] density matrices they do not: with rates
    that are all zero the branch with dissipators returns the [b] values
    [−i[H,ρ_j]], while the collection built without dissipators raises
    [ValueError] when [b ≠ n], [b ≠ 1] and [n ≠ 1]. *)
Theorem X7_lindblad_zero_rates n k m b sH s1 Hs Hd Ls R Rs :
  length sH = k → length Hs = k → Forall (is_matrix n n) Hs → is_matrix n n Hd →
  length Ls = m → Forall (is_matrix n n) Ls → is_matrix n n R →
  length Rs = b → Forall (is_matrix n n) Rs →
  ((self ← DenseLindbladCollection.__init__ (new DenseLindbladCollection)
             (PyArr (array3 k n n Hs)) (PyArr (array2 n n Hd)) (PyArr (array3 m n n Ls));
    DenseLindbladCollection.evaluate_rhs self
      (PyList [PyArr (array1 sH); PyArr (array1 (replicate m C0))]) (PyArr (array2 n n R)))
   = (self ← DenseLindbladCollection.__init__ (new DenseLindbladCollection)
             (PyArr (array3 k n n Hs)) (PyArr (array2 n n Hd)) PyNone;
      DenseLindbladCollection.evaluate_rhs self
        (PyList [PyArr (array1 sH); s1]) (PyArr (array2 n n R))) ∧
   (self ← DenseLindbladCollection.__init__ (new DenseLindbladCollection)
             (PyArr (array3 k n n Hs)) (PyArr (array2 n n Hd)) (PyArr (array3 m n n Ls));
    DenseLindbladCollection.evaluate_rhs self
      (PyList [PyArr (array1 sH); PyArr (array1 (replicate m C0))]) (PyArr (array2 n n R)))
   = Ok (PyArr (array2 n n (unitary_rhs n (generator n sH Hs Hd) R)))) ∧
  (self ← DenseLindbladCollection.__init__ (new DenseLindbladCollection)
            (PyArr (array3 k n n Hs)) (PyArr (array2 n n Hd)) (PyArr (array3 m n n Ls));
   DenseLindbladCollection.evaluate_rhs self
     (PyList [PyArr (array1 sH); PyArr (array1 (replicate m C0))]) (PyArr (array3 b n n Rs)))
  = Ok (PyArr (array3 b n n (map (unitary_rhs n (generator n sH Hs Hd)) Rs))) ∧
  (b ≠ n → b ≠ 1 → n ≠ 1 →
   (self ← DenseLindbladCollection.__init__ (new DenseLindbladCollection)
             (PyArr (array3 k n n Hs)) (PyArr (array2 n n Hd)) PyNone;
    DenseLindbladCollection.evaluate_rhs self
      (PyList [PyArr (array1 sH); s1]) (PyArr (array3 b n n Rs)))
   = Raise ValueError).
Proof.
  intros HsH Hk HHs HHd Hm HLs HR Hb HRs. split; [|split].
  - rewrite (lindblad_rhs_single n k m) by (rewrite ?length_replicate; done).
    rewrite (lindblad_rhs_no_dissipators n k) by done.
    by rewrite lindblad_rhs_zero_rates.
  - rewrite (lindblad_rhs_batch n k m b) by (rewrite ?length_replicate; done).
    do 3 f_equal. apply map_ext. intros X. apply lindblad_rhs_zero_rates.
  - intros Hbn Hb1 Hn1.
    change (array3 b n n Rs) with (mk_nd [b; n; n] (concat (map (@concat C) Rs))).
    destruct (lindblad_no_dissipators_batch_result n k b sH s1 Hs Hd
                (concat (map (@concat C) Rs)) HsH Hk HHs HHd) as (d1 & d2 & ->).
    cbn [broadcast_dims]. unfold broadcast_dim at 1. by rewrite !decide_False.
Qed.

Lemma X7_lindblad_zero_rates_witness :
  (self ← DenseLindbladCollection.__init__ (new DenseLindbladCollection)
            (PyArr (array3 1 2 2 [sigma_x])) (PyArr (array2 2 2 sigma_z))
            (PyArr (array3 1 2 2 [lowering]));
   DenseLindbladCollection.evaluate_rhs self
     (PyList [PyArr (array1 [Cq 1 2]); PyArr (array1 (replicate 1 C0))])
     (PyArr (array2 2 2 ground)))
  = Ok (PyArr (array2 2 2 (unitary_rhs 2 (generator 2 [Cq 1 2] [sigma_x] sigma_z) ground))) ∧
  (self ← DenseLindbladCollection.__init__ (new DenseLindbladCollection)
            (PyArr (array3 1 2 2 [sigma_x])) (PyArr (array2 2 2 sigma_z))
            (PyArr (array3 1 2 2 [lowering]));
   DenseLindbladCollection.evaluate_rhs self
     (PyList [PyArr (array1 [Cq 1 2]); PyArr (array1 (replicate 1 C0))])
     (PyArr (array3 3 2 2 [ground; ground; ground])))
  = Ok (PyArr (array3 3 2 2
                 (map (unitary_rhs 2 (generator 2 [Cq 1 2] [sigma_x] sigma_z))
                      [ground; ground; ground]))) ∧
  (self ← DenseLindbladCollection.__init__ (new DenseLindbladCollection)
            (PyArr (array3 1 2 2 [sigma_x])) (PyArr (array2 2 2 sigma_z)) PyNone;
   DenseLindbladCollection.evaluate_rhs self
     (PyList [PyArr (array1 [Cq 1 2]); PyNone])
     (PyArr (array3 3 2 2 [ground; ground; ground])))
  = Raise ValueError.
Proof.
  refine (_ (X7_lindblad_zero_rates 2 1 1 3 [Cq 1 2] PyNone [sigma_x] sigma_z [lowering] ground
               [ground; ground; ground] _ _ _ _ _ _ _ _ _));
    [ intros ((_ & H1) & H2 & H3); split; [exact H1|split; [exact H2|apply H3; lia]]
    | reflexivity | reflexivity | repeat constructor | repeat constructor
    | reflexivity | repeat constructor | repeat constructor
    | reflexivity | repeat constructor ].
Defined.

(** *** Packing with any number of batch dimensions *)

Lemma size_app s t : size (s ++ t) = size s * size t.
Proof.
  induction s as [|x s IH].
  - change (size []) with 1. cbn [app]. lia.
  - change (size ((x :: s) ++ t)) with (x * size (s ++ t)).
    change (size (x :: s)) with (x * size s). rewrite IH. lia.
Qed.

Lemma split_core_app n loop core :
  length core = n → split_core n (loop ++ core) = Some (loop, core).
Proof.
  intros Hn. unfold split_core. rewrite length_app, decide_True by lia.
  replace (length loop + length core - n) with (length loop) by lia.
  by rewrite take_app_length, drop_app_length.
Qed.

Lemma split_core_Some n s loop core :
  split_core n s = Some (loop, core) → s = loop ++ core ∧ length core = n.
Proof.
  unfold split_core. case_decide; [|done]. intros H'; injection H' as <- <-.
  split; [by rewrite take_drop|]. rewrite length_drop. lia.
Qed.

Lemma update_dim_sizes_nn core sizes :
  update_dim_sizes ["n"; "n"] core ∅ = Some sizes → ∃ n, core = [n; n].
Proof.
  destruct core as [|x [|y [|z core]]]; cbn [update_dim_sizes];
    rewrite ?lookup_empty; cbn [update_dim_sizes]; rewrite ?lookup_insert_eq;
    try done; case_decide; try done; subst; eauto.
Qed.

Lemma package_blocks (bs : list pyval) :
  mapM (λ b, r ← package_density_matrices_def b; object_entries [1] r) bs
  = Ok (map (λ b, [b]) bs).
Proof.
  apply mapM_map_Ok. intros b _. rewrite package_def_eq. py_steps.
  unfold object_entries. cbn [result_entries]. by rewrite decide_True.
Qed.

Lemma package_any_batch a loop n :
  shape a = loop ++ [n; n] → size loop ≠ 0 →
  package_density_matrices (PyArr a)
  = Ok (PyObjArr (loop ++ [1])
          (map (λ d, PyArr (mk_nd [n; n] d)) (chunks (n * n) (size loop) (data a)))).
Proof.
  intros Hs Hl. unfold package_density_matrices, np_vectorize.
  cbn [py_shape]. py_steps. rewrite Hs, split_core_app by done.
  cbn [update_dim_sizes]. rewrite lookup_empty, lookup_insert_eq, decide_True by done.
  unfold core_blocks. rewrite size_2.
  destruct (size loop) as [|c]; [done|]. cbn [chunks map].
  rewrite package_def_eq. py_steps. cbn [result_entries update_dim_sizes].
  rewrite lookup_insert_ne, lookup_empty by done.
  rewrite package_blocks. py_steps. cbn [concat app].
  by rewrite concat_singletons.
Qed.

Lemma unpackage_blocks n (ds : list (list C)) :
  mapM (λ b, r ← unpackage_density_matrices_def b; numeric_entries [n; n] r)
       (map (PyObjArr [1]) (map (λ x, [x]) (map (λ d, PyArr (mk_nd [n; n] d)) ds)))
  = Ok ds.
Proof.
  rewrite !map_map. rewrite <- (map_id ds) at 2.
  apply mapM_fmap_Ok, Forall_forall. intros d _.
  rewrite unpackage_def_eq. py_steps.
  unfold numeric_entries. cbn [result_entries shape data]. by rewrite decide_True.
Qed.

Lemma unpackage_any_batch loop n (ds : list (list C)) :
  length ds = size loop → size loop ≠ 0 →
  unpackage_density_matrices
    (PyObjArr (loop ++ [1]) (map (λ d, PyArr (mk_nd [n; n] d)) ds))
  = Ok (PyArr (mk_nd (loop ++ [n; n]) (concat ds))).
Proof.
  intros Hlen Hl. unfold unpackage_density_matrices, np_vectorize.
  cbn [py_shape]. py_steps. rewrite split_core_app by done.
  cbn [update_dim_sizes]. rewrite lookup_empty.
  unfold core_blocks. change (size [1]) with 1.
  rewrite <- Hlen, <- (length_map (λ d, PyArr (mk_nd [n; n] d))), chunks_singletons.
  destruct ds as [|d0 ds]; [simpl in Hlen; lia|].
  cbn [map]. rewrite unpackage_def_eq. py_steps.
  cbn [result_entries shape data update_dim_sizes].
  rewrite lookup_insert_ne, lookup_empty, lookup_insert_eq, decide_True by done.
  by rewrite unpackage_blocks.
Qed.

(** X8: for a well-formed array of shape [loop ++ (n,n)] with any number of
    leading batch dimensions, none included, and at least one matrix,
    [package_density_matrices] returns the object array of shape
    [loop ++ (1)] of its matrices, and [unpackage_density_matrices] of that
    array returns the array itself. *)
Theorem X8_package_any_batch_roundtrip a loop n :
  wf a → shape a = loop ++ [n; n] → size loop ≠ 0 →
  package_density_matrices (PyArr a)
    = Ok (PyObjArr (loop ++ [1])
            (map (λ d, PyArr (mk_nd [n; n] d)) (chunks (n * n) (size loop) (data a)))) ∧
  (p ← package_density_matrices (PyArr a); unpackage_density_matrices p) = Ok (PyArr a).
Proof.
  intros Hwf Hs Hl. rewrite (package_any_batch a loop n) by done. split; [done|].
  py_steps. rewrite unpackage_any_batch by (by rewrite ?chunks_length).
  rewrite concat_chunks.
  - destruct a as [s d]. simpl in *. by subst.
  - unfold wf in Hwf. by rewrite Hwf, Hs, size_app, size_2.
Qed.

Lemma X8_package_any_batch_roundtrip_witness :
  (p ← package_density_matrices (PyArr (array2 2 2 sigma_x)); unpackage_density_matrices p)
  = Ok (PyArr (array2 2 2 sigma_x)).
Proof.
  refine (proj2 (X8_package_any_batch_roundtrip (array2 2 2 sigma_x) [] 2 _ _ _));
    [reflexivity | reflexivity | simpl; lia].
Defined.

(** X9: [package_density_matrices] returns a value only for an array whose
    last two dimensions are equal and whose leading dimensions hold at least
    one matrix. *)
Theorem X9_package_requires_square_batch a v :
  package_density_matrices (PyArr a) = Ok v →
  ∃ loop n, shape a = loop ++ [n; n] ∧ size loop ≠ 0.
Proof.
  unfold package_density_matrices, np_vectorize. cbn [py_shape]. py_steps.
  destruct (split_core _ (shape a)) as [[loop core]|] eqn:Hsplit; [|done].
  apply split_core_Some in Hsplit as [Hs _].
  destruct (update_dim_sizes _ core ∅) as [sizes|] eqn:Hcore; [|done].
  apply update_dim_sizes_nn in Hcore as [n ->].
  unfold core_blocks. intros H. exists loop, n. split; [done|].
  intros Hz. rewrite Hz in H. done.
Qed.

Lemma X9_package_requires_square_batch_witness :
  ∃ loop n, shape (array3 2 2 2 [ground; sigma_x]) = loop ++ [n; n] ∧ size loop ≠ 0.
Proof.
  apply (X9_package_requires_square_batch (array3 2 2 2 [ground; sigma_x])
           (PyObjArr [2; 1] [PyArr (array2 2 2 ground); PyArr (array2 2 2 sigma_x)])).
  vm_compute. reflexivity.
Defined.

(** *** Signal values of the vectorized collection *)

Lemma combined_signal_none s0 rest :
  DenseVectorizedLindbladCollection.combined_signal (PyList (s0 :: PyNone :: rest))
  = Raise ValueError.
Proof.
  unfold DenseVectorizedLindbladCollection.combined_signal.
  cbn [py_getitem lookup list_lookup]. py_steps. cbn [py_any_nonzero].
  py_steps. unfold py_append_last. by destruct s0.
Qed.

(** X10: on a vectorized Lindblad collection, whatever its attributes, a
    list of signal values whose second entry is [None] makes
    [evaluate_generator], [evaluate_rhs] and the call of the collection raise
    [ValueError]: [None != 0] holds, and [None] cannot be appended to the
    Hamiltonian signal values. *)
Theorem X10_vectorized_none_signal_raises
    (attrs : gmap string pyval) (s0 y : pyval) (rest : list pyval)
    (sparse_rhs : instance → pyval → pyval → result pyval) :
  let self := mk_instance DenseVectorizedLindbladCollection attrs in
  let signal_values := PyList (s0 :: PyNone :: rest) in
  evaluate_generator self signal_values = Raise ValueError ∧
  evaluate_rhs sparse_rhs self signal_values y = Raise ValueError ∧
  __call__ sparse_rhs self signal_values y = Raise ValueError.
Proof.
  intros self signal_values.
  assert (evaluate_generator self signal_values = Raise ValueError) as Hg.
  { unfold evaluate_generator. cbn [cls self].
    unfold DenseVectorizedLindbladCollection.evaluate_generator.
    subst signal_values. by rewrite combined_signal_none. }
  assert (evaluate_rhs sparse_rhs self signal_values y = Raise ValueError) as Hr.
  { unfold evaluate_rhs. cbn [cls self].
    unfold DenseVectorizedLindbladCollection_evaluate_rhs.
    subst signal_values. by rewrite combined_signal_none. }
  split; [done|split; [done|]].
  unfold __call__. by destruct (is_none y).
Qed.

Lemma np_append_last_array1 s g :
  np_append_last (array1 s) (array1 g) = Ok (array1 (s ++ g)).
Proof.
  unfold np_append_last, array1. cbn [shape data]. unfold last_axis.
  cbn [reverse rev_append]. rewrite decide_True by done.
  change (size []) with 1. rewrite !chunks_one by done.
  cbn [zip_with concat app]. by rewrite app_nil_r, length_app.
Qed.

Lemma py_any_nonzero_array1 g :
  py_any_nonzero (PyArr (array1 g)) = bool_decide (Exists (λ x, x ≠ C0) g).
Proof.
  cbn [py_any_nonzero array1 data].
  induction g as [|x g IH]; cbn [existsb].
  - symmetry. apply bool_decide_eq_false. intros Hex. by apply Exists_nil in Hex.
  - rewrite IH. destruct (decide (x = C0)) as [->|Hx].
    + rewrite bool_decide_eq_true_2 by done. cbn [negb orb].
      apply bool_decide_ext. rewrite Exists_cons.
      split; [intros ?; by right | intros [Hne|?]; [by destruct Hne | done]].
    + rewrite (bool_decide_eq_false_2 (x = C0)) by done. cbn [negb orb].
      symmetry. apply bool_decide_eq_true. by left.
Qed.

Lemma combined_signal_arrays s g :
  DenseVectorizedLindbladCollection.combined_signal
    (PyList [PyArr (array1 s); PyArr (array1 g)])
  = Ok (PyArr (array1 (if bool_decide (Exists (λ x, x ≠ C0) g) then s ++ g else s))).
Proof.
  unfold DenseVectorizedLindbladCollection.combined_signal.
  cbn [py_getitem lookup list_lookup]. py_steps.
  rewrite py_any_nonzero_array1. case_bool_decide; py_steps; [|done].
  unfold py_append_last. by rewrite np_append_last_array1.
Qed.

Lemma vectorized_generator_array self N K s Gs od :
  cls self = DenseVectorizedLindbladCollection →
  getattr self "_operators" = Ok (PyArr (array3 K N N Gs)) →
  getattr self "_drift" = Ok (drift_arg N od) →
  length Gs = K → Forall (is_matrix N N) Gs → drift_ok N od →
  evaluate_generator self (PyArr (array1 s))
  = if decide (length s = K)
    then Ok (PyArr (array2 N N (generator_opt N s Gs od)))
    else Raise ValueError.
Proof.
  intros Hcls Hops Hdr HG Hall Hod. unfold evaluate_generator. rewrite Hcls.
  unfold DenseVectorizedLindbladCollection.evaluate_generator.
  cbn [DenseVectorizedLindbladCollection.combined_signal]. py_steps.
  case_decide as Hs.
  - by apply (dense_generator_attrs self N K).
  - unfold DenseOperatorCollection.evaluate_generator. rewrite Hdr, Hops. py_steps.
    rewrite py_tensordot_arr, np_tensordot_mismatch by done. by destruct od.
Qed.

(** X11: for a vectorized Lindblad instance holding the [k + m] operators
    [Gs ++ Ds] and a drift, [evaluate_generator] on the joined signal vector
    and on the list [[s, γ]] with some [γ_j ≠ 0] returns
    [Σ_j s_j·G_j + Σ_j γ_j·D_j + G_d]; on the list [[s, γ]] with every
    [γ_j = 0] and [m > 0] it raises [ValueError], the dissipator signal
    values having been dropped while the operators remain. *)
Theorem X11_vectorized_generator self N k m s g Gs Ds od :
  cls self = DenseVectorizedLindbladCollection →
  getattr self "_operators" = Ok (PyArr (array3 (k + m) N N (Gs ++ Ds))) →
  getattr self "_drift" = Ok (drift_arg N od) →
  length s = k → length Gs = k → length g = m → length Ds = m →
  Forall (is_matrix N N) (Gs ++ Ds) → drift_ok N od →
  let signal_values := PyList [PyArr (array1 s); PyArr (array1 g)] in
  let G := generator_opt N (s ++ g) (Gs ++ Ds) od in
  evaluate_generator self (PyArr (array1 (s ++ g))) = Ok (PyArr (array2 N N G)) ∧
  (Exists (λ x, x ≠ C0) g →
   evaluate_generator self signal_values = Ok (PyArr (array2 N N G))) ∧
  (Forall (λ x, x = C0) g → 0 < m →
   evaluate_generator self signal_values = Raise ValueError).
Proof.
  intros Hcls Hops Hdr Hs HG Hg HD Hall Hod signal_values G.
  assert (length (Gs ++ Ds) = k + m) as HK by (rewrite length_app; lia).
  assert (length (s ++ g) = k + m) as HS by (rewrite length_app; lia).
  pose proof (vectorized_generator_array self N (k + m) (s ++ g) (Gs ++ Ds) od
                Hcls Hops Hdr HK Hall Hod) as Hfull.
  rewrite decide_True in Hfull by done.
  assert (evaluate_generator self signal_values
          = evaluate_generator self
              (PyArr (array1 (if bool_decide (Exists (λ x, x ≠ C0) g) then s ++ g else s))))
    as Hlist.
  { unfold evaluate_generator. rewrite Hcls.
    unfold DenseVectorizedLindbladCollection.evaluate_generator. subst signal_values.
    rewrite combined_signal_arrays. py_steps.
    by cbn [DenseVectorizedLindbladCollection.combined_signal]. }
  split; [done|split].
  - intros Hex. rewrite Hlist, bool_decide_eq_true_2 by done. done.
  - intros Hzero Hm. rewrite Hlist, bool_decide_eq_false_2.
    + rewrite (vectorized_generator_array self N (k + m) s (Gs ++ Ds) od) by done.
      rewrite decide_False by lia. done.
    + intros Hex. apply Exists_exists in Hex as (x & Hx & Hne).
      rewrite Forall_forall in Hzero. by apply Hne, Hzero.
Qed.

Lemma X11_vectorized_generator_witness :
  evaluate_generator
    (setattr (setattr (new DenseVectorizedLindbladCollection) "_operators"
                (PyArr (array3 (1 + 1) 2 2 ([sigma_x] ++ [lowering]))))
       "_drift" (drift_arg 2 (Some sigma_z)))
    (PyList [PyArr (array1 [Cq 1 2]); PyArr (array1 [Cz 0])])
  = Raise ValueError.
Proof.
  refine (proj2 (proj2 (X11_vectorized_generator
    (setattr (setattr (new DenseVectorizedLindbladCollection) "_operators"
                (PyArr (array3 (1 + 1) 2 2 ([sigma_x] ++ [lowering]))))
       "_drift" (drift_arg 2 (Some sigma_z)))
    2 1 1 [Cq 1 2] [Cz 0] [sigma_x] [lowering] (Some sigma_z) _ _ _ _ _ _ _ _ _)) _ _);
    [reflexivity | reflexivity | reflexivity | reflexivity | reflexivity | reflexivity
    | reflexivity | repeat constructor | repeat constructor | repeat constructor | lia].
Defined.

(** *** The trace of the Lindblad right-hand side *)

Lemma trace_Madd n A B : trace n (Madd n n A B) = Cadd (trace n A) (trace n B).
Proof.
  unfold trace, Madd. rewrite <- csum_add. apply csum_ext. intros i Hi.
  by rewrite entry_mk_matrix.
Qed.

Lemma trace_Msub n A B : trace n (Msub n n A B) = Csub (trace n A) (trace n B).
Proof.
  unfold trace, Msub.
  transitivity (Cadd (csum n (λ i, entry A i i))
                     (Cmul (Copp C1) (csum n (λ i, entry B i i)))); [|ring].
  rewrite <- csum_scale, <- csum_add. apply csum_ext. intros i Hi.
  rewrite entry_mk_matrix by done. ring.
Qed.

Lemma trace_Mscale n x A : trace n (Mscale n n x A) = Cmul x (trace n A).
Proof.
  unfold trace, Mscale. rewrite <- csum_scale. apply csum_ext. intros i Hi.
  by rewrite entry_mk_matrix.
Qed.

Lemma trace_Mzero n : trace n (Mzero n n) = C0.
Proof.
  unfold trace, Mzero. transitivity (csum n (λ _, C0)); [|apply csum_zero].
  apply csum_ext. intros i Hi. by rewrite entry_mk_matrix.
Qed.

Lemma trace_Mmul_comm n A B : trace n (Mmul n n n A B) = trace n (Mmul n n n B A).
Proof.
  unfold trace, Mmul.
  transitivity (csum n (λ i, csum n (λ l, Cmul (entry A i l) (entry B l i)))).
  { apply csum_ext. intros i Hi. by rewrite entry_mk_matrix. }
  rewrite csum_swap. apply csum_ext. intros l Hl. rewrite entry_mk_matrix by done.
  apply csum_ext. intros i Hi. ring.
Qed.

Lemma trace_weighted_sum n s Gs :
  trace n (weighted_sum n n s Gs) = wsumC s (map (trace n) Gs).
Proof.
  revert s. induction Gs as [|G Gs IH]; intros s.
  - rewrite weighted_sum_nil_r, trace_Mzero. by destruct s.
  - destruct s as [|x s].
    + by rewrite weighted_sum_nil_l, trace_Mzero.
    + rewrite weighted_sum_cons, trace_Madd, trace_Mscale, IH. done.
Qed.

Lemma trace_commutator n A B : trace n (commutator n A B) = C0.
Proof.
  unfold commutator. rewrite trace_Msub, (trace_Mmul_comm n B A). ring.
Qed.

Lemma half_twice x : Cmul (Cq 1 2) (Cadd x x) = x.
Proof.
  destruct x as [a b]. unfold Cmul, Cadd, Cq, Creal. cbn [re im].
  f_equal.
  - transitivity ((Q2Qc (1 # 2) + Q2Qc (1 # 2)) * a)%Qc; [ring|].
    replace (Q2Qc (1 # 2) + Q2Qc (1 # 2))%Qc with 1%Qc
      by (apply Qc_is_canon; reflexivity). ring.
  - transitivity ((Q2Qc (1 # 2) + Q2Qc (1 # 2)) * b)%Qc; [ring|].
    replace (Q2Qc (1 # 2) + Q2Qc (1 # 2))%Qc with 1%Qc
      by (apply Qc_is_canon; reflexivity). ring.
Qed.

Lemma trace_dissipator n L R : trace n (dissipator n L R) = C0.
Proof.
  unfold dissipator, anticommutator.
  rewrite trace_Msub, trace_Mscale, trace_Madd.
  rewrite (trace_Mmul_comm n R), (trace_Mmul_comm n (Mmul n n n L R)).
  rewrite <- (Mmul_assoc n n n n (Madjoint n L) L R).
  rewrite half_twice. ring.
Qed.

Lemma wsumC_zero {A} s (l : list A) : wsumC s (map (λ _, C0) l) = C0.
Proof.
  revert s. induction l as [|a l IH]; intros [|x s]; unfold wsumC in *; simpl;
    try ring. rewrite IH. ring.
Qed.

Lemma trace_lindblad_rhs n H g Ls R : trace n (lindblad_rhs n H g Ls R) = C0.
Proof.
  unfold lindblad_rhs.
  rewrite trace_Madd, trace_Mscale, trace_commutator, trace_weighted_sum, map_map.
  rewrite (map_ext _ (λ _, C0)) by (intros; apply trace_dissipator).
  rewrite wsumC_zero. ring.
Qed.

(** X12: the matrix returned by the dense Lindblad [evaluate_rhs] for one
    density matrix has trace zero, with dissipators and without. *)
Theorem X12_lindblad_rhs_traceless n k m sH g s1 Hs Hd Ls R :
  length sH = k → length Hs = k → Forall (is_matrix n n) Hs → is_matrix n n Hd →
  length g = m → length Ls = m → Forall (is_matrix n n) Ls → is_matrix n n R →
  (∃ M,
    (self ← DenseLindbladCollection.__init__ (new DenseLindbladCollection)
              (PyArr (array3 k n n Hs)) (PyArr (array2 n n Hd)) (PyArr (array3 m n n Ls));
     DenseLindbladCollection.evaluate_rhs self
       (PyList [PyArr (array1 sH); PyArr (array1 g)]) (PyArr (array2 n n R)))
    = Ok (PyArr (array2 n n M)) ∧ is_matrix n n M ∧ trace n M = C0) ∧
  (∃ M,
    (self ← DenseLindbladCollection.__init__ (new DenseLindbladCollection)
              (PyArr (array3 k n n Hs)) (PyArr (array2 n n Hd)) PyNone;
     DenseLindbladCollection.evaluate_rhs self
       (PyList [PyArr (array1 sH); s1]) (PyArr (array2 n n R)))
    = Ok (PyArr (array2 n n M)) ∧ is_matrix n n M ∧ trace n M = C0).
Proof.
  intros HsH Hk HHs HHd Hg Hm HLs HR. split.
  - exists (lindblad_rhs n (generator n sH Hs Hd) g Ls R).
    split; [by apply (lindblad_rhs_single n k m)|].
    split; [apply is_matrix_mk|apply trace_lindblad_rhs].
  - exists (unitary_rhs n (generator n sH Hs Hd) R).
    split; [by apply (lindblad_rhs_no_dissipators n k)|].
    split; [apply is_matrix_mk|].
    unfold unitary_rhs. rewrite trace_Mscale, trace_commutator. ring.
Qed.

Lemma X12_lindblad_rhs_traceless_witness :
  ∃ M,
    (self ← DenseLindbladCollection.__init__ (new DenseLindbladCollection)
              (PyArr (array3 1 2 2 [sigma_x])) (PyArr (array2 2 2 sigma_z))
              (PyArr (array3 1 2 2 [lowering]));
     DenseLindbladCollection.evaluate_rhs self
       (PyList [PyArr (array1 [Cq 1 2]); PyArr (array1 [Cz 1])]) (PyArr (array2 2 2 ground)))
    = Ok (PyArr (array2 2 2 M)) ∧ is_matrix 2 2 M ∧ trace 2 M = C0.
Proof.
  refine (proj1 (X12_lindblad_rhs_traceless 2 1 1 [Cq 1 2] [Cz 1] PyNone [sigma_x] sigma_z
                   [lowering] ground _ _ _ _ _ _ _ _));
    [reflexivity | reflexivity | repeat constructor | repeat constructor
    | reflexivity | reflexivity | repeat constructor | repeat constructor].
Defined.

(** *** Hermitian matrices *)

Lemma Cconj_add a b : Cconj (Cadd a b) = Cadd (Cconj a) (Cconj b).
Proof. destruct a, b. unfold Cconj, Cadd. simpl. f_equal; try ring. Qed.

Lemma Cconj_mul a b : Cconj (Cmul a b) = Cmul (Cconj a) (Cconj b).
Proof. destruct a, b. unfold Cconj, Cmul. simpl. f_equal; try ring. Qed.

Lemma Cconj_sub a b : Cconj (Csub a b) = Csub (Cconj a) (Cconj b).
Proof. destruct a, b. unfold Cconj, Csub, Cadd, Copp. simpl. f_equal; try ring. Qed.

Lemma Cconj_0 : Cconj C0 = C0.
Proof. unfold Cconj, C0. simpl. f_equal; try ring. Qed.

Lemma Cconj_minus_1j : Cconj minus_1j = Copp minus_1j.
Proof. unfold Cconj, Copp, minus_1j. simpl. f_equal; try ring. Qed.

Lemma is_real_half : is_real (Cq 1 2).
Proof. unfold is_real, Cconj, Cq, Creal. simpl. f_equal; try ring. Qed.

Lemma Cconj_csum n f : Cconj (csum n f) = csum n (λ i, Cconj (f i)).
Proof.
  revert f. induction n as [|n IH]; intros f; [by rewrite !csum_0, Cconj_0|].
  by rewrite !csum_S, Cconj_add, IH.
Qed.

Ltac adj_ext :=
  unfold is_hermitian, Madjoint, Madd, Msub, Mscale, Mzero, Mmul;
  apply mk_matrix_ext; intros ?i ?j ?Hi ?Hj;
  repeat (rewrite entry_mk_matrix by done).

Lemma Madjoint_add n A B :
  Madjoint n (Madd n n A B) = Madd n n (Madjoint n A) (Madjoint n B).
Proof. adj_ext. apply Cconj_add. Qed.

Lemma Madjoint_sub n A B :
  Madjoint n (Msub n n A B) = Msub n n (Madjoint n A) (Madjoint n B).
Proof. adj_ext. apply Cconj_sub. Qed.

Lemma Madjoint_scale n x A :
  Madjoint n (Mscale n n x A) = Mscale n n (Cconj x) (Madjoint n A).
Proof. adj_ext. apply Cconj_mul. Qed.

Lemma Madjoint_zero n : Madjoint n (Mzero n n) = Mzero n n.
Proof. adj_ext. apply Cconj_0. Qed.

Lemma Madjoint_mul n A B :
  Madjoint n (Mmul n n n A B) = Mmul n n n (Madjoint n B) (Madjoint n A).
Proof.
  adj_ext. rewrite Cconj_csum. apply csum_ext. intros l Hl.
  rewrite !entry_mk_matrix by done. rewrite Cconj_mul. ring.
Qed.

Lemma Madjoint_involutive n A : is_matrix n n A → Madjoint n (Madjoint n A) = A.
Proof.
  intros HA. rewrite <- (mk_matrix_entry n n A HA) at 2. adj_ext.
  destruct (entry A i j). unfold Cconj. simpl. f_equal; try ring.
Qed.

Lemma Madjoint_weighted_sum n s Gs :
  Madjoint n (weighted_sum n n s Gs)
  = weighted_sum n n (map Cconj s) (map (Madjoint n) Gs).
Proof.
  revert s. induction Gs as [|G Gs IH]; intros s.
  - cbn [map]. by rewrite !weighted_sum_nil_r, Madjoint_zero.
  - destruct s as [|x s].
    + cbn [map]. by rewrite !weighted_sum_nil_l, Madjoint_zero.
    + cbn [map]. by rewrite !weighted_sum_cons, Madjoint_add, Madjoint_scale, IH.
Qed.

Lemma map_id_Forall_eq {A} (f : A → A) l : Forall (λ x, f x = x) l → map f l = l.
Proof. induction 1 as [|x l Hx _ IH]; cbn [map]; [done|]. by rewrite Hx, IH. Qed.

Lemma is_hermitian_generator n s Gs Gd :
  Forall is_real s → Forall (is_hermitian n) Gs → is_hermitian n Gd →
  is_hermitian n (generator n s Gs Gd).
Proof.
  intros Hs HGs HGd. unfold is_hermitian, generator.
  rewrite Madjoint_add, Madjoint_weighted_sum, HGd.
  by rewrite (map_id_Forall_eq Cconj), (map_id_Forall_eq (Madjoint n)).
Qed.

Lemma Mscale_opp_sub n x A B :
  Mscale n n (Copp x) (Msub n n A B) = Mscale n n x (Msub n n B A).
Proof. adj_ext. ring. Qed.

Lemma is_hermitian_unitary_rhs n H R :
  is_hermitian n H → is_hermitian n R → is_hermitian n (unitary_rhs n H R).
Proof.
  intros HH HR. unfold is_hermitian, unitary_rhs, commutator.
  rewrite Madjoint_scale, Madjoint_sub, !Madjoint_mul, HH, HR, Cconj_minus_1j.
  apply Mscale_opp_sub.
Qed.

Lemma Madd_comm r c A B : Madd r c A B = Madd r c B A.
Proof. mat_ext. ring. Qed.

Lemma is_hermitian_dissipator n L R :
  is_matrix n n L → is_hermitian n R → is_hermitian n (dissipator n L R).
Proof.
  intros HL HR. unfold is_hermitian, dissipator, anticommutator.
  rewrite Madjoint_sub, Madjoint_scale, Madjoint_add, !Madjoint_mul.
  rewrite Madjoint_involutive by done. rewrite HR, is_real_half.
  rewrite <- (Mmul_assoc n n n n L R (Madjoint n L)).
  by rewrite (Madd_comm n n (Mmul n n n R _)).
Qed.

Lemma is_hermitian_lindblad_rhs n H g Ls R :
  is_hermitian n H → Forall is_real g → Forall (is_matrix n n) Ls → is_hermitian n R →
  is_hermitian n (lindblad_rhs n H g Ls R).
Proof.
  intros HH Hg HLs HR. unfold is_hermitian, lindblad_rhs.
  rewrite Madjoint_add, Madjoint_weighted_sum.
  fold (unitary_rhs n H R). rewrite (is_hermitian_unitary_rhs n H R HH HR).
  f_equal. rewrite (map_id_Forall_eq Cconj) by done. f_equal.
  rewrite map_map. apply Forall_fmap_ext_1.
  eapply Forall_impl; [exact HLs|]. intros L HL. by apply is_hermitian_dissipator.
Qed.

(** X13: for real signal values, Hermitian Hamiltonian operators and drift,
    and a Hermitian state, the matrix returned by the dense Lindblad
    [evaluate_rhs] is Hermitian, with dissipators and without. *)
Theorem X13_lindblad_rhs_hermitian n k m sH g s1 Hs Hd Ls R :
  length sH = k → length Hs = k → Forall (is_matrix n n) Hs → is_matrix n n Hd →
  length g = m → length Ls = m → Forall (is_matrix n n) Ls → is_matrix n n R →
  Forall is_real sH → Forall is_real g →
  Forall (is_hermitian n) Hs → is_hermitian n Hd → is_hermitian n R →
  (∃ M,
    (self ← DenseLindbladCollection.__init__ (new DenseLindbladCollection)
              (PyArr (array3 k n n Hs)) (PyArr (array2 n n Hd)) (PyArr (array3 m n n Ls));
     DenseLindbladCollection.evaluate_rhs self
       (PyList [PyArr (array1 sH); PyArr (array1 g)]) (PyArr (array2 n n R)))
    = Ok (PyArr (array2 n n M)) ∧ is_matrix n n M ∧ is_hermitian n M) ∧
  (∃ M,
    (self ← DenseLindbladCollection.__init__ (new DenseLindbladCollection)
              (PyArr (array3 k n n Hs)) (PyArr (array2 n n Hd)) PyNone;
     DenseLindbladCollection.evaluate_rhs self
       (PyList [PyArr (array1 sH); s1]) (PyArr (array2 n n R)))
    = Ok (PyArr (array2 n n M)) ∧ is_matrix n n M ∧ is_hermitian n M).
Proof.
  intros HsH Hk HHs HHd Hg Hm HLs HR HrH Hrg HhH Hhd HhR.
  pose proof (is_hermitian_generator n sH Hs Hd HrH HhH Hhd) as HG.
  split.
  - exists (lindblad_rhs n (generator n sH Hs Hd) g Ls R).
    split; [by apply (lindblad_rhs_single n k m)|].
    split; [apply is_matrix_mk|by apply is_hermitian_lindblad_rhs].
  - exists (unitary_rhs n (generator n sH Hs Hd) R).
    split; [by apply (lindblad_rhs_no_dissipators n k)|].
    split; [apply is_matrix_mk|by apply is_hermitian_unitary_rhs].
Qed.

Lemma X13_lindblad_rhs_hermitian_witness :
  ∃ M,
    (self ← DenseLindbladCollection.__init__ (new DenseLindbladCollection)
              (PyArr (array3 1 2 2 [sigma_x])) (PyArr (array2 2 2 sigma_z))
              (PyArr (array3 1 2 2 [lowering]));
     DenseLindbladCollection.evaluate_rhs self
       (PyList [PyArr (array1 [Cq 1 2]); PyArr (array1 [Cz 1])]) (PyArr (array2 2 2 ground)))
    = Ok (PyArr (array2 2 2 M)) ∧ is_matrix 2 2 M ∧ is_hermitian 2 M.
Proof.
  refine (proj1 (X13_lindblad_rhs_hermitian 2 1 1 [Cq 1 2] [Cz 1] PyNone [sigma_x] sigma_z
                   [lowering] ground _ _ _ _ _ _ _ _ _ _ _ _ _));
    [reflexivity | reflexivity | repeat constructor | repeat constructor
    | reflexivity | reflexivity | repeat constructor | repeat constructor
    | repeat constructor; py_eval | repeat constructor; py_eval
    | repeat constructor; py_eval | py_eval | py_eval].
Defined.

(** *** What the sparse Lindblad constructor stores *)

Lemma csr_adjoint n L :
  is_matrix n n L →
  (c ← py_conjugate (PyCsr (array2 n n L)); py_csr_transpose c)
  = Ok (PyCsr (array2 n n (Madjoint n L))).
Proof.
  intros HL. cbn [py_conjugate]. py_steps.
  unfold py_csr_transpose, np_conjugate, array2. cbn [shape data].
  do 3 f_equal.
  rewrite <- (mk_matrix_entry n n L HL) at 1. rewrite map_concat_mk.
  rewrite transpose_rows_spec by apply is_matrix_mk.
  f_equal. unfold Madjoint. apply mk_matrix_ext. intros i j Hi Hj.
  by rewrite entry_mk_matrix.
Qed.

Lemma py_mul_csr_csr n A B :
  is_matrix n n A → is_matrix n n B →
  py_mul (PyCsr (array2 n n A)) (PyCsr (array2 n n B))
  = Ok (PyCsr (array2 n n (Mmul n n n A B))).
Proof.
  intros HA HB. unfold py_mul. cbn [array2 shape].
  rewrite decide_True by done.
  change (mk_nd [n; n] (concat A)) with (array2 n n A).
  change (mk_nd [n; n] (concat B)) with (array2 n n B).
  by rewrite np_matmul_array2.
Qed.

Lemma objarr_mul_products n m Ls :
  length Ls = m → Forall (is_matrix n n) Ls →
  objarr_mul (PyObjArr [m] (map (λ G, PyCsr (array2 n n G)) (map (Madjoint n) Ls)))
             (PyObjArr [m] (map (λ G, PyCsr (array2 n n G)) Ls))
  = Ok (PyObjArr [m] (map (λ G, PyCsr (array2 n n G))
                        (map (λ L, Mmul n n n (Madjoint n L) L) Ls))).
Proof.
  intros Hm Hall. unfold objarr_mul. rewrite decide_True by done.
  rewrite !map_map.
  rewrite (zip_with_map_same pair
                (λ L, PyCsr (array2 n n (Madjoint n L))) (λ L, PyCsr (array2 n n L))).
  rewrite (mapM_fmap_Ok _ _ (λ L, PyCsr (array2 n n (Mmul n n n (Madjoint n L) L)))).
  - by py_steps.
  - eapply Forall_impl; [exact Hall|]. intros L HL. cbn [fst snd].
    apply py_mul_csr_csr; [apply is_matrix_mk|done].
Qed.

Lemma sparse_adjoints n (Ls : list matrix) :
  Forall (is_matrix n n) Ls →
  mapM (λ l, c ← py_conjugate l; py_csr_transpose c)
       (map (λ G, PyCsr (array2 n n G)) Ls)
  = Ok (map (λ G, PyCsr (array2 n n G)) (map (Madjoint n) Ls)).
Proof.
  intros Hall. rewrite map_map. apply mapM_fmap_Ok.
  eapply Forall_impl; [exact Hall|]. intros L HL. by apply csr_adjoint.
Qed.

Lemma sparse_lindblad_init_attrs n k m d Hs Hd Ls :
  length Hs = k → Forall (is_matrix n n) Hs → is_matrix n n Hd →
  length Ls = m → Forall (is_matrix n n) Ls →
  SparseLindbladCollection.__init__ (new SparseLindbladCollection)
    (PyArr (array3 k n n Hs)) (PyArr (array2 n n Hd)) (PyArr (array3 m n n Ls)) d
  = Ok (setattr (setattr (setattr (setattr (setattr (new SparseLindbladCollection)
         "_hamiltonian_operators"
           (PyObjArr [k] (map (λ G, PyCsr (array2 n n G)) (map (Mround n n d) Hs))))
         "_drift" (PyCsr (array2 n n (Mround n n d Hd))))
         "_dissipator_operators"
           (PyObjArr [m] (map (λ G, PyCsr (array2 n n G)) (map (Mround n n d) Ls))))
         "_dissipator_operators_conj"
           (PyObjArr [m] (map (λ G, PyCsr (array2 n n G))
                            (map (Madjoint n) (map (Mround n n d) Ls)))))
         "_dissipator_products"
           (PyObjArr [m] (map (λ G, PyCsr (array2 n n G))
                            (map (λ L, Mmul n n n (Madjoint n L) L)
                                 (map (Mround n n d) Ls))))).
Proof.
  intros Hk HHs HHd Hm HLs. unfold SparseLindbladCollection.__init__.
  rewrite !py_shape_array3. py_steps.
  change (tuple_index [k; n; n] 0) with (Ok (A:=nat) k). py_steps.
  rewrite sparse_items by done. py_steps.
  rewrite py_round_arr. py_steps. rewrite np_round_array2 by done.
  rewrite csr_matrix_array2. py_steps.
  unfold BaseOperatorCollection.set_drift. py_steps. cbn [is_none negb].
  change (tuple_index [m; n; n] 0) with (Ok (A:=nat) m). py_steps.
  rewrite sparse_items by done. py_steps.
  rewrite sparse_adjoints by apply Forall_is_matrix_Mround. py_steps.
  rewrite objarr_mul_products
    by (rewrite ?length_map; done || apply Forall_is_matrix_Mround).
  by py_steps.
Qed.

Lemma sparse_lindblad_init_no_dissipators n k d Hs Hd :
  length Hs = k → Forall (is_matrix n n) Hs → is_matrix n n Hd →
  SparseLindbladCollection.__init__ (new SparseLindbladCollection)
    (PyArr (array3 k n n Hs)) (PyArr (array2 n n Hd)) PyNone d
  = Ok (setattr (setattr (new SparseLindbladCollection)
         "_hamiltonian_operators"
           (PyObjArr [k] (map (λ G, PyCsr (array2 n n G)) (map (Mround n n d) Hs))))
         "_drift" (PyCsr (array2 n n (Mround n n d Hd)))).
Proof.
  intros Hk HHs HHd. unfold SparseLindbladCollection.__init__.
  rewrite !py_shape_array3. py_steps.
  change (tuple_index [k; n; n] 0) with (Ok (A:=nat) k). py_steps.
  rewrite !sparse_items by done. py_steps.
  rewrite py_round_arr. py_steps. rewrite np_round_array2 by done.
  rewrite csr_matrix_array2. py_steps.
  unfold BaseOperatorCollection.set_drift. by py_steps.
Qed.

(** X14: the sparse Lindblad constructor stores the rounded Hamiltonian
    operators and drift as sparse matrices and, given dissipators, the rounded
    dissipators [L], their adjoints [L†] and the products [L†·L] of the
    rounded matrices; given no dissipators it leaves
    [_dissipator_operators] and [_dissipator_products] unset. *)
Theorem X14_sparse_lindblad_init n k m d Hs Hd Ls :
  length Hs = k → Forall (is_matrix n n) Hs → is_matrix n n Hd →
  length Ls = m → Forall (is_matrix n n) Ls →
  let csr := λ G, PyCsr (array2 n n G) in
  let Lr := map (Mround n n d) Ls in
  (∃ self,
    SparseLindbladCollection.__init__ (new SparseLindbladCollection)
      (PyArr (array3 k n n Hs)) (PyArr (array2 n n Hd)) (PyArr (array3 m n n Ls)) d
    = Ok self ∧
    getattr self "_hamiltonian_operators"
      = Ok (PyObjArr [k] (map csr (map (Mround n n d) Hs))) ∧
    BaseOperatorCollection.drift self = Ok (csr (Mround n n d Hd)) ∧
    getattr self "_dissipator_operators" = Ok (PyObjArr [m] (map csr Lr)) ∧
    getattr self "_dissipator_operators_conj"
      = Ok (PyObjArr [m] (map csr (map (Madjoint n) Lr))) ∧
    getattr self "_dissipator_products"
      = Ok (PyObjArr [m] (map csr (map (λ L, Mmul n n n (Madjoint n L) L) Lr)))) ∧
  (∃ self,
    SparseLindbladCollection.__init__ (new SparseLindbladCollection)
      (PyArr (array3 k n n Hs)) (PyArr (array2 n n Hd)) PyNone d
    = Ok self ∧
    getattr self "_hamiltonian_operators"
      = Ok (PyObjArr [k] (map csr (map (Mround n n d) Hs))) ∧
    BaseOperatorCollection.drift self = Ok (csr (Mround n n d Hd)) ∧
    getattr self "_dissipator_operators" = Raise AttributeError ∧
    getattr self "_dissipator_products" = Raise AttributeError).
Proof.
  intros Hk HHs HHd Hm HLs csr Lr. split.
  - eexists. split; [by apply sparse_lindblad_init_attrs|].
    unfold BaseOperatorCollection.drift. repeat split; by py_steps.
  - eexists. split; [by apply sparse_lindblad_init_no_dissipators|].
    unfold BaseOperatorCollection.drift. repeat split; by py_steps.
Qed.

Lemma X14_sparse_lindblad_init_witness :
  ∃ self,
    SparseLindbladCollection.__init__ (new SparseLindbladCollection)
      (PyArr (array3 1 2 2 [sigma_x])) (PyArr (array2 2 2 sigma_z)) PyNone 10
    = Ok self ∧
    getattr self "_hamiltonian_operators"
      = Ok (PyObjArr [1] (map (λ G, PyCsr (array2 2 2 G)) (map (Mround 2 2 10) [sigma_x]))) ∧
    BaseOperatorCollection.drift self = Ok (PyCsr (array2 2 2 (Mround 2 2 10 sigma_z))) ∧
    getattr self "_dissipator_operators" = Raise AttributeError ∧
    getattr self "_dissipator_products" = Raise AttributeError.
Proof.
  refine (proj2 (X14_sparse_lindblad_init 2 1 1 10 [sigma_x] sigma_z [lowering] _ _ _ _ _));
    [reflexivity | repeat constructor | repeat constructor | reflexivity
    | repeat constructor].
Defined.

(** *** The Hamiltonian of the sparse Lindblad collection *)

Lemma obj_sum_fold r c s Gs Acc :
  is_matrix r c Acc → Forall (is_matrix r c) Gs →
  foldl (λ acc y, a ← acc; py_add a y) (Ok (PyCsr (array2 r c Acc)))
        (map (λ p : C * matrix, PyCsr (array2 r c (Mscale r c p.1 p.2))) (zip s Gs))
  = Ok (PyCsr (array2 r c (Madd r c Acc (weighted_sum r c s Gs)))).
Proof.
  intros HA Hall. revert s Acc HA.
  induction Hall as [|G Gs HG _ IH]; intros s Acc HA.
  - rewrite weighted_sum_nil_r, zip_with_nil_r. cbn [map foldl].
    by rewrite Madd_zero_r.
  - destruct s as [|x s].
    + rewrite weighted_sum_nil_l. cbn [zip_with map foldl]. by rewrite Madd_zero_r.
    + cbn [map zip_with foldl fst snd]. py_steps.
      rewrite py_add_csr, csr_add_array2 by (done || apply is_matrix_mk). py_steps.
      rewrite IH by apply is_matrix_mk.
      rewrite weighted_sum_cons. by rewrite Madd_assoc.
Qed.

Lemma np_multiply_obj_csr r c k s Gs :
  length s = k → length Gs = k → Forall (is_matrix r c) Gs →
  np_multiply_obj (PyArr (array1 s)) (PyObjArr [k] (map (λ G, PyCsr (array2 r c G)) Gs))
  = Ok (PyObjArr [k]
          (map (λ p : C * matrix, PyCsr (array2 r c (Mscale r c p.1 p.2))) (zip s Gs))).
Proof.
  intros Hs HG Hall. unfold np_multiply_obj. cbn [array1 shape data length].
  rewrite Hs, broadcast_shapes_same. cbn [length]. rewrite Nat.max_id.
  change (pad_shape 1 [k]) with [k].
  rewrite expand_same by (simpl; lia).
  assert (expand_items 1 [k] [k] (map (λ G, PyCsr (array2 r c G)) Gs)
          = map (λ G, PyCsr (array2 r c G)) Gs) as ->.
  { cbn [expand_items]. rewrite decide_True by done.
    change (size [] * 1) with 1. rewrite map_id.
    rewrite <- HG at 1. rewrite <- (length_map (λ G, PyCsr (array2 r c G))).
    by rewrite chunks_singletons, concat_singletons. }
  assert (mapM (λ p, py_mul (PyNum p.1) p.2)
               (zip s (map (λ G, PyCsr (array2 r c G)) Gs))
          = Ok (map (λ p : C * matrix, PyCsr (array2 r c (Mscale r c p.1 p.2))) (zip s Gs)))
    as ->; [|done].
  clear Hs HG. revert s. induction Hall as [|G Gs HGm _ IH]; intros s.
  - cbn [map]. by rewrite !zip_with_nil_r.
  - destruct s as [|x s]; [done|].
    cbn [map zip_with mapM fst snd]. rewrite py_mul_num_csr. py_steps.
    rewrite np_scale_array2 by done. rewrite IH. by py_steps.
Qed.

Lemma sparse_lindblad_hamiltonian self n k s Gs Gd :
  0 < k → length s = k → length Gs = k →
  Forall (is_matrix n n) Gs → is_matrix n n Gd →
  getattr self "_hamiltonian_operators"
    = Ok (PyObjArr [k] (map (λ G, PyCsr (array2 n n G)) Gs)) →
  getattr self "_drift" = Ok (PyCsr (array2 n n Gd)) →
  SparseLindbladCollection_evaluate_hamiltonian self (PyArr (array1 s))
  = Ok (PyCsr (array2 n n (generator n s Gs Gd))).
Proof.
  intros Hk Hs HG Hall Hd Hops Hdr. unfold SparseLindbladCollection_evaluate_hamiltonian.
  rewrite Hops. py_steps. rewrite (np_multiply_obj_csr n n k) by done. py_steps.
  unfold np_sum_last, last_axis. cbn [reverse rev_append].
  destruct s as [|x s]; [simpl in Hs; lia|].
  destruct Gs as [|G Gs]; [simpl in HG; lia|].
  inversion Hall as [|? ? HGm Hall']; subst.
  cbn [zip_with map obj_sum fst snd].
  rewrite obj_sum_fold by (done || apply is_matrix_mk). py_steps.
  unfold BaseOperatorCollection.drift. rewrite Hdr. py_steps.
  cbn [py_add_sum]. rewrite py_add_csr, csr_add_array2 by (done || apply is_matrix_mk).
  unfold generator. by rewrite weighted_sum_cons.
Qed.

(** X15: for a sparse Lindblad collection of at least one Hamiltonian
    operator, with or without dissipators, [evaluate_hamiltonian(s)] is the
    sparse matrix [Σ_j s_j·H_j + H_d] of the rounded operators and drift. *)
Theorem X15_sparse_lindblad_evaluate_hamiltonian n k d s Hs Hd L :
  0 < k → length s = k → length Hs = k →
  Forall (is_matrix n n) Hs → is_matrix n n Hd →
  L = PyNone ∨ (∃ m Ls, L = PyArr (array3 m n n Ls) ∧ length Ls = m ∧
                        Forall (is_matrix n n) Ls) →
  (self ← SparseLindbladCollection.__init__ (new SparseLindbladCollection)
            (PyArr (array3 k n n Hs)) (PyArr (array2 n n Hd)) L d;
   SparseLindbladCollection_evaluate_hamiltonian self (PyArr (array1 s)))
  = Ok (PyCsr (array2 n n (generator n s (map (Mround n n d) Hs) (Mround n n d Hd)))).
Proof.
  intros Hk Hlen HG Hall HHd [->|(m & Ls & -> & Hm & HLs)].
  - rewrite sparse_lindblad_init_no_dissipators by done. py_steps.
    apply (sparse_lindblad_hamiltonian _ n k);
      rewrite ?length_map; try done; try apply Forall_is_matrix_Mround;
      try apply is_matrix_mk; by py_steps.
  - rewrite sparse_lindblad_init_attrs by done. py_steps.
    apply (sparse_lindblad_hamiltonian _ n k);
      rewrite ?length_map; try done; try apply Forall_is_matrix_Mround;
      try apply is_matrix_mk; by py_steps.
Qed.

Lemma X15_sparse_lindblad_evaluate_hamiltonian_witness :
  (self ← SparseLindbladCollection.__init__ (new SparseLindbladCollection)
            (PyArr (array3 1 2 2 [sigma_x])) (PyArr (array2 2 2 sigma_z)) PyNone 10;
   SparseLindbladCollection_evaluate_hamiltonian self (PyArr (array1 [Cq 1 2])))
  = Ok (PyCsr (array2 2 2
         (generator 2 [Cq 1 2] (map (Mround 2 2 10) [sigma_x]) (Mround 2 2 10 sigma_z)))).
Proof.
  apply (X15_sparse_lindblad_evaluate_hamiltonian 2 1 10 [Cq 1 2] [sigma_x] sigma_z PyNone);
    [lia | reflexivity | reflexivity | repeat constructor | repeat constructor
    | left; reflexivity].
Defined.


(** *** The sparse Lindblad collection without dissipators *)

(** X16: a sparse Lindblad collection built without dissipators cannot be
    evaluated: [evaluate_rhs] never returns a value, whatever the arguments
    and whatever the remainder of the function computes, and for well-formed
    arguments it raises [AttributeError] when it reads
    [self._dissipator_operators], which the constructor did not set. *)
Theorem X16_sparse_lindblad_no_dissipators_raises contributions n k d sH s1 Hs Hd a loop p
    H D dec sv y :
  is_ok (self ← SparseLindbladCollection.__init__ (new SparseLindbladCollection)
                  H D PyNone dec;
         SparseLindbladCollection_evaluate_rhs contributions self sv y) = false ∧
  (0 < k → length sH = k → length Hs = k →
   Forall (is_matrix n n) Hs → is_matrix n n Hd →
   shape a = loop ++ [p; p] → size loop ≠ 0 →
   (self ← SparseLindbladCollection.__init__ (new SparseLindbladCollection)
             (PyArr (array3 k n n Hs)) (PyArr (array2 n n Hd)) PyNone d;
    SparseLindbladCollection_evaluate_rhs contributions self (PyList [PyArr (array1 sH); s1]) (PyArr a))
   = Raise AttributeError).
Proof.
  split.
  - unfold SparseLindbladCollection.__init__.
    destruct (py_shape H) as [s|?]; [|done]. py_steps.
    destruct (tuple_index s 0) as [k'|?]; [|done]. py_steps.
    destruct (mapM _ (seq 0 k')) as [hs|?]; [|done]. py_steps.
    destruct (py_round D dec) as [r|?]; [|done]. py_steps.
    destruct (csr_matrix r) as [c|?]; [|done]. py_steps.
    unfold BaseOperatorCollection.set_drift. py_steps. cbn [is_none negb]. py_steps.
    unfold SparseLindbladCollection_evaluate_rhs.
    destruct (py_getitem sv 0) as [s0|?]; [|done]. py_steps.
    destruct (SparseLindbladCollection_evaluate_hamiltonian _ s0) as [h|?]; [|done]. py_steps.
    destruct (py_mul (PyNum minus_1j) h) as [hm|?]; [|done]. py_steps.
    destruct (package_density_matrices y) as [y'|?]; [|done]. by py_steps.
  - intros Hk HsH HG Hall HHd Hshape Hloop.
    rewrite sparse_lindblad_init_no_dissipators by done. py_steps.
    unfold SparseLindbladCollection_evaluate_rhs.
    rewrite (py_getitem_list _ 0 (PyArr (array1 sH))) by done. py_steps.
    rewrite (sparse_lindblad_hamiltonian _ n k sH (map (Mround n n d) Hs) (Mround n n d Hd))
      by (rewrite ?length_map; done || apply Forall_is_matrix_Mround
          || apply is_matrix_mk || by py_steps).
    py_steps. rewrite py_mul_num_csr. py_steps.
    rewrite (package_any_batch a loop p) by done. by py_steps.
Qed.

Lemma X16_sparse_lindblad_no_dissipators_raises_witness :
  (self ← SparseLindbladCollection.__init__ (new SparseLindbladCollection)
            (PyArr (array3 1 2 2 [sigma_x])) (PyArr (array2 2 2 sigma_z)) PyNone 10;
   SparseLindbladCollection_evaluate_rhs (λ _ _ _ _ _, Ok PyNone) self
     (PyList [PyArr (array1 [Cq 1 2]); PyNone]) (PyArr (array2 2 2 ground)))
  = Raise AttributeError.
Proof.
  refine (proj2 (X16_sparse_lindblad_no_dissipators_raises (λ _ _ _ _ _, Ok PyNone)
                   2 1 10 [Cq 1 2] PyNone [sigma_x] sigma_z (array2 2 2 ground) [] 2
                   PyNone PyNone 0%Z PyNone PyNone) _ _ _ _ _ _ _);
    [lia | reflexivity | reflexivity | repeat constructor | repeat constructor
    | reflexivity | simpl; lia].
Defined.

(** *** A batch of signal values *)

Lemma zip_with_concat_replicate_r {A B D} (f : A → B → D) (xss : list (list A)) ys :
  Forall (λ xs, length xs = length ys) xss →
  zip_with f (concat xss) (concat (replicate (length xss) ys))
  = concat (map (λ xs, zip_with f xs ys) xss).
Proof.
  induction 1 as [|xs xss Hx _ IH]; simpl; [done|].
  rewrite zip_with_app by done. by rewrite IH.
Qed.

Lemma np_tensordot_batch b k r c S Gs :
  is_matrix b k S → length Gs = k → Forall (is_matrix r c) Gs →
  np_tensordot (array2 b k S) (array3 k r c Gs)
  = Ok (array3 b r c (map (λ s, weighted_sum r c s Gs) S)).
Proof.
  intros [HSb HSk] HG Hall. unfold np_tensordot, array2, array3. cbn [shape data].
  unfold last_axis. cbn [reverse rev_append]. rewrite decide_True by done.
  cbn [app]. do 2 f_equal. unfold mm.
  rewrite size_2. replace (size [b]) with b by (simpl; lia).
  rewrite (chunks_concat' k b S) by done. rewrite chunks_stack by done.
  rewrite !map_map. f_equal. apply map_ext. intros s.
  by apply lincomb_weighted_sum.
Qed.

Lemma np_add_array3_array2 b n Ws Gd :
  length Ws = b → Forall (is_matrix n n) Ws → is_matrix n n Gd →
  np_add (array3 b n n Ws) (array2 n n Gd)
  = Ok (array3 b n n (map (λ W, Madd n n W Gd) Ws)).
Proof.
  intros Hb HWs HGd. unfold np_add, np_binop, array3, array2. cbn [shape data length].
  unfold broadcast_shapes. cbn [length]. change (3 `max` 2) with 3.
  change (pad_shape 3 [b; n; n]) with [b; n; n].
  change (pad_shape 3 [n; n]) with [1; n; n].
  cbn [broadcast_dims]. rewrite broadcast_dim_1_r, !broadcast_dim_same.
  assert (length (concat (map (@concat C) Ws)) = b * (n * n)) as HlenW.
  { rewrite (length_concat_const (n * n)) by (by apply Forall_is_matrix_length).
    rewrite length_map. by f_equal. }
  rewrite expand_same by (rewrite size_3; lia).
  rewrite expand_lead_1
    by (rewrite size_2, (length_concat_matrix n n) by done; lia).
  do 2 f_equal. rewrite <- Hb, <- (length_map (@concat C)).
  rewrite zip_with_concat_replicate_r.
  - rewrite !map_map. f_equal. apply Forall_fmap_ext_1.
    eapply Forall_impl; [exact HWs|]. intros W HW. cbn beta.
    by rewrite concat_Madd.
  - apply Forall_map. eapply Forall_impl; [exact HWs|]. intros W HW. cbn beta.
    by rewrite !(length_concat_matrix n n).
Qed.

(** X19: a dense collection accepts a batch of [b] signal vectors and returns
    the stack of the [b] generators; a sparse collection given a batch of more
    than one signal vector raises [ValueError]. *)
Theorem X19_batch_of_signal_values n k b d S Gs Gd :
  is_matrix b k S → length Gs = k → Forall (is_matrix n n) Gs → is_matrix n n Gd →
  (self ← DenseOperatorCollection.__init__ (new DenseOperatorCollection)
            (PyArr (array3 k n n Gs)) (PyArr (array2 n n Gd));
   evaluate_generator self (PyArr (array2 b k S)))
  = Ok (PyArr (array3 b n n (map (λ s, generator n s Gs Gd) S))) ∧
  (1 < b → 0 < k →
   (self ← SparseOperatorCollection.__init__ (new SparseOperatorCollection)
             (PyArr (array3 k n n Gs)) (PyArr (array2 n n Gd)) d;
    evaluate_generator self (PyArr (array2 b k S)))
   = Raise ValueError).
Proof.
  intros HS HG Hall Hd. split.
  - rewrite dense_init. py_steps. unfold evaluate_generator.
    rewrite !cls_setattr. cbn [cls new].
    unfold DenseOperatorCollection.evaluate_generator. py_steps. cbn [is_none].
    rewrite py_tensordot_arr, np_tensordot_batch by done. py_steps.
    rewrite py_add_arr, np_add_array3_array2
      by (rewrite ?length_map; try apply HS; done || is_mat).
    py_steps. by rewrite map_map.
  - intros Hb Hk. rewrite sparse_init by done. py_steps.
    unfold evaluate_generator. rewrite !cls_setattr. cbn [cls new].
    unfold SparseOperatorCollection.evaluate_generator.
    cbn [py_shape array2 shape]. py_steps.
    change (tuple_index [b; k] (-1)) with (Ok (A:=nat) k). py_steps.
    assert (length (concat S) ≠ k) as Hne
      by (rewrite (length_concat_matrix b k) by done; nia).
    unfold py_reshape_1. cbn [data]. by rewrite decide_False.
Qed.

Lemma X19_batch_of_signal_values_witness :
  (self ← DenseOperatorCollection.__init__ (new DenseOperatorCollection)
            (PyArr (array3 1 2 2 [sigma_x])) (PyArr (array2 2 2 sigma_z));
   evaluate_generator self (PyArr (array2 2 1 [[Cz 0]; [Cz 1]])))
  = Ok (PyArr (array3 2 2 2 (map (λ s, generator 2 s [sigma_x] sigma_z) [[Cz 0]; [Cz 1]]))).
Proof.
  refine (proj1 (X19_batch_of_signal_values 2 1 2 10 [[Cz 0]; [Cz 1]] [sigma_x] sigma_z
                   _ _ _ _));
    [repeat constructor | reflexivity | repeat constructor | repeat constructor].
Defined.

(** *** Superposition of states *)

Lemma commutator_linear n H a R S :
  commutator n H (Madd n n (Mscale n n a R) S)
  = Madd n n (Mscale n n a (commutator n H R)) (commutator n H S).
Proof.
  unfold commutator. rewrite Mmul_add_r, Mmul_add_l, Mmul_scale_r, Mmul_scale_l.
  mat_ext. ring.
Qed.

Lemma dissipator_linear n L a R S :
  dissipator n L (Madd n n (Mscale n n a R) S)
  = Madd n n (Mscale n n a (dissipator n L R)) (dissipator n L S).
Proof.
  unfold dissipator, anticommutator.
  rewrite !Mmul_add_r, !Mmul_scale_r, !Mmul_add_l, !Mmul_scale_l.
  mat_ext. ring.
Qed.

Lemma weighted_sum_linear {A} n g a (F G : A → matrix) l :
  weighted_sum n n g (map (λ x, Madd n n (Mscale n n a (F x)) (G x)) l)
  = Madd n n (Mscale n n a (weighted_sum n n g (map F l))) (weighted_sum n n g (map G l)).
Proof.
  revert g. induction l as [|x l IH]; intros g.
  - cbn [map]. rewrite !weighted_sum_nil_r. mat_ext. ring.
  - destruct g as [|c g].
    + rewrite !weighted_sum_nil_l. mat_ext. ring.
    + cbn [map]. rewrite !weighted_sum_cons, IH. mat_ext. ring.
Qed.

Lemma lindblad_rhs_linear n H g Ls a R S :
  lindblad_rhs n H g Ls (Madd n n (Mscale n n a R) S)
  = Madd n n (Mscale n n a (lindblad_rhs n H g Ls R)) (lindblad_rhs n H g Ls S).
Proof.
  unfold lindblad_rhs. rewrite commutator_linear.
  rewrite (map_ext (λ L, dissipator n L (Madd n n (Mscale n n a R) S))
             (λ L, Madd n n (Mscale n n a (dissipator n L R)) (dissipator n L S)))
    by (intros; apply dissipator_linear).
  rewrite weighted_sum_linear. mat_ext. ring.
Qed.

(** X20: the dense Lindblad [evaluate_rhs] is linear in the state: on
    [a·ρ + σ] it returns [a] times its value on [ρ] plus its value on [σ]. *)
Theorem X20_lindblad_rhs_superposition n k m sH g Hs Hd Ls a R S :
  length sH = k → length Hs = k → Forall (is_matrix n n) Hs → is_matrix n n Hd →
  length g = m → length Ls = m → Forall (is_matrix n n) Ls →
  is_matrix n n R → is_matrix n n S →
  let rhs := λ rho,
    self ← DenseLindbladCollection.__init__ (new DenseLindbladCollection)
             (PyArr (array3 k n n Hs)) (PyArr (array2 n n Hd)) (PyArr (array3 m n n Ls));
    DenseLindbladCollection.evaluate_rhs self
      (PyList [PyArr (array1 sH); PyArr (array1 g)]) (PyArr (array2 n n rho)) in
  ∃ M1 M2,
    rhs R = Ok (PyArr (array2 n n M1)) ∧
    rhs S = Ok (PyArr (array2 n n M2)) ∧
    rhs (Madd n n (Mscale n n a R) S)
      = Ok (PyArr (array2 n n (Madd n n (Mscale n n a M1) M2))).
Proof.
  intros HsH Hk HHs HHd Hg Hm HLs HR HS rhs.
  exists (lindblad_rhs n (generator n sH Hs Hd) g Ls R),
         (lindblad_rhs n (generator n sH Hs Hd) g Ls S).
  subst rhs. cbn beta.
  rewrite !(lindblad_rhs_single n k m) by (done || apply is_matrix_mk).
  by rewrite lindblad_rhs_linear.
Qed.

Lemma X20_lindblad_rhs_superposition_witness :
  ∃ M1 M2,
    (self ← DenseLindbladCollection.__init__ (new DenseLindbladCollection)
              (PyArr (array3 1 2 2 [sigma_x])) (PyArr (array2 2 2 sigma_z))
              (PyArr (array3 1 2 2 [lowering]));
     DenseLindbladCollection.evaluate_rhs self
       (PyList [PyArr (array1 [Cq 1 2]); PyArr (array1 [Cz 1])])
       (PyArr (array2 2 2 ground)))
    = Ok (PyArr (array2 2 2 M1)) ∧
    (self ← DenseLindbladCollection.__init__ (new DenseLindbladCollection)
              (PyArr (array3 1 2 2 [sigma_x])) (PyArr (array2 2 2 sigma_z))
              (PyArr (array3 1 2 2 [lowering]));
     DenseLindbladCollection.evaluate_rhs self
       (PyList [PyArr (array1 [Cq 1 2]); PyArr (array1 [Cz 1])])
       (PyArr (array2 2 2 sigma_x)))
    = Ok (PyArr (array2 2 2 M2)) ∧
    (self ← DenseLindbladCollection.__init__ (new DenseLindbladCollection)
              (PyArr (array3 1 2 2 [sigma_x])) (PyArr (array2 2 2 sigma_z))
              (PyArr (array3 1 2 2 [lowering]));
     DenseLindbladCollection.evaluate_rhs self
       (PyList [PyArr (array1 [Cq 1 2]); PyArr (array1 [Cz 1])])
       (PyArr (array2 2 2 (Madd 2 2 (Mscale 2 2 (Cq 1 2) ground) sigma_x))))
    = Ok (PyArr (array2 2 2 (Madd 2 2 (Mscale 2 2 (Cq 1 2) M1) M2))).
Proof.
  apply (X20_lindblad_rhs_superposition 2 1 1 [Cq 1 2] [Cz 1] [sigma_x] sigma_z [lowering]
           (Cq 1 2) ground sigma_x);
    [reflexivity | reflexivity | repeat constructor | repeat constructor
    | reflexivity | reflexivity | repeat constructor | repeat constructor
    | repeat constructor].
Defined.
